(** * CCTV activity analyzer: a shallow embedding of analyzer.py and utils.py

    The development follows the structure of the Python program:

    - [Numeric]: the Python numbers the program computes with.  Integers are
      [Z]; the floating-point quantities (fps, durations in seconds, box
      centres) are modelled as exact rationals [Q], kept in lowest terms, and
      a true division raises [ZeroDivisionError] on a zero divisor.  A double
      is the exact value rounded, and the box arithmetic is numpy's int64:
      where a statement rests on the whole part of a quotient, on the
      truncation of a product or on the sign of an area, it is made where
      rounding and wrap-around leave these unchanged, for whole-number frame
      rates ([whole_fps], [double_of]) and for box coordinates in the pixel
      range ([in_pixel_range], [intersection_area_int64]).
    - [Classifier]: section A of [CCTVAnalyzer.analyze_video], the detection
      pass over the boxes returned by the model (lines 70-116).
    - [Analyzer]: the instance fields of [CCTVAnalyzer], one iteration of the
      frame loop ([loop_body], lines 61-192) and the whole run
      ([analyze_video]).
    - [Report]: [frames_to_time_str] of utils.py and [print_final_report].

    The video capture, the YOLO model, the windowing calls, the face blur and
    the CSV/screenshot sink are collaborators: the model is a function from
    frames to detection results, and [log_event] is recorded as the list of
    events it was called with. *)

From Stdlib Require Import ZArith QArith Qabs Qround List String Ascii Bool Lia Lqa.
From Stdlib Require Import DecimalString DecimalPos DecimalN.
Import ListNotations.

Local Open Scope Z_scope.

(* ===================================================================== *)
(** ** Python numbers and exceptions                                      *)
(* ===================================================================== *)

Module Numeric.

(** The only exception the modelled code can raise by itself. *)
Inductive exn : Type := ZeroDivisionError.

Inductive result (A : Type) : Type :=
| Ok (a : A)
| Raise (e : exn).
Arguments Ok {A} a.
Arguments Raise {A} e.

Definition bind {A B : Type} (m : result A) (k : A -> result B) : result B :=
  match m with
  | Ok a => k a
  | Raise e => Raise e
  end.

(** [x / y] on numbers, at least one of them a float. *)
Definition py_truediv (x y : Q) : result Q :=
  if Qeq_bool y 0 then Raise ZeroDivisionError else Ok (Qred (x / y)).

(** [int(x)] on a float: truncation toward zero. *)
Definition py_int (x : Q) : Z := Z.quot (Qnum x) (Zpos (Qden x)).

(** [x // k] and [x % k] on a float [x] and a nonzero literal [k]. *)
Definition py_floordiv (x : Q) (k : Z) : Q := inject_Z (Qfloor (x / inject_Z k)).
Definition py_mod (x : Q) (k : Z) : Q :=
  Qred (x - inject_Z k * inject_Z (Qfloor (x / inject_Z k))).

(** Strict comparison of two numbers. *)
Definition Qltb (x y : Q) : bool := negb (Qle_bool y x).

(** The format specification [:02] applied to an integer: sign-aware zero
    padding to a minimum width of two characters. *)
Definition digits (n : Z) : string := NilZero.string_of_uint (N.to_uint (Z.to_N n)).

Definition fmt02 (n : Z) : string :=
  if n <? 0 then String "-" (digits (- n))
  else if n <? 10 then String "0" (digits n)
  else digits n.

End Numeric.

Import Numeric.

Notation "x <- m ;; k" := (bind m (fun x => k))
  (at level 61, m at next level, right associativity).

(* ===================================================================== *)
(** ** Section A of the loop: the detection pass                          *)
(* ===================================================================== *)

Module Classifier.

(** YOLOv8 class ids (analyzer.py lines 6-9). *)
Definition PERSON_CLASS_ID : Z := 0.
Definition MOBILE_CLASS_ID : Z := 67.
Definition LAPTOP_CLASS_ID : Z := 63.
Definition KEYBOARD_CLASS_ID : Z := 66.

(** A box as the loop sees it: [int(box.cls[0])] and
    [box.xyxy[0].cpu().numpy().astype(int)]. *)
Definition XYXY : Type := (Z * Z * Z * Z)%type.

Record Box : Type := mkBox { cls : Z; xyxy : XYXY }.

(** What [self.model(frame)] returns: a list of results [r], each with its
    [r.boxes]. *)
Definition Results : Type := list (list Box).

(** Lines 75-81: collect the person boxes and the laptop/keyboard flag. *)
Definition collect_person_boxes (results : Results) : list XYXY :=
  flat_map
    (fun r => flat_map
       (fun box => if cls box =? PERSON_CLASS_ID then [xyxy box] else []) r)
    results.

Definition laptop_keyboard_detected_current (results : Results) : bool :=
  existsb
    (fun r => existsb
       (fun box => negb (cls box =? PERSON_CLASS_ID)
                   && ((cls box =? LAPTOP_CLASS_ID) || (cls box =? KEYBOARD_CLASS_ID)))
       r)
    results.

(** Line 86: [py1 + int((py2 - py1) * 0.20)].  For integer heights within
    pixel range the double product truncates to the same integer as the
    exact fifth of the height. *)
Definition py_mobile_zone (p_box : XYXY) : Z :=
  let '(px1, py1, px2, py2) := p_box in
  py1 + py_int (inject_Z (py2 - py1) * (20 # 100)).

(** Lines 87-88 and 95-96: centres are true divisions by two. *)
Definition center (a b : Z) : Q := inject_Z (a + b) / 2.

(** Line 98.  The factor 0.6 is the rational 3/5: centres are multiples of
    one half, so for coordinates within pixel range the comparison of the
    doubles has the same outcome as the exact one. *)
Definition horizontal_prox (p_box m_box : XYXY) : bool :=
  let '(px1, py1, px2, py2) := p_box in
  let '(mx1, my1, mx2, my2) := m_box in
  Qltb (Qabs (center mx1 mx2 - center px1 px2)) (inject_Z (px2 - px1) * (6 # 10)).

(** Line 96. *)
Definition m_center_y (m_box : XYXY) : Q :=
  let '(mx1, my1, mx2, my2) := m_box in center my1 my2.

(** Line 99: [m_center_y > py_mobile_zone]. *)
Definition vertical_prox (p_box m_box : XYXY) : bool :=
  Qltb (inject_Z (py_mobile_zone p_box)) (m_center_y m_box).

(** Lines 100-101: the clamped intersection area and the test on it.  The
    product is the mathematical one; numpy's int64 product is the same as
    long as it does not wrap around. *)
Definition intersection_area (p_box m_box : XYXY) : Z :=
  let '(px1, py1, px2, py2) := p_box in
  let '(mx1, my1, mx2, my2) := m_box in
  Z.max 0 (Z.min px2 mx2 - Z.max px1 mx1) * Z.max 0 (Z.min py2 my2 - Z.max py1 my1).

Definition touches (p_box m_box : XYXY) : bool := 0 <? intersection_area p_box m_box.

(** Line 103. *)
Definition pair_qualifies (p_box m_box : XYXY) : bool :=
  horizontal_prox p_box m_box && vertical_prox p_box m_box && touches p_box m_box.

(** Lines 91-109: the loop over [r.boxes], left by [break] at the first
    qualifying mobile box. *)
Fixpoint scan_boxes (p_box : XYXY) (boxes : list Box) : bool :=
  match boxes with
  | [] => false
  | box :: rest =>
      if (cls box =? MOBILE_CLASS_ID) && pair_qualifies p_box (xyxy box)
      then true
      else scan_boxes p_box rest
  end.

(** Lines 90-110: the loop over [results], left when the flag is set. *)
Fixpoint scan_results (p_box : XYXY) (results : Results) : bool :=
  match results with
  | [] => false
  | r :: rest => if scan_boxes p_box r then true else scan_results p_box rest
  end.

(** Lines 84-111: the loop over the person boxes, left when the flag is
    set.  The value is [mobile_in_hand_current]. *)
Fixpoint scan_persons (person_boxes : list XYXY) (results : Results) : bool :=
  match person_boxes with
  | [] => false
  | p_box :: rest =>
      if scan_results p_box results then true else scan_persons rest results
  end.

Definition mobile_in_hand_current (results : Results) : bool :=
  scan_persons (collect_person_boxes results) results.

(** The three values stored at lines 114-116. *)
Record Snapshot : Type := mkSnapshot {
  person_present : bool;
  mobile_in_hand : bool;
  laptop_or_keyboard_present : bool
}.

Definition classify (results : Results) : Snapshot :=
  {| person_present := Nat.ltb 0 (List.length (collect_person_boxes results));
     mobile_in_hand := mobile_in_hand_current results;
     laptop_or_keyboard_present := laptop_keyboard_detected_current results |}.

End Classifier.

Import Classifier.

(* ===================================================================== *)
(** ** The analyzer object and the frame loop                             *)
(* ===================================================================== *)

Module Analyzer.

(** The [self.stats] dictionary; its five keys are fixed at construction. *)
Record Stats : Type := mkStats {
  total_video_frames : Z;
  off_camera_frames : Z;
  mobile_in_hand_frames : Z;
  working_frames : Z;
  current_fps : Q
}.

(** The mutable instance fields of [CCTVAnalyzer] and its two numeric
    settings ([__init__], lines 15-37). *)
Record CCTVAnalyzer : Type := mkAnalyzer {
  ALERT_DURATION_SECONDS : Z;
  TARGET_FPS : Z;
  off_camera_start_frame : Z;
  mobile_in_hand_start_frame : Z;
  frame_count : Z;
  alert_duration_frames : Z;
  last_person_present : bool;
  last_mobile_in_hand : bool;
  last_laptop_detected : bool;
  stats : Stats
}.

Definition FRAME_SKIP : Z := 5.

Definition init (alert_duration_seconds target_fps : Z) : CCTVAnalyzer :=
  {| ALERT_DURATION_SECONDS := alert_duration_seconds;
     TARGET_FPS := target_fps;
     off_camera_start_frame := -1;
     mobile_in_hand_start_frame := -1;
     frame_count := 0;
     alert_duration_frames := 0;
     last_person_present := false;
     last_mobile_in_hand := false;
     last_laptop_detected := false;
     stats := {| total_video_frames := 0;
                 off_camera_frames := 0;
                 mobile_in_hand_frames := 0;
                 working_frames := 0;
                 current_fps := inject_Z target_fps |} |}.

(** One call of [log_event]: the label, the duration passed to it and the
    index of the frame whose image it was given. *)
Record ActivityEvent : Type := mkEvent {
  label : string;
  duration_seconds : Q;
  at_frame : Z
}.

(** What one iteration of the loop shows: whether the model was called, the
    three locals of lines 119-121, the two overlay texts and the events
    logged. *)
Record FrameOutput : Type := mkOutput {
  ran_detector : bool;
  is_person_present : bool;
  mobile_in_hand_state : bool;
  laptop_keyboard_detected : bool;
  current_activity : string;
  alert_time_str : string;
  events : list ActivityEvent
}.

(** Line 64: [self.stats["total_video_frames"] = ...]. *)
Definition set_total_video_frames (st : Stats) (n : Z) : Stats :=
  mkStats n (off_camera_frames st) (mobile_in_hand_frames st)
          (working_frames st) (current_fps st).

Definition cached (self : CCTVAnalyzer) : Snapshot :=
  {| person_present := last_person_present self;
     mobile_in_hand := last_mobile_in_hand self;
     laptop_or_keyboard_present := last_laptop_detected self |}.

(** Lines 124-135: the mobile debounce.  Returns the new
    [mobile_in_hand_start_frame] and the events logged. *)
Definition mobile_tracker (fps : Q) (fc : Z) (mobile : bool) (start : Z)
  : result (Z * list ActivityEvent) :=
  if mobile && (start =? -1) then
    Ok (fc, [mkEvent "mobile_in_hand_start" 0 fc])
  else if negb mobile && negb (start =? -1) then
    let duration_frames := fc - start in
    d <- py_truediv (inject_Z duration_frames) fps ;;
    Ok (-1, [mkEvent "mobile_in_hand_end" d fc])
  else Ok (start, []).

(** Lines 156-165: the missing alert, on a frame without a person.  Returns
    the new [off_camera_start_frame] and the events logged. *)
Definition missing_alert (fps : Q) (fc threshold start : Z)
  : result (Z * list ActivityEvent) :=
  let start1 := if start =? -1 then fc else start in
  let duration_frames := fc - start1 in
  if duration_frames >=? threshold then
    d <- py_truediv (inject_Z duration_frames) fps ;;
    Ok (-1, [mkEvent "person_missing_alert" d fc])
  else Ok (start1, []).

(** Lines 137-165: the hierarchy.  Returns the new
    [off_camera_start_frame], the counters, the label and the events. *)
Definition activity (fps : Q) (fc threshold : Z) (snap : Snapshot)
    (start : Z) (st : Stats)
  : result (Z * Stats * string * list ActivityEvent) :=
  if person_present snap then
    if mobile_in_hand snap then
      Ok (-1,
          mkStats (total_video_frames st) (off_camera_frames st)
                  (mobile_in_hand_frames st + 1) (working_frames st) (current_fps st),
          "Using Mobile Phone"%string, [])
    else if laptop_or_keyboard_present snap then
      Ok (-1,
          mkStats (total_video_frames st) (off_camera_frames st)
                  (mobile_in_hand_frames st) (working_frames st + 1) (current_fps st),
          "Working on Laptop"%string, [])
    else Ok (-1, st, "Present (Idle/Other)"%string, [])
  else
    let st1 := mkStats (total_video_frames st) (off_camera_frames st + 1)
                       (mobile_in_hand_frames st) (working_frames st) (current_fps st) in
    r <- missing_alert fps fc threshold start ;;
    let '(start', evs) := r in
    Ok (start', st1, "Off-Camera/Missing"%string, evs).

(** Lines 171-178: the on-screen timer.  The quotient is the exact one; its
    whole part is that of the double quotient when rounding cannot reach
    the next integer. *)
Definition timer (fps : Q) (fc : Z) (person : bool) (start : Z) : result string :=
  if person then Ok "00:00"%string
  else
    let duration_frames := fc - start in
    d <- py_truediv (inject_Z duration_frames) fps ;;
    let minutes := py_int (py_floordiv d 60) in
    let seconds := py_int (py_mod d 60) in
    Ok (fmt02 minutes ++ ":" ++ fmt02 seconds)%string.

(** Line 48: [cap.get(cv2.CAP_PROP_FPS) or self.TARGET_FPS]. *)
Definition working_fps (self : CCTVAnalyzer) (cap_fps : Q) : Q :=
  if Qeq_bool cap_fps 0 then inject_Z (TARGET_FPS self) else cap_fps.

(** Lines 51-52: the fps is recorded and the alert threshold in frames is
    computed once, [int(fps * self.ALERT_DURATION_SECONDS)].  The product
    is the exact one, which the double product is whenever it needs no
    rounding. *)
Definition configure (self : CCTVAnalyzer) (fps : Q) : CCTVAnalyzer :=
  {| ALERT_DURATION_SECONDS := ALERT_DURATION_SECONDS self;
     TARGET_FPS := TARGET_FPS self;
     off_camera_start_frame := off_camera_start_frame self;
     mobile_in_hand_start_frame := mobile_in_hand_start_frame self;
     frame_count := frame_count self;
     alert_duration_frames := py_int (fps * inject_Z (ALERT_DURATION_SECONDS self));
     last_person_present := last_person_present self;
     last_mobile_in_hand := last_mobile_in_hand self;
     last_laptop_detected := last_laptop_detected self;
     stats := mkStats (total_video_frames (stats self))
                      (off_camera_frames (stats self))
                      (mobile_in_hand_frames (stats self))
                      (working_frames (stats self)) fps |}.

Section Loop.

(** The frame images and the detector called on them. *)
Context {Frame : Type} (model : Frame -> Results).

(** Lines 67-116: on a sampled frame the model runs and the three
    [last_*] fields are replaced; otherwise they are left as they are.
    The value is what lines 119-121 then read. *)
Definition sampled (self : CCTVAnalyzer) (frame : Frame) : Snapshot :=
  if frame_count self mod FRAME_SKIP =? 0 then classify (model frame)
  else cached self.

(** One iteration of the [while] loop for a frame that was read
    (lines 64-192). [fps] is the local of line 48. *)
Definition loop_body (fps : Q) (self : CCTVAnalyzer) (frame : Frame)
  : result (CCTVAnalyzer * FrameOutput) :=
  let fc := frame_count self in
  let st0 := set_total_video_frames (stats self) (fc + 1) in
  let run := fc mod FRAME_SKIP =? 0 in
  let snap := sampled self frame in
  m <- mobile_tracker fps fc (mobile_in_hand snap) (mobile_in_hand_start_frame self) ;;
  let '(mstart, mevs) := m in
  a <- activity fps fc (alert_duration_frames self) snap
         (off_camera_start_frame self) st0 ;;
  let '(ostart, st1, activity_label, aevs) := a in
  t <- timer fps fc (person_present snap) ostart ;;
  Ok ({| ALERT_DURATION_SECONDS := ALERT_DURATION_SECONDS self;
         TARGET_FPS := TARGET_FPS self;
         off_camera_start_frame := ostart;
         mobile_in_hand_start_frame := mstart;
         frame_count := fc + 1;
         alert_duration_frames := alert_duration_frames self;
         last_person_present := person_present snap;
         last_mobile_in_hand := mobile_in_hand snap;
         last_laptop_detected := laptop_or_keyboard_present snap;
         stats := st1 |},
      {| ran_detector := run;
         is_person_present := person_present snap;
         mobile_in_hand_state := mobile_in_hand snap;
         laptop_keyboard_detected := laptop_or_keyboard_present snap;
         current_activity := activity_label;
         alert_time_str := t;
         events := mevs ++ aevs |}).

(** The [while] loop over the frames read before the stream ends or the
    quit key is seen (the key is tested after [frame_count] is
    advanced, so both ways of leaving it agree). *)
Fixpoint frame_loop (fps : Q) (self : CCTVAnalyzer) (frames : list Frame)
  : result (CCTVAnalyzer * list FrameOutput) :=
  match frames with
  | [] => Ok (self, [])
  | frame :: rest =>
      r <- loop_body fps self frame ;;
      let '(self1, o) := r in
      r' <- frame_loop fps self1 rest ;;
      let '(self2, os) := r' in
      Ok (self2, o :: os)
  end.

(** [analyze_video] on a source that opened, reporting [cap_fps] and
    delivering [frames].  The final object carries the returned
    [stats]. *)
Definition analyze_video (self : CCTVAnalyzer) (cap_fps : Q) (frames : list Frame)
  : result (CCTVAnalyzer * list FrameOutput) :=
  let fps := working_fps self cap_fps in
  frame_loop fps (configure self fps) frames.

End Loop.

(** Selections over a trace of frame outputs. *)
Definition is_label (l : string) (e : ActivityEvent) : bool := String.eqb (label e) l.

Definition all_events (outs : list FrameOutput) : list ActivityEvent :=
  flat_map events outs.

Definition is_alert : ActivityEvent -> bool := is_label "person_missing_alert".

Definition is_mobile_event (e : ActivityEvent) : bool :=
  is_label "mobile_in_hand_start" e || is_label "mobile_in_hand_end" e.

Definition alerts (outs : list FrameOutput) : list ActivityEvent :=
  filter is_alert (all_events outs).

Definition mobile_events (outs : list FrameOutput) : list ActivityEvent :=
  filter is_mobile_event (all_events outs).

(** [n] alerts of [threshold] frames each, the first logged on frame
    [first] and one every [threshold + 1] frames from there. *)
Definition alert_schedule (fps : Q) (threshold first : Z) (n : nat)
  : list ActivityEvent :=
  map (fun k => mkEvent "person_missing_alert" (Qred (inject_Z threshold / fps))
                        (first + Z.of_nat k * (threshold + 1)))
      (seq 0 n).

(** The snapshot a frame's tracking section consumed. *)
Definition consumed (o : FrameOutput) : Snapshot :=
  {| person_present := is_person_present o;
     mobile_in_hand := mobile_in_hand_state o;
     laptop_or_keyboard_present := laptop_keyboard_detected o |}.

(** Frame counts over a trace, by the branch of the hierarchy taken. *)
Definition count (f : FrameOutput -> bool) (outs : list FrameOutput) : Z :=
  Z.of_nat (List.length (filter f outs)).

Definition on_mobile (o : FrameOutput) : bool :=
  is_person_present o && mobile_in_hand_state o.

Definition on_laptop (o : FrameOutput) : bool :=
  is_person_present o && negb (mobile_in_hand_state o) && laptop_keyboard_detected o.

Definition on_idle (o : FrameOutput) : bool :=
  is_person_present o && negb (mobile_in_hand_state o)
  && negb (laptop_keyboard_detected o).

Definition off_camera (o : FrameOutput) : bool := negb (is_person_present o).

End Analyzer.

Import Analyzer.

(* ===================================================================== *)
(** ** The final report                                                   *)
(* ===================================================================== *)

Module Report.

(** utils.py, [frames_to_time_str] (lines 59-65).  The quotient is the
    exact one; its whole part is that of the double quotient when rounding
    cannot reach the next integer. *)
Definition frames_to_time_str (frames : Z) (fps : Q) : result string :=
  if Qeq_bool fps 0 then Ok "00:00:00"%string
  else
    total_seconds <- py_truediv (inject_Z frames) fps ;;
    let hours := py_int (py_floordiv total_seconds 3600) in
    let minutes := py_int (py_floordiv (py_mod total_seconds 3600) 60) in
    let seconds := py_int (py_mod total_seconds 60) in
    Ok (fmt02 hours ++ ":" ++ fmt02 minutes ++ ":" ++ fmt02 seconds)%string.

(** [(n / total_frames * 100) if total_frames > 0 else 0]
    (lines 219, 224, 229). *)
Definition percent (n total_frames : Z) : result Q :=
  if total_frames >? 0 then
    q <- py_truediv (inject_Z n) (inject_Z total_frames) ;;
    Ok (Qred (q * 100))
  else Ok 0%Q.

(** The values [print_final_report] prints, in the order of its lines. *)
Record FinalReport : Type := mkReport {
  total_time_str : string;
  off_camera_time_str : string;
  off_camera_percent : Q;
  mobile_time_str : string;
  mobile_percent : Q;
  working_time_str : string;
  working_percent : Q
}.

Definition print_final_report (st : Stats) : result FinalReport :=
  let fps := current_fps st in
  let total_frames := total_video_frames st in
  tt <- frames_to_time_str total_frames fps ;;
  ot <- frames_to_time_str (off_camera_frames st) fps ;;
  op <- percent (off_camera_frames st) total_frames ;;
  mt <- frames_to_time_str (mobile_in_hand_frames st) fps ;;
  mp <- percent (mobile_in_hand_frames st) total_frames ;;
  wt <- frames_to_time_str (working_frames st) fps ;;
  wp <- percent (working_frames st) total_frames ;;
  Ok (mkReport tt ot op mt mp wt wp).

End Report.

Import Report.

(* ===================================================================== *)
(** ** Concrete inputs                                                    *)
(* ===================================================================== *)

Module Scenarios.

(** Frames are represented by what the detector returns on them. *)
Definition detector (frame : Results) : Results := frame.

Definition person_box : XYXY := (0, 0, 100, 100).
Definition person : Box := mkBox PERSON_CLASS_ID person_box.


(** The same phone one pixel taller: its centre is 20.5. *)
Definition phone_in_hand : Box := mkBox MOBILE_CLASS_ID (40, 10, 60, 31).


Definition laptop : Box := mkBox LAPTOP_CLASS_ID (10, 60, 90, 100).

Definition empty_frame : Results := [[]].
Definition idle_frame : Results := [[person]].
Definition mobile_frame : Results := [[person; phone_in_hand]].
Definition working_frame : Results := [[person; laptop]].

(** fps 30, two seconds of alert threshold, nobody in view. *)
Definition absent (n : nat) : list Results := repeat empty_frame n.

(** fps 10: the phone is in hand on frames 10-39 of 50. *)
Definition mobile_10_39 : list Results :=
  repeat idle_frame 10 ++ repeat mobile_frame 30 ++ repeat idle_frame 10.

(** Two seconds away, back before the 60-frame threshold is reached. *)
Definition short_absence : list Results :=
  repeat idle_frame 5 ++ repeat empty_frame 60 ++ repeat idle_frame 5.

(** fps 10, alert threshold 30 s: the analyzer after four frames showing an
    idle person. *)
Definition after_four_idle_frames : CCTVAnalyzer :=
  {| ALERT_DURATION_SECONDS := 30;
     TARGET_FPS := 10;
     off_camera_start_frame := -1;
     mobile_in_hand_start_frame := -1;
     frame_count := 4;
     alert_duration_frames := 300;
     last_person_present := true;
     last_mobile_in_hand := false;
     last_laptop_detected := false;
     stats := mkStats 4 0 0 0 10 |}.

Definition final (r : result (CCTVAnalyzer * list FrameOutput)) : CCTVAnalyzer :=
  match r with
  | Ok (self, _) => self
  | Raise _ => init 0 0
  end.

Definition outputs (r : result (CCTVAnalyzer * list FrameOutput)) : list FrameOutput :=
  match r with
  | Ok (_, outs) => outs
  | Raise _ => []
  end.

End Scenarios.

Import Scenarios.

(* ===================================================================== *)
(** ** Face blurring                                                      *)
(* ===================================================================== *)

Module Privacy.

(** utils.py, [blur_faces] (lines 23-41).  An image is its rows of pixels
    together with [image.shape[1]]; [image.shape[0]] is the number of rows.
    A face is the [(x, y, w, h)] that [detectMultiScale] returns. *)
Record Image (Pixel : Type) : Type := mkImage {
  width : nat;
  rows : list (list Pixel)
}.
Arguments mkImage {Pixel} width rows.
Arguments width {Pixel} i.
Arguments rows {Pixel} i.

Definition Face : Type := (Z * Z * Z * Z)%type.

Definition padding : Z := 30.

(** A bound of a slice over [n] positions, as Python clips it: a negative
    bound counts from the end, and both ends are clipped to the sequence. *)
Definition slice_index (n : nat) (i : Z) : nat :=
  if i <? 0 then Z.to_nat (Z.max 0 (i + Z.of_nat n)) else Nat.min (Z.to_nat i) n.

(** The positions of [image[y1:y2, x1:x2]]: first row and the row after
    the last, first column and the column after the last. *)
Record Region : Type := mkRegion {
  top : nat;
  bottom : nat;
  left : nat;
  right : nat
}.

(** Lines 31-35. *)
Definition face_region (W H : nat) (face : Face) : Region :=
  let '(x, y, w, h) := face in
  let x1 := Z.max 0 (x - padding) in
  let y1 := Z.max 0 (y - padding) in
  let x2 := Z.min (Z.of_nat W) (x + w + padding) in
  let y2 := Z.min (Z.of_nat H) (y + h + padding) in
  {| top := slice_index H y1; bottom := slice_index H y2;
     left := slice_index W x1; right := slice_index W x2 |}.

Definition covers (g : Region) (r c : nat) : Prop :=
  (top g <= r < bottom g)%nat /\ (left g <= c < right g)%nat.

Section Blur.

Context {Pixel : Type}.

(** Line 37: the pixels of a region (an empty list of rows, or rows that
    are empty, when the region is). *)
Definition crop (g : Region) (rs : list (list Pixel)) : list (list Pixel) :=
  map (fun row => firstn (right g - left g) (skipn (left g) row))
      (firstn (bottom g - top g) (skipn (top g) rs)).

(** Line 39: a patch of the shape of the region written over it. *)
Definition paste_row (g : Region) (row patch_row : list Pixel) : list Pixel :=
  firstn (left g) row ++ patch_row ++ skipn (Nat.max (left g) (right g)) row.

Definition paste (g : Region) (rs patch : list (list Pixel)) : list (list Pixel) :=
  firstn (top g) rs
  ++ map (fun '(row, patch_row) => paste_row g row patch_row)
         (combine (firstn (bottom g - top g) (skipn (top g) rs)) patch)
  ++ skipn (Nat.max (top g) (bottom g)) rs.

Definition pixel (img : Image Pixel) (r c : nat) : option Pixel :=
  match nth_error (rows img) r with
  | Some row => nth_error row c
  | None => None
  end.

Definition rectangular (img : Image Pixel) : Prop :=
  Forall (fun row => List.length row = width img) (rows img).

Definition same_shape (a b : list (list Pixel)) : Prop :=
  Forall2 (fun ra rb => List.length ra = List.length rb) a b.

(** The collaborators: [cv2.GaussianBlur], which may raise, and the face
    detector made of [cvtColor] and [detectMultiScale]; [cascade] says
    whether the classifier file could be loaded. *)
Variable GaussianBlur : list (list Pixel) -> option (list (list Pixel)).
Variable detect : Image Pixel -> list Face.
Variable cascade : bool.

(** Lines 30-39, for one face.  The image is updated in place; the value is
    the image after the update. *)
Definition blur_face (img : Image Pixel) (face : Face) : option (Image Pixel) :=
  let g := face_region (width img) (List.length (rows img)) face in
  match GaussianBlur (crop g (rows img)) with
  | Some blurred_face => Some (mkImage (width img) (paste g (rows img) blurred_face))
  | None => None
  end.

Fixpoint blur_each (img : Image Pixel) (faces : list Face) : option (Image Pixel) :=
  match faces with
  | [] => Some img
  | face :: rest =>
      match blur_face img face with
      | Some img1 => blur_each img1 rest
      | None => None
      end
  end.

Definition blur_faces (img : Image Pixel) : option (Image Pixel) :=
  if negb cascade then Some img else blur_each img (detect img).

End Blur.

End Privacy.

Import Privacy.

(* ===================================================================== *)
(** ** Quantities read off a detection result, a state or a trace         *)
(* ===================================================================== *)

Module Observations.

(** A box reported by the model, in whichever result it comes. *)
Definition has_box (results : Results) (box : Box) : Prop :=
  exists r, In r results /\ In box r.

(** A mobile box of positive width and height lying within a person box. *)
Definition inside (m_box p_box : XYXY) : Prop :=
  let '(px1, py1, px2, py2) := p_box in
  let '(mx1, my1, mx2, my2) := m_box in
  px1 <= mx1 /\ mx1 < mx2 /\ mx2 <= px2 /\ py1 <= my1 /\ my1 < my2 /\ my2 <= py2.

(** A person box without width or without height. *)
Definition degenerate (p_box : XYXY) : Prop :=
  let '(px1, py1, px2, py2) := p_box in px2 <= px1 \/ py2 <= py1.

(** The two trackers as the fields encode them: a start frame other than
    the sentinel -1 means that the tracker is running. *)
Definition mobile_active (self : CCTVAnalyzer) : bool :=
  negb (mobile_in_hand_start_frame self =? -1).

Definition off_camera_waiting (self : CCTVAnalyzer) : bool :=
  negb (off_camera_start_frame self =? -1).

(** The absence accumulated by the off-camera tracker, in frames. *)
Definition elapsed (self : CCTVAnalyzer) : Z :=
  if off_camera_start_frame self =? -1 then 0
  else frame_count self - off_camera_start_frame self.

(** The events of a trace that carry a given label. *)
Definition labelled (l : string) (outs : list FrameOutput) : list ActivityEvent :=
  filter (is_label l) (all_events outs).

Definition count_label (l : string) (outs : list FrameOutput) : Z :=
  Z.of_nat (List.length (labelled l outs)).

Definition flag (b : bool) : Z := if b then 1 else 0.

(** Reading a string of decimal digits back as a number. *)
Definition read_decimal (s : string) : option Z :=
  option_map (fun d => Z.of_N (N.of_uint d)) (NilZero.uint_of_string s).

(** The cached phone flag and the mobile tracker agree, and a running
    tracker started on an earlier frame whose index is a multiple of
    [FRAME_SKIP]. *)
Definition mobile_in_step (self : CCTVAnalyzer) : Prop :=
  0 <= frame_count self
  /\ mobile_active self = last_mobile_in_hand self
  /\ (mobile_active self = true ->
      mobile_in_hand_start_frame self mod FRAME_SKIP = 0
      /\ 0 <= mobile_in_hand_start_frame self < frame_count self).

(** The off-camera tracker is idle, or it started on an earlier frame and
    has not yet accumulated more than the threshold. *)
Definition off_camera_in_step (self : CCTVAnalyzer) : Prop :=
  0 <= frame_count self
  /\ 0 <= alert_duration_frames self
  /\ (off_camera_start_frame self = -1
      \/ (0 <= off_camera_start_frame self < frame_count self
          /\ frame_count self - off_camera_start_frame self <= alert_duration_frames self)).

(** The cached snapshot never shows a phone in hand without a person. *)
Definition cache_coherent (self : CCTVAnalyzer) : Prop :=
  last_mobile_in_hand self = true -> last_person_present self = true.

(** What a frame showing a phone in hand looks like in the trace. *)
Definition phone_frame_is_a_person_frame (o : FrameOutput) : Prop :=
  mobile_in_hand_state o = true ->
  is_person_present o = true
  /\ current_activity o = "Using Mobile Phone"%string
  /\ filter is_alert (events o) = [].

(** The text of the on-screen timer for a duration in seconds
    (lines 176-178). *)
Definition clock (d : Q) : string :=
  (fmt02 (py_int (py_floordiv d 60)) ++ ":" ++ fmt02 (py_int (py_mod d 60)))%string.

(** A mobile event logged on a sampled frame; if it is an end, its duration
    is that of a positive number of sampling periods. *)
Definition on_sampling_grid (fps : Q) (ev : ActivityEvent) : Prop :=
  at_frame ev mod FRAME_SKIP = 0
  /\ (label ev = "mobile_in_hand_end"%string ->
      exists k, 1 <= k
                /\ py_truediv (inject_Z (FRAME_SKIP * k)) fps = Ok (duration_seconds ev)).

(** Box coordinates of a camera frame.  The detector reports pixel
    positions, far below [2 ^ 30] on either axis.  In this range the int64
    results of lines 86-101 do not wrap around, and the double-precision
    centres and the products by 0.20 and 0.6 compare as the exact values
    do. *)
Definition pixel_limit : Z := 2 ^ 30.

Definition in_pixel_range (b : XYXY) : Prop :=
  let '(x1, y1, x2, y2) := b in
  (- pixel_limit <= x1 <= pixel_limit) /\ (- pixel_limit <= y1 <= pixel_limit)
  /\ (- pixel_limit <= x2 <= pixel_limit) /\ (- pixel_limit <= y2 <= pixel_limit).

(** What a numpy int64 result wraps around to. *)
Definition int64 (z : Z) : Z := (z + 2 ^ 63) mod 2 ^ 64 - 2 ^ 63.

(** Lines 100-101 with every int64 result wrapped. *)
Definition intersection_area_int64 (p_box m_box : XYXY) : Z :=
  let '(px1, py1, px2, py2) := p_box in
  let '(mx1, my1, mx2, my2) := m_box in
  int64 (Z.max 0 (int64 (Z.min px2 mx2 - Z.max px1 mx1))
         * Z.max 0 (int64 (Z.min py2 my2 - Z.max py1 my1))).

(** A frame rate of a whole number [k] of frames per second, such as 24, 25,
    30 or 60. *)
Definition whole_fps (fps : Q) (k : Z) : Prop := 0 < k /\ (fps == inject_Z k)%Q.

(** The integers up to [2 ^ 53] are doubles, and a double quotient is
    within the fraction [1 / 2 ^ 53] of the exact one. *)
Definition double_limit : Z := 2 ^ 53.

Definition double_of (x q : Q) : Prop :=
  (Qabs (x - q) * inject_Z double_limit <= Qabs q)%Q
  /\ ((exists z, Z.abs z <= double_limit /\ (q == inject_Z z)%Q) -> (x == q)%Q).

(** The divisions of one iteration of the loop (lines 133, 163 and 175):
    the mobile debounce, the missing alert of a frame without a person and
    the on-screen timer are handed [fps] as the divisor and return; the two
    trackers return the events that the iteration logs. *)
Definition divides_by (fps : Q) (self self' : CCTVAnalyzer) (o : FrameOutput) : Prop :=
  mobile_tracker fps (frame_count self) (mobile_in_hand_state o)
                 (mobile_in_hand_start_frame self)
  = Ok (mobile_in_hand_start_frame self', filter is_mobile_event (events o))
  /\ (is_person_present o = false ->
      missing_alert fps (frame_count self) (alert_duration_frames self)
                    (off_camera_start_frame self)
      = Ok (off_camera_start_frame self', filter is_alert (events o)))
  /\ exists t,
      timer fps (frame_count self) (is_person_present o) (off_camera_start_frame self')
      = Ok t.

(** A logged duration: 0 on a start event, otherwise a number of frames
    over [fps]. *)
Definition duration_over (fps : Q) (ev : ActivityEvent) : Prop :=
  (label ev = "mobile_in_hand_start"%string /\ duration_seconds ev = 0%Q)
  \/ exists duration_frames,
       py_truediv (inject_Z duration_frames) fps = Ok (duration_seconds ev).

End Observations.

Import Observations.

(* ===================================================================== *)
(** ** Numbers                                                            *)
(* ===================================================================== *)

Lemma py_truediv_ok (x y : Q) :
  ~ (y == 0)%Q -> py_truediv x y = Ok (Qred (x / y)).
Proof.
  intros Hy. unfold py_truediv.
  destruct (Qeq_bool y 0) eqn:E; [|reflexivity].
  apply Qeq_bool_iff in E. contradiction.
Qed.

Lemma Qltb_lt (x y : Q) : Qltb x y = true <-> (x < y)%Q.
Proof.
  unfold Qltb. rewrite negb_true_iff. split.
  - intros H. apply Qnot_le_lt. intros Hle.
    apply Qle_bool_iff in Hle. congruence.
  - intros H. destruct (Qle_bool y x) eqn:E; [|reflexivity].
    apply Qle_bool_iff in E. exfalso. exact (Qlt_not_le _ _ H E).
Qed.

(* ===================================================================== *)
(** ** The detection pass                                                 *)
(* ===================================================================== *)

Section ClassifierFacts.

Lemma touches_positive (p m : XYXY) :
  touches p m = true <-> 0 < intersection_area p m.
Proof. unfold touches. apply Z.ltb_lt. Qed.

Lemma intersection_area_nonneg (p m : XYXY) : 0 <= intersection_area p m.
Proof.
  destruct p as [[[px1 py1] px2] py2], m as [[[mx1 my1] mx2] my2].
  unfold intersection_area. apply Z.mul_nonneg_nonneg; lia.
Qed.

Lemma pair_qualifies_iff (p m : XYXY) :
  pair_qualifies p m = true <->
  horizontal_prox p m = true /\ vertical_prox p m = true /\ 0 < intersection_area p m.
Proof.
  unfold pair_qualifies. rewrite !andb_true_iff, touches_positive. tauto.
Qed.

Lemma scan_boxes_iff (p : XYXY) (boxes : list Box) :
  scan_boxes p boxes = true <->
  exists box, In box boxes /\ cls box = MOBILE_CLASS_ID /\ pair_qualifies p (xyxy box) = true.
Proof.
  induction boxes as [|b rest IH]; simpl.
  - split; [discriminate | intros (box & [] & _)].
  - destruct ((cls b =? MOBILE_CLASS_ID) && pair_qualifies p (xyxy b)) eqn:E.
    + apply andb_true_iff in E as [Hc Hq]. apply Z.eqb_eq in Hc.
      split; [intros _; exists b; auto | reflexivity].
    + rewrite IH. split.
      * intros (box & Hin & Hc & Hq). exists box; auto.
      * intros (box & [<- | Hin] & Hc & Hq).
        -- apply Z.eqb_eq in Hc. rewrite Hc, Hq in E. discriminate.
        -- exists box; auto.
Qed.

Lemma scan_results_iff (p : XYXY) (results : Results) :
  scan_results p results = true <->
  exists r box, In r results /\ In box r /\ cls box = MOBILE_CLASS_ID
                /\ pair_qualifies p (xyxy box) = true.
Proof.
  induction results as [|r rest IH]; simpl.
  - split; [discriminate | intros (r & box & [] & _)].
  - destruct (scan_boxes p r) eqn:E.
    + apply scan_boxes_iff in E as (box & Hin & Hc & Hq).
      split; [intros _; exists r, box; auto | reflexivity].
    + rewrite IH. split.
      * intros (r' & box & Hr & Hrest). exists r', box; auto.
      * intros (r' & box & [<- | Hr] & Hin & Hc & Hq).
        -- assert (scan_boxes p r = true) by (apply scan_boxes_iff; exists box; auto).
           congruence.
        -- exists r', box; auto.
Qed.

Lemma scan_persons_iff (persons : list XYXY) (results : Results) :
  scan_persons persons results = true <->
  exists p r box, In p persons /\ In r results /\ In box r
                  /\ cls box = MOBILE_CLASS_ID /\ pair_qualifies p (xyxy box) = true.
Proof.
  induction persons as [|p rest IH]; simpl.
  - split; [discriminate | intros (p & r & box & [] & _)].
  - destruct (scan_results p results) eqn:E.
    + apply scan_results_iff in E as (r & box & Hr & Hin & Hc & Hq).
      split; [intros _; exists p, r, box; auto | reflexivity].
    + rewrite IH. split.
      * intros (p' & r & box & Hp & Hrest). exists p', r, box; auto.
      * intros (p' & r & box & [<- | Hp] & Hr & Hin & Hc & Hq).
        -- assert (scan_results p results = true)
             by (apply scan_results_iff; exists r, box; auto).
           congruence.
        -- exists p', r, box; auto.
Qed.

(** The three nested loops compute an existential over (person, mobile)
    pairs. *)
Lemma mobile_in_hand_current_iff (results : Results) :
  mobile_in_hand_current results = true <->
  exists p r box, In p (collect_person_boxes results) /\ In r results /\ In box r
                  /\ cls box = MOBILE_CLASS_ID /\ pair_qualifies p (xyxy box) = true.
Proof. apply scan_persons_iff. Qed.

Lemma mobile_needs_person (results : Results) :
  mobile_in_hand (classify results) = true -> person_present (classify results) = true.
Proof.
  simpl. unfold mobile_in_hand_current.
  destruct (collect_person_boxes results); [discriminate | reflexivity].
Qed.

End ClassifierFacts.






(* ===================================================================== *)
(** ** One iteration of the frame loop                                    *)
(* ===================================================================== *)

Section StepFacts.

Context {Frame : Type} (model : Frame -> Results).

Lemma loop_body_inv fps self frame self' o :
  loop_body model fps self frame = Ok (self', o) ->
  exists mevs aevs,
    mobile_tracker fps (frame_count self) (mobile_in_hand (sampled model self frame))
                   (mobile_in_hand_start_frame self)
    = Ok (mobile_in_hand_start_frame self', mevs)
    /\ activity fps (frame_count self) (alert_duration_frames self) (sampled model self frame)
                (off_camera_start_frame self)
                (set_total_video_frames (stats self) (frame_count self + 1))
       = Ok (off_camera_start_frame self', stats self', current_activity o, aevs)
    /\ events o = mevs ++ aevs
    /\ frame_count self' = frame_count self + 1
    /\ alert_duration_frames self' = alert_duration_frames self
    /\ cached self' = sampled model self frame
    /\ consumed o = sampled model self frame
    /\ ran_detector o = (frame_count self mod FRAME_SKIP =? 0).
Proof.
  unfold loop_body.
  destruct (mobile_tracker _ _ _ _) as [[mstart mevs]|] eqn:Em; simpl; [|discriminate].
  destruct (activity _ _ _ _ _ _) as [[[[ostart st1] lbl] aevs]|] eqn:Ea; simpl;
    [|discriminate].
  destruct (timer _ _ _ _) as [t|] eqn:Et; simpl; [|discriminate].
  intros H. inversion H; subst; clear H. simpl.
  exists mevs, aevs. unfold cached, consumed. simpl.
  destruct (sampled model self frame). repeat split; reflexivity.
Qed.

Lemma mobile_tracker_total fps fc mobile start :
  ~ (fps == 0)%Q -> exists r, mobile_tracker fps fc mobile start = Ok r.
Proof.
  intros Hfps. unfold mobile_tracker.
  destruct (mobile && (start =? -1)); [eauto|].
  destruct (negb mobile && negb (start =? -1)); [|eauto].
  rewrite py_truediv_ok by assumption. simpl. eauto.
Qed.

Lemma missing_alert_total fps fc threshold start :
  ~ (fps == 0)%Q -> exists r, missing_alert fps fc threshold start = Ok r.
Proof.
  intros Hfps. unfold missing_alert.
  destruct (_ >=? _); [|eauto].
  rewrite py_truediv_ok by assumption. simpl. eauto.
Qed.

Lemma activity_total fps fc threshold snap start st :
  ~ (fps == 0)%Q -> exists r, activity fps fc threshold snap start st = Ok r.
Proof.
  intros Hfps. unfold activity.
  destruct (person_present snap).
  - destruct (mobile_in_hand snap); [eauto|].
    destruct (laptop_or_keyboard_present snap); eauto.
  - destruct (missing_alert_total fps fc threshold start Hfps) as [[s evs] ->].
    simpl. eauto.
Qed.

Lemma timer_total fps fc person start :
  ~ (fps == 0)%Q -> exists t, timer fps fc person start = Ok t.
Proof.
  intros Hfps. unfold timer. destruct person; [eauto|].
  rewrite py_truediv_ok by assumption. simpl. eauto.
Qed.

Lemma loop_body_total fps self frame :
  ~ (fps == 0)%Q -> exists self' o, loop_body model fps self frame = Ok (self', o).
Proof.
  intros Hfps. unfold loop_body.
  destruct (mobile_tracker_total fps (frame_count self)
              (mobile_in_hand (sampled model self frame))
              (mobile_in_hand_start_frame self) Hfps) as [[mstart mevs] Em].
  rewrite Em. simpl.
  destruct (activity_total fps (frame_count self) (alert_duration_frames self)
              (sampled model self frame) (off_camera_start_frame self)
              (set_total_video_frames (stats self) (frame_count self + 1)) Hfps)
    as [[[[ostart st1] lbl] aevs] Ea].
  rewrite Ea. simpl.
  destruct (timer_total fps (frame_count self)
              (person_present (sampled model self frame)) ostart Hfps) as [t Et].
  rewrite Et. simpl. eauto.
Qed.

End StepFacts.

(* ===================================================================== *)
(** ** The two trackers                                                   *)
(* ===================================================================== *)

Section TrackerFacts.

Variable fps : Q.

Lemma mobile_tracker_labels fc mobile start s evs :
  mobile_tracker fps fc mobile start = Ok (s, evs) ->
  filter is_alert evs = [] /\ filter is_mobile_event evs = evs.
Proof.
  unfold mobile_tracker.
  destruct (mobile && (start =? -1)).
  - intros H; inversion H; subst. split; reflexivity.
  - destruct (negb mobile && negb (start =? -1)).
    + destruct (py_truediv _ _) as [d|]; simpl; [|discriminate].
      intros H; inversion H; subst. split; reflexivity.
    + intros H; inversion H; subst. split; reflexivity.
Qed.

(** A frame on which the phone is not in hand leaves the tracker idle. *)
Lemma mobile_tracker_false fc start s evs :
  mobile_tracker fps fc false start = Ok (s, evs) -> s = -1.
Proof.
  unfold mobile_tracker. simpl.
  destruct (start =? -1) eqn:E; simpl.
  - intros H; inversion H; subst. apply Z.eqb_eq in E. exact E.
  - destruct (py_truediv _ _) as [d|]; simpl; [|discriminate].
    intros H; inversion H; subst. reflexivity.
Qed.

Lemma mobile_tracker_onset fc :
  mobile_tracker fps fc true (-1) = Ok (fc, [mkEvent "mobile_in_hand_start" 0 fc]).
Proof. reflexivity. Qed.

Lemma mobile_tracker_persists fc start :
  start <> -1 -> mobile_tracker fps fc true start = Ok (start, []).
Proof.
  intros Hs. unfold mobile_tracker. simpl.
  apply Z.eqb_neq in Hs. rewrite Hs. reflexivity.
Qed.

Lemma mobile_tracker_offset fc start :
  ~ (fps == 0)%Q -> start <> -1 ->
  mobile_tracker fps fc false start
  = Ok (-1, [mkEvent "mobile_in_hand_end" (Qred (inject_Z (fc - start) / fps)) fc]).
Proof.
  intros Hfps Hs. unfold mobile_tracker. simpl.
  apply Z.eqb_neq in Hs. rewrite Hs. simpl.
  rewrite py_truediv_ok by assumption. reflexivity.
Qed.

Lemma missing_alert_labels fc threshold start s evs :
  missing_alert fps fc threshold start = Ok (s, evs) ->
  filter is_mobile_event evs = [] /\ filter is_alert evs = evs.
Proof.
  unfold missing_alert. destruct (_ >=? _).
  - destruct (py_truediv _ _) as [d|]; simpl; [|discriminate].
    intros H; inversion H; subst. split; reflexivity.
  - intros H; inversion H; subst. split; reflexivity.
Qed.

(** The alert in terms of the absence accumulated so far: [e] is 0 when
    the tracker is idle and [fc - start] otherwise. *)
Lemma missing_alert_elapsed fc threshold start e s evs :
  (start = -1 /\ e = 0) \/ (0 <= start /\ e = fc - start) ->
  missing_alert fps fc threshold start = Ok (s, evs) ->
  (threshold <= e ->
     s = -1 /\ exists d, py_truediv (inject_Z e) fps = Ok d
                         /\ evs = [mkEvent "person_missing_alert" d fc])
  /\ (e < threshold -> s = fc - e /\ evs = []).
Proof.
  intros He. unfold missing_alert.
  assert (Hd : fc - (if start =? -1 then fc else start) = e).
  { destruct He as [[-> ->] | [Hs ->]].
    - simpl. lia.
    - destruct (start =? -1) eqn:E; [apply Z.eqb_eq in E; lia | reflexivity]. }
  assert (Hs1 : (if start =? -1 then fc else start) = fc - e) by lia.
  rewrite Hd, Hs1.
  destruct (e >=? threshold) eqn:E.
  - apply Z.geb_le in E.
    destruct (py_truediv _ _) as [d|]; simpl; [|discriminate].
    intros H; inversion H; subst. split; [|lia].
    intros _. split; [reflexivity|]. exists d. split; reflexivity.
  - assert (e < threshold).
    { destruct (Z_lt_ge_dec e threshold) as [Hlt|Hge]; [exact Hlt|].
      apply Z.ge_le in Hge. apply Z.geb_le in Hge. congruence. }
    intros H'; inversion H'; subst. split; [lia|]. intros _. split; reflexivity.
Qed.

Lemma activity_labels fc threshold snap start st s st' lbl evs :
  activity fps fc threshold snap start st = Ok (s, st', lbl, evs) ->
  filter is_mobile_event evs = [] /\ filter is_alert evs = evs.
Proof.
  unfold activity. destruct (person_present snap).
  - destruct (mobile_in_hand snap); [|destruct (laptop_or_keyboard_present snap)];
      intros H; inversion H; subst; split; reflexivity.
  - destruct (missing_alert _ _ _ _) as [[s1 e1]|] eqn:E; simpl; [|discriminate].
    intros H; inversion H; subst. eapply missing_alert_labels. exact E.
Qed.

Lemma activity_present fc threshold snap start st s st' lbl evs :
  person_present snap = true ->
  activity fps fc threshold snap start st = Ok (s, st', lbl, evs) ->
  s = -1 /\ evs = [] /\ off_camera_frames st' = off_camera_frames st.
Proof.
  unfold activity. intros ->.
  destruct (mobile_in_hand snap); [|destruct (laptop_or_keyboard_present snap)];
    intros H; inversion H; subst; repeat split; reflexivity.
Qed.

Lemma activity_absent fc threshold snap start st s st' lbl evs :
  person_present snap = false ->
  activity fps fc threshold snap start st = Ok (s, st', lbl, evs) ->
  missing_alert fps fc threshold start = Ok (s, evs)
  /\ lbl = "Off-Camera/Missing"%string
  /\ off_camera_frames st' = off_camera_frames st + 1
  /\ mobile_in_hand_frames st' = mobile_in_hand_frames st
  /\ working_frames st' = working_frames st
  /\ total_video_frames st' = total_video_frames st.
Proof.
  unfold activity. intros ->.
  destruct (missing_alert _ _ _ _) as [[s1 e1]|] eqn:E; simpl; [|discriminate].
  intros H; inversion H; subst. repeat split; reflexivity.
Qed.

End TrackerFacts.

(* ===================================================================== *)
(** ** Runs of the frame loop                                             *)
(* ===================================================================== *)

Section RunFacts.

Context {Frame : Type} (model : Frame -> Results).

Lemma frame_loop_cons_inv fps self frame rest self' outs :
  frame_loop model fps self (frame :: rest) = Ok (self', outs) ->
  exists self1 o outs',
    loop_body model fps self frame = Ok (self1, o)
    /\ frame_loop model fps self1 rest = Ok (self', outs')
    /\ outs = o :: outs'.
Proof.
  simpl. destruct (loop_body _ _ _ _) as [[self1 o]|]; simpl; [|discriminate].
  destruct (frame_loop _ _ _ _) as [[self2 os]|] eqn:El; simpl; [|discriminate].
  intros H; inversion H; subst. exists self1, o, os. auto.
Qed.

Lemma frame_loop_app fps frames1 : forall self frames2 self1 outs1 self2 outs2,
  frame_loop model fps self frames1 = Ok (self1, outs1) ->
  frame_loop model fps self1 frames2 = Ok (self2, outs2) ->
  frame_loop model fps self (frames1 ++ frames2) = Ok (self2, outs1 ++ outs2).
Proof.
  induction frames1 as [|f fs IH]; intros self frames2 self1 outs1 self2 outs2 H1 H2.
  - simpl in H1. inversion H1; subst. exact H2.
  - apply frame_loop_cons_inv in H1 as (s & o & os & Hb & Hl & ->).
    simpl. rewrite Hb. simpl.
    rewrite (IH _ _ _ _ _ _ Hl H2). reflexivity.
Qed.

Lemma frame_loop_app_inv fps frames1 : forall self frames2 self2 outs,
  frame_loop model fps self (frames1 ++ frames2) = Ok (self2, outs) ->
  exists self1 outs1 outs2,
    frame_loop model fps self frames1 = Ok (self1, outs1)
    /\ frame_loop model fps self1 frames2 = Ok (self2, outs2)
    /\ outs = outs1 ++ outs2.
Proof.
  induction frames1 as [|f fs IH]; intros self frames2 self2 outs H.
  - exists self, [], outs. simpl. auto.
  - simpl app in H.
    apply frame_loop_cons_inv in H as (s & o & os & Hb & Hl & ->).
    apply IH in Hl as (s1 & o1 & o2 & H1 & H2 & ->).
    exists s1, (o :: o1), o2. simpl. rewrite Hb. simpl. rewrite H1. simpl. auto.
Qed.

Lemma frame_loop_total fps frames : forall self,
  ~ (fps == 0)%Q -> exists self' outs, frame_loop model fps self frames = Ok (self', outs).
Proof.
  induction frames as [|f fs IH]; intros self Hfps; simpl.
  - eauto.
  - destruct (loop_body_total model fps self f Hfps) as (s1 & o & ->). simpl.
    destruct (IH s1 Hfps) as (s2 & os & ->). simpl. eauto.
Qed.

Lemma frame_loop_shape fps frames : forall self self' outs,
  frame_loop model fps self frames = Ok (self', outs) ->
  List.length outs = List.length frames
  /\ frame_count self' = frame_count self + Z.of_nat (List.length frames)
  /\ alert_duration_frames self' = alert_duration_frames self.
Proof.
  induction frames as [|f fs IH]; intros self self' outs H.
  - simpl in H. inversion H; subst. simpl. repeat split; lia.
  - apply frame_loop_cons_inv in H as (s & o & os & Hb & Hl & ->).
    apply loop_body_inv in Hb as (mevs & aevs & _ & _ & _ & Hfc & Hth & _).
    apply IH in Hl as (Hlen & Hfc' & Hth').
    simpl List.length. repeat split; [lia | lia | congruence].
Qed.

Lemma alerts_cons o outs :
  alerts (o :: outs) = filter is_alert (events o) ++ alerts outs.
Proof. unfold alerts, all_events. simpl. apply filter_app. Qed.

Lemma alerts_app outs1 outs2 : alerts (outs1 ++ outs2) = alerts outs1 ++ alerts outs2.
Proof. unfold alerts, all_events. rewrite flat_map_app. apply filter_app. Qed.

Lemma mobile_events_cons o outs :
  mobile_events (o :: outs) = filter is_mobile_event (events o) ++ mobile_events outs.
Proof. unfold mobile_events, all_events. simpl. apply filter_app. Qed.

Lemma mobile_events_app outs1 outs2 :
  mobile_events (outs1 ++ outs2) = mobile_events outs1 ++ mobile_events outs2.
Proof. unfold mobile_events, all_events. rewrite flat_map_app. apply filter_app. Qed.

End RunFacts.

(* ===================================================================== *)
(** ** The off-camera tracker over an absence                             *)
(* ===================================================================== *)

Section Absence.

Context {Frame : Type} (model : Frame -> Results).

Lemma alert_schedule_S fps threshold first n :
  alert_schedule fps threshold first (S n)
  = mkEvent "person_missing_alert" (Qred (inject_Z threshold / fps)) first
    :: alert_schedule fps threshold (first + (threshold + 1)) n.
Proof.
  unfold alert_schedule. cbn [seq]. rewrite <- seq_shift. cbn [map].
  rewrite map_map. f_equal.
  - f_equal. lia.
  - apply map_ext. intros k. f_equal. lia.
Qed.

Lemma absent_step fps self frame self' o :
  loop_body model fps self frame = Ok (self', o) ->
  is_person_present o = false ->
  exists evs,
    missing_alert fps (frame_count self) (alert_duration_frames self)
                  (off_camera_start_frame self)
    = Ok (off_camera_start_frame self', evs)
    /\ filter is_alert (events o) = evs
    /\ off_camera_frames (stats self') = off_camera_frames (stats self) + 1.
Proof.
  intros Hb Habs.
  apply loop_body_inv in Hb as (mevs & aevs & Hm & Ha & Hev & _ & _ & _ & Hc & _).
  assert (Hp : person_present (sampled model self frame) = false)
    by (rewrite <- Hc; exact Habs).
  apply mobile_tracker_labels in Hm as [Hm _].
  destruct (activity_absent _ _ _ _ _ _ _ _ _ _ Hp Ha) as (Hma & _ & Hoff & _).
  apply activity_labels in Ha as [_ Ha].
  exists aevs. rewrite Hev, filter_app, Hm, Ha. simpl. auto.
Qed.

(** [e] frames of absence are already accumulated when the run starts. *)
Lemma alerts_of_absence fps frames : forall self self' outs e,
  ~ (fps == 0)%Q ->
  0 <= frame_count self ->
  0 <= e <= alert_duration_frames self ->
  (off_camera_start_frame self = -1 /\ e = 0)
  \/ (0 <= off_camera_start_frame self
      /\ e = frame_count self - off_camera_start_frame self) ->
  frame_loop model fps self frames = Ok (self', outs) ->
  Forall (fun o => is_person_present o = false) outs ->
  alerts outs
  = alert_schedule fps (alert_duration_frames self)
      (frame_count self + (alert_duration_frames self - e))
      (Z.to_nat ((e + Z.of_nat (List.length frames)) / (alert_duration_frames self + 1)))
  /\ off_camera_frames (stats self')
     = off_camera_frames (stats self) + Z.of_nat (List.length frames).
Proof.
  induction frames as [|f fs IH]; intros self self' outs e Hfps Hfc He Hst Hrun Habs.
  - simpl in Hrun. inversion Hrun; subst. simpl List.length.
    rewrite Z.add_0_r, Z.div_small by lia. split; [reflexivity | simpl; lia].
  - apply frame_loop_cons_inv in Hrun as (s1 & o & os & Hb & Hl & ->).
    inversion Habs as [|? ? Ho Hos]; subst.
    destruct (absent_step _ _ _ _ _ Hb Ho) as (evs & Hma & Hev & Hoff).
    pose proof (loop_body_inv _ _ _ _ _ _ Hb)
      as (_ & _ & _ & _ & _ & Hfc1 & Hth1 & _).
    destruct (missing_alert_elapsed _ _ _ _ e _ _ Hst Hma) as [Hfire Hwait].
    rewrite alerts_cons, Hev.
    set (T := alert_duration_frames self) in *.
    replace (Z.of_nat (List.length (f :: fs)))
      with (Z.of_nat (List.length fs) + 1) by (simpl List.length; lia).
    destruct (Z_lt_ge_dec e T) as [Hlt | Hge].
    + destruct (Hwait Hlt) as [Hs ->].
      destruct (IH s1 self' os (e + 1) Hfps ltac:(lia) ltac:(lia)
                  ltac:(right; lia) Hl Hos) as [IHa IHo].
      rewrite IHa, IHo, Hth1, Hfc1, Hoff. fold T. simpl app. split; [|lia].
      f_equal; [lia|]. f_equal. f_equal. lia.
    + assert (e = T) by lia. subst e.
      destruct Hfire as (Hs & d & Hd & ->); [lia|].
      rewrite py_truediv_ok in Hd by assumption. inversion Hd; subst d.
      destruct (IH s1 self' os 0 Hfps ltac:(lia) ltac:(lia)
                  ltac:(left; lia) Hl Hos) as [IHa IHo].
      rewrite IHa, IHo, Hth1, Hfc1, Hoff. fold T. split; [|lia].
      replace (T + (Z.of_nat (List.length fs) + 1))
        with (1 * (T + 1) + Z.of_nat (List.length fs)) by lia.
      rewrite Z.div_add_l by lia.
      rewrite Z.add_0_l.
      assert (Hq : 0 <= Z.of_nat (List.length fs) / (T + 1))
        by (apply Z.div_pos; lia).
      rewrite Z2Nat.inj_add by lia.
      change (Z.to_nat 1) with 1%nat. simpl Nat.add.
      rewrite alert_schedule_S. simpl app.
      f_equal; [f_equal; lia|]. f_equal. lia.
Qed.

End Absence.

Lemma forallb_Forall_false {A : Type} (f : A -> bool) (l : list A) :
  forallb (fun x => negb (f x)) l = true -> Forall (fun x => f x = false) l.
Proof.
  intros H. apply Forall_forall. intros x Hin.
  apply negb_true_iff. revert x Hin. apply forallb_forall. exact H.
Qed.

Lemma forallb_Forall_true {A : Type} (f : A -> bool) (l : list A) :
  forallb f l = true -> Forall (fun x => f x = true) l.
Proof.
  intros H. apply Forall_forall. apply forallb_forall. exact H.
Qed.

(** C1, as the code has it: while the person stays absent, starting
    with the off-camera tracker idle on frame [c], an alert is logged when the
    accumulated absence reaches the threshold [T], that is on frame [c + T],
    and the tracker then re-arms on the following frame: alerts recur every
    [T + 1] frames, on frames [c + T + k * (T + 1)].  Over [N] absent frames
    exactly [N / (T + 1)] alerts are logged, each with a duration of [T]
    frames ([T / fps] seconds), and [off_camera_frames] grows by [N]. *)
Theorem C1_alert_recurs_every_threshold_plus_one :
  forall (Frame : Type) (model : Frame -> Results) (fps : Q)
         (self : CCTVAnalyzer) (frames : list Frame),
    ~ (fps == 0)%Q ->
    0 <= frame_count self ->
    0 <= alert_duration_frames self ->
    off_camera_start_frame self = -1 ->
    exists self' outs,
      frame_loop model fps self frames = Ok (self', outs)
      /\ (Forall (fun o => is_person_present o = false) outs ->
          alerts outs
          = alert_schedule fps (alert_duration_frames self)
              (frame_count self + alert_duration_frames self)
              (Z.to_nat (Z.of_nat (List.length frames) / (alert_duration_frames self + 1)))
          /\ off_camera_frames (stats self')
             = off_camera_frames (stats self) + Z.of_nat (List.length frames)).
Proof.
  intros Frame model fps self frames Hfps Hfc HT Hidle.
  destruct (frame_loop_total model fps frames self Hfps) as (self' & outs & Hrun).
  exists self', outs. split; [exact Hrun|]. intros Habs.
  destruct (alerts_of_absence model fps frames self self' outs 0 Hfps Hfc
              ltac:(lia) ltac:(left; auto) Hrun Habs) as [Ha Ho].
  rewrite Z.sub_0_r, Z.add_0_l in Ha. auto.
Qed.

(** The scenario of the specification, fps 30 and a threshold of two seconds
    with nobody in view for 150 frames, obtained from the theorem: the two
    alerts are logged on frames 60 and 121, each of 2 seconds. *)
Lemma C1_alert_recurs_witness :
  alerts (outputs (analyze_video detector (init 2 30) 30 (absent 150)))
  = [mkEvent "person_missing_alert" 2 60; mkEvent "person_missing_alert" 2 121]
  /\ off_camera_frames (stats (final (analyze_video detector (init 2 30) 30 (absent 150))))
     = 150.
Proof.
  unfold analyze_video.
  set (fps := working_fps (init 2 30) 30).
  set (self := configure (init 2 30) fps).
  destruct (C1_alert_recurs_every_threshold_plus_one
              Results detector fps self (absent 150)) as (self' & outs & Hrun & Hc).
  - vm_compute. discriminate.
  - vm_compute. discriminate.
  - vm_compute. discriminate.
  - reflexivity.
  - assert (Hout : outs = outputs (frame_loop detector fps self (absent 150)))
      by (rewrite Hrun; reflexivity).
    rewrite Hrun. simpl outputs. simpl final.
    destruct Hc as [Ha Ho].
    + rewrite Hout. apply forallb_Forall_false. vm_compute. reflexivity.
    + rewrite Ha, Ho. split; vm_compute; reflexivity.
Defined.

(** C1, the statement of the specification fails.  In its own scenario the alerts are
    logged on frames 60 and 121, not 59 and 119; and 120 absent frames,
    twice the threshold of 60, log one alert, not two. *)
Lemma C1_counterexample :
  map at_frame (alerts (outputs (analyze_video detector (init 2 30) 30 (absent 150))))
  = [60; 121]
  /\ map at_frame (alerts (outputs (analyze_video detector (init 2 30) 30 (absent 150))))
     <> [59; 119]
  /\ alert_duration_frames (final (analyze_video detector (init 2 30) 30 (absent 120))) = 60
  /\ forallb off_camera (outputs (analyze_video detector (init 2 30) 30 (absent 120))) = true
  /\ List.length (alerts (outputs (analyze_video detector (init 2 30) 30 (absent 120))))
     <> 2%nat.
Proof.
  repeat split; try (vm_compute; reflexivity); vm_compute; discriminate.
Qed.

(* ===================================================================== *)
(** ** The mobile tracker over a run                                      *)
(* ===================================================================== *)

Section MobileRuns.

Context {Frame : Type} (model : Frame -> Results).

Lemma mobile_step fps self frame self' o :
  loop_body model fps self frame = Ok (self', o) ->
  mobile_tracker fps (frame_count self) (mobile_in_hand_state o)
                 (mobile_in_hand_start_frame self)
  = Ok (mobile_in_hand_start_frame self', filter is_mobile_event (events o))
  /\ frame_count self' = frame_count self + 1.
Proof.
  intros Hb.
  apply loop_body_inv in Hb as (mevs & aevs & Hm & Ha & Hev & Hfc & _ & _ & Hc & _).
  assert (Hmob : mobile_in_hand (sampled model self frame) = mobile_in_hand_state o)
    by (rewrite <- Hc; reflexivity).
  rewrite Hmob in Hm.
  apply activity_labels in Ha as [Ha _].
  pose proof (mobile_tracker_labels _ _ _ _ _ _ Hm) as [_ Hmm].
  rewrite Hev, filter_app, Ha, Hmm, app_nil_r. auto.
Qed.

Lemma present_step fps self frame self' o :
  loop_body model fps self frame = Ok (self', o) ->
  is_person_present o = true ->
  off_camera_start_frame self' = -1 /\ filter is_alert (events o) = [].
Proof.
  intros Hb Hp.
  apply loop_body_inv in Hb as (mevs & aevs & Hm & Ha & Hev & _ & _ & _ & Hc & _).
  assert (Hp' : person_present (sampled model self frame) = true)
    by (rewrite <- Hc; exact Hp).
  apply mobile_tracker_labels in Hm as [Hm _].
  destruct (activity_present _ _ _ _ _ _ _ _ _ _ Hp' Ha) as (Hs & -> & _).
  rewrite Hev, filter_app, Hm. auto.
Qed.

(** While the phone stays in hand an active tracker logs nothing. *)
Lemma mobile_active_run fps frames : forall self self' outs,
  mobile_in_hand_start_frame self <> -1 ->
  frame_loop model fps self frames = Ok (self', outs) ->
  Forall (fun o => mobile_in_hand_state o = true) outs ->
  mobile_events outs = []
  /\ mobile_in_hand_start_frame self' = mobile_in_hand_start_frame self.
Proof.
  induction frames as [|f fs IH]; intros self self' outs Hs Hrun Hall.
  - simpl in Hrun. inversion Hrun; subst. auto.
  - apply frame_loop_cons_inv in Hrun as (s1 & o & os & Hb & Hl & ->).
    inversion Hall as [|? ? Ho Hos]; subst.
    apply mobile_step in Hb as [Hm _]. rewrite Ho in Hm.
    rewrite mobile_tracker_persists in Hm by assumption.
    inversion Hm as [[Hs1 Hev]].
    destruct (IH s1 self' os ltac:(congruence) Hl Hos) as [IHe IHs].
    rewrite mobile_events_cons, <- Hev, IHe. split; [reflexivity | congruence].
Qed.

(** While the phone stays out of hand an idle tracker logs nothing. *)
Lemma mobile_idle_run fps frames : forall self self' outs,
  mobile_in_hand_start_frame self = -1 ->
  frame_loop model fps self frames = Ok (self', outs) ->
  Forall (fun o => mobile_in_hand_state o = false) outs ->
  mobile_events outs = [] /\ mobile_in_hand_start_frame self' = -1.
Proof.
  induction frames as [|f fs IH]; intros self self' outs Hs Hrun Hall.
  - simpl in Hrun. inversion Hrun; subst. auto.
  - apply frame_loop_cons_inv in Hrun as (s1 & o & os & Hb & Hl & ->).
    inversion Hall as [|? ? Ho Hos]; subst.
    apply mobile_step in Hb as [Hm _]. rewrite Ho, Hs in Hm.
    inversion Hm as [[Hs1 Hev]].
    destruct (IH s1 self' os ltac:(congruence) Hl Hos) as [IHe IHs].
    rewrite mobile_events_cons, <- Hev, IHe. split; [reflexivity | congruence].
Qed.

(** Every logged event comes from one of the two trackers. *)
Lemma frame_loop_event_kinds fps frames : forall self self' outs,
  frame_loop model fps self frames = Ok (self', outs) ->
  Forall (fun ev => is_mobile_event ev = true \/ is_alert ev = true) (all_events outs).
Proof.
  induction frames as [|f fs IH]; intros self self' outs Hrun.
  - simpl in Hrun. inversion Hrun; subst. constructor.
  - apply frame_loop_cons_inv in Hrun as (s1 & o & os & Hb & Hl & ->).
    unfold all_events. simpl. apply Forall_app. split; [|exact (IH _ _ _ Hl)].
    apply loop_body_inv in Hb as (mevs & aevs & Hm & Ha & -> & _).
    apply mobile_tracker_labels in Hm as [_ Hm].
    apply activity_labels in Ha as [_ Ha].
    apply Forall_app. split; apply Forall_forall; intros ev Hin.
    + left. rewrite <- Hm in Hin. apply filter_In in Hin. tauto.
    + right. rewrite <- Ha in Hin. apply filter_In in Hin. tauto.
Qed.

Lemma filter_nil_Forall {A : Type} (f : A -> bool) (l : list A) :
  filter f l = [] -> Forall (fun x => f x = false) l.
Proof.
  intros H. apply Forall_forall. intros x Hin.
  destruct (f x) eqn:E; [|reflexivity].
  assert (In x (filter f l)) by (apply filter_In; auto).
  rewrite H in *. contradiction.
Qed.

(** While the person stays in view no alert is logged. *)
Lemma present_run fps frames : forall self self' outs,
  frame_loop model fps self frames = Ok (self', outs) ->
  Forall (fun o => is_person_present o = true) outs ->
  alerts outs = [].
Proof.
  induction frames as [|f fs IH]; intros self self' outs Hrun Hall.
  - simpl in Hrun. inversion Hrun; subst. reflexivity.
  - apply frame_loop_cons_inv in Hrun as (s1 & o & os & Hb & Hl & ->).
    inversion Hall as [|? ? Ho Hos]; subst.
    destruct (present_step _ _ _ _ _ Hb Ho) as [_ Hal].
    rewrite alerts_cons, Hal, (IH _ _ _ Hl Hos). reflexivity.
Qed.

(** A run that logs neither a mobile event nor an alert logs nothing. *)
Lemma nothing_logged fps frames self self' outs :
  frame_loop model fps self frames = Ok (self', outs) ->
  mobile_events outs = [] ->
  alerts outs = [] ->
  all_events outs = [].
Proof.
  intros Hrun Hm Ha.
  pose proof (frame_loop_event_kinds fps _ _ _ _ Hrun) as Hkinds.
  pose proof (filter_nil_Forall is_mobile_event _ Hm) as Hnm.
  pose proof (filter_nil_Forall is_alert _ Ha) as Hna.
  destruct (all_events outs) as [|ev evs]; [reflexivity|].
  inversion Hkinds; subst. inversion Hnm; subst. inversion Hna; subst.
  intuition congruence.
Qed.

End MobileRuns.

(** C2: the phone is out of hand on one frame, in hand on the next [K]
    frames and out of hand again on the frame after them.  The first in-hand
    frame logs one [mobile_in_hand_start] of duration 0, the in-hand frames
    after it log no mobile event (no event at all while the person is in
    view, as is the case whenever the classifier sees a phone in hand), and
    the frame on which the phone is out of hand again logs one
    [mobile_in_hand_end] whose duration is [K / fps]. *)
Theorem C2_one_start_and_one_end :
  forall (Frame : Type) (model : Frame -> Results) (fps : Q) (self : CCTVAnalyzer)
         (before first : Frame) (rest : list Frame) (after : Frame),
    ~ (fps == 0)%Q ->
    0 <= frame_count self ->
    (exists r, frame_loop model fps self (before :: first :: rest ++ [after]) = Ok r)
    /\ forall self' o0 o_first outs o_last,
        frame_loop model fps self (before :: first :: rest ++ [after])
        = Ok (self', o0 :: o_first :: outs ++ [o_last]) ->
        mobile_in_hand_state o0 = false ->
        mobile_in_hand_state o_first = true ->
        Forall (fun o => mobile_in_hand_state o = true) outs ->
        mobile_in_hand_state o_last = false ->
        let K := 1 + Z.of_nat (List.length rest) in
        let started := mkEvent "mobile_in_hand_start" 0 (frame_count self + 1) in
        let ended := mkEvent "mobile_in_hand_end" (Qred (inject_Z K / fps))
                             (frame_count self + 1 + K) in
        filter is_mobile_event (events o_first) = [started]
        /\ mobile_events outs = []
        /\ filter is_mobile_event (events o_last) = [ended]
        /\ mobile_events (o_first :: outs ++ [o_last]) = [started; ended]
        /\ mobile_in_hand_start_frame self' = -1
        /\ (Forall (fun o => is_person_present o = true) outs -> all_events outs = []).
Proof.
  intros Frame model fps self before first rest after Hfps Hfc. split.
  { destruct (frame_loop_total model fps (before :: first :: rest ++ [after]) self Hfps)
      as (s & os & H). eauto. }
  intros self' o0 o_first outs o_last Hrun H0 H1 Hmid Hlast K started ended.
  apply frame_loop_cons_inv in Hrun as (s1 & o0' & os1 & Hb0 & Hrun & E1).
  inversion E1; subst o0' os1; clear E1.
  apply frame_loop_cons_inv in Hrun as (s2 & o1' & os2 & Hb1 & Hrun & E2).
  inversion E2; subst o1' os2; clear E2.
  apply frame_loop_app_inv in Hrun as (s3 & outs1 & outs2 & Hr1 & Hr2 & E3).
  apply frame_loop_cons_inv in Hr2 as (s4 & ol & os4 & Hb2 & Hnil & ->).
  simpl in Hnil. inversion Hnil; subst s4 os4; clear Hnil.
  apply app_inj_tail in E3 as [-> ->].
  apply mobile_step in Hb0 as [Hm0 Hfc1]. rewrite H0 in Hm0.
  apply mobile_tracker_false in Hm0.
  apply mobile_step in Hb1 as [Hm1 Hfc2]. rewrite H1, Hm0 in Hm1.
  rewrite mobile_tracker_onset in Hm1.
  assert (Hs2 : mobile_in_hand_start_frame s2 = frame_count s1) by congruence.
  assert (Hev1 : filter is_mobile_event (events o_first) = [started]).
  { unfold started. rewrite <- Hfc1. congruence. }
  destruct (mobile_active_run model fps rest s2 s3 outs1 ltac:(lia) Hr1 Hmid) as [Hev Hs3].
  destruct (frame_loop_shape model fps rest s2 s3 outs1 Hr1) as (_ & Hfc3 & _).
  apply mobile_step in Hb2 as [Hm2 _]. rewrite Hlast in Hm2.
  rewrite mobile_tracker_offset in Hm2 by (trivial; lia).
  assert (HK : frame_count s3 - mobile_in_hand_start_frame s3 = K)
    by (unfold K; lia).
  assert (Hfc4 : frame_count s3 = frame_count self + 1 + K) by (unfold K; lia).
  rewrite HK, Hfc4 in Hm2.
  assert (Hs4 : mobile_in_hand_start_frame self' = -1) by congruence.
  assert (Hev2 : filter is_mobile_event (events ol) = [ended])
    by (unfold ended; congruence).
  split; [exact Hev1|]. split; [exact Hev|].
  split; [exact Hev2|]. split; [|split; [exact Hs4|]].
  2: { intros Hp. apply (nothing_logged model fps rest s2 s3 outs1 Hr1 Hev).
       exact (present_run model fps rest s2 s3 outs1 Hr1 Hp). }
  rewrite mobile_events_cons, mobile_events_app, Hev, Hev1. simpl app.
  rewrite mobile_events_cons, Hev2. reflexivity.
Qed.

(** A short instance at fps 10, from the state reached after four frames
    showing an idle person: frame 4 still shows the phone out of hand, the
    sampled frame 5 shows it in hand, frames 6-9 reuse that, and the sampled
    frame 10 shows it out of hand again. *)
Lemma C2_one_start_and_one_end_witness :
  let r := frame_loop detector 10 after_four_idle_frames
             (idle_frame :: mobile_frame :: repeat empty_frame 4 ++ [idle_frame]) in
  mobile_events (tl (outputs r))
  = [mkEvent "mobile_in_hand_start" 0 5; mkEvent "mobile_in_hand_end" (1 # 2) 10].
Proof.
  intros r.
  pose (d := mkOutput false false false false "" "" []).
  assert (Hfps : ~ (10 == 0)%Q) by (vm_compute; discriminate).
  assert (Hfc : 0 <= frame_count after_four_idle_frames) by (vm_compute; discriminate).
  pose proof (proj2 (C2_one_start_and_one_end
                       Results detector 10 after_four_idle_frames
                       idle_frame mobile_frame (repeat empty_frame 4) idle_frame
                       Hfps Hfc)
                (final r) (nth 0 (outputs r) d) (nth 1 (outputs r) d)
                (firstn 4 (skipn 2 (outputs r))) (nth 6 (outputs r) d))
    as H.
  destruct H as (_ & _ & _ & H & _).
  - vm_compute. reflexivity.
  - vm_compute. reflexivity.
  - vm_compute. reflexivity.
  - apply forallb_Forall_true. vm_compute. reflexivity.
  - vm_compute. reflexivity.
  - vm_cast_no_check H.
Defined.

(** That state is the one the loop reaches. *)
Example after_four_idle_frames_reached :
  frame_loop detector 10 (configure (init 30 10) 10) (repeat idle_frame 4)
  = Ok (after_four_idle_frames,
        repeat (mkOutput true true false false "Present (Idle/Other)" "00:00" []) 1
        ++ repeat (mkOutput false true false false "Present (Idle/Other)" "00:00" []) 3).
Proof. vm_compute. reflexivity. Qed.

(** The scenario of the specification at fps 10, run from the start of the
    video: the phone is in hand on frames 10-39 of 50, and nothing else is
    logged. *)
Example C2_scenario_frames_10_to_39 :
  all_events (outputs (analyze_video detector (init 30 10) 10 mobile_10_39))
  = [mkEvent "mobile_in_hand_start" 0 10; mkEvent "mobile_in_hand_end" 3 40].
Proof. vm_compute. reflexivity. Qed.

(** C9: an absence that starts with the off-camera tracker idle and ends,
    with the person back in view, before the accumulated absence reaches
    [alert_duration_frames] logs no [person_missing_alert]; the frame on which
    the person is back resets [off_camera_start_frame] to -1; whatever is
    logged on those frames comes from the mobile tracker, and nothing at all is
    logged when that tracker is idle and the phone is not in hand. *)
Theorem C9_short_absence_recovers_silently :
  forall (Frame : Type) (model : Frame -> Results) (fps : Q) (self : CCTVAnalyzer)
         (gone : list Frame) (back : Frame),
    ~ (fps == 0)%Q ->
    0 <= frame_count self ->
    off_camera_start_frame self = -1 ->
    Z.of_nat (List.length gone) <= alert_duration_frames self ->
    (exists r, frame_loop model fps self (gone ++ [back]) = Ok r)
    /\ forall self' outs o,
        frame_loop model fps self (gone ++ [back]) = Ok (self', outs ++ [o]) ->
        Forall (fun o => is_person_present o = false) outs ->
        is_person_present o = true ->
        alerts (outs ++ [o]) = []
        /\ off_camera_start_frame self' = -1
        /\ Forall (fun ev => is_mobile_event ev = true) (all_events (outs ++ [o]))
        /\ (mobile_in_hand_start_frame self = -1 ->
            Forall (fun o => mobile_in_hand_state o = false) (outs ++ [o]) ->
            all_events (outs ++ [o]) = []).
Proof.
  intros Frame model fps self gone back Hfps Hfc Hidle Hshort. split.
  { destruct (frame_loop_total model fps (gone ++ [back]) self Hfps) as (s & os & H).
    eauto. }
  intros self' outs o Hrun Habs Hback.
  pose proof (frame_loop_event_kinds model fps _ _ _ _ Hrun) as Hkinds.
  pose proof Hrun as Hwhole.
  apply frame_loop_app_inv in Hrun as (s1 & outs1 & outs2 & Hr1 & Hr2 & E).
  apply frame_loop_cons_inv in Hr2 as (s2 & o' & os2 & Hb & Hnil & ->).
  simpl in Hnil. inversion Hnil; subst s2 os2; clear Hnil.
  apply app_inj_tail in E as [-> ->].
  destruct (alerts_of_absence model fps gone self s1 outs1 0 Hfps Hfc
              ltac:(lia) ltac:(left; auto) Hr1 Habs) as [Ha _].
  rewrite Z.add_0_l, Z.div_small in Ha by lia. simpl in Ha.
  destruct (present_step model fps s1 back self' o' Hb Hback) as [Hs Hal].
  assert (Hno : alerts (outs1 ++ [o']) = []).
  { rewrite alerts_app, Ha, alerts_cons, Hal. reflexivity. }
  assert (Hmob : Forall (fun ev => is_mobile_event ev = true) (all_events (outs1 ++ [o']))).
  { pose proof (filter_nil_Forall is_alert _ Hno) as Hna.
    rewrite Forall_forall in *. intros ev Hin.
    destruct (Hkinds ev Hin) as [Hm | Hm]; [exact Hm|].
    rewrite (Hna ev Hin) in Hm. discriminate. }
  repeat split; trivial.
  intros Hmi Hmf.
  destruct (mobile_idle_run model fps _ _ _ _ Hmi Hwhole Hmf) as [Hme _].
  exact (nothing_logged model fps _ _ _ _ Hwhole Hme Hno).
Qed.

(** An absence of exactly the threshold, 60 frames at fps 30 with a two-second
    threshold, between frames showing an idle person: nothing is logged. *)
Lemma C9_short_absence_witness :
  let self := final (frame_loop detector 30 (configure (init 2 30) 30)
                                (repeat idle_frame 5)) in
  let r := frame_loop detector 30 self (repeat empty_frame 60 ++ [idle_frame]) in
  alert_duration_frames self = Z.of_nat (List.length (repeat empty_frame 60))
  /\ all_events (outputs r) = []
  /\ off_camera_start_frame (final r) = -1.
Proof.
  intros self r. split; [reflexivity|].
  pose (d := mkOutput false false false false "" "" []).
  assert (Hfps : ~ (30 == 0)%Q) by (vm_compute; discriminate).
  assert (Hfc : 0 <= frame_count self) by (vm_compute; discriminate).
  assert (Hidle : off_camera_start_frame self = -1) by reflexivity.
  assert (Hshort : Z.of_nat (List.length (repeat empty_frame 60))
                   <= alert_duration_frames self) by (vm_compute; discriminate).
  pose proof (proj2 (C9_short_absence_recovers_silently
                       Results detector 30 self (repeat empty_frame 60) idle_frame
                       Hfps Hfc Hidle Hshort)
                (final r) (firstn 60 (outputs r)) (nth 60 (outputs r) d)) as H.
  destruct H as (_ & Hs & _ & Hnone).
  - vm_compute. reflexivity.
  - apply forallb_Forall_false. vm_compute. reflexivity.
  - vm_compute. reflexivity.
  - split; [|exact Hs].
    assert (E : outputs r = firstn 60 (outputs r) ++ [nth 60 (outputs r) d])
      by (vm_compute; reflexivity).
    rewrite E. apply Hnone; [reflexivity|].
    apply forallb_Forall_false. vm_compute. reflexivity.
Defined.

(** The run from the start of the video around that absence. *)
Example C9_scenario_short_absence :
  all_events (outputs (analyze_video detector (init 2 30) 30 short_absence)) = []
  /\ off_camera_frames (stats (final (analyze_video detector (init 2 30) 30 short_absence)))
     = 60.
Proof. split; vm_compute; reflexivity. Qed.

(* ===================================================================== *)
(** ** The hierarchy and the cumulative counters                          *)
(* ===================================================================== *)

Section Hierarchy.

Context {Frame : Type} (model : Frame -> Results).

(** The branch of lines 138-154 taken for a snapshot, as the label and the
    increments of the three counters. *)
Lemma activity_branch fps fc threshold snap start st s st' lbl evs :
  activity fps fc threshold snap start st = Ok (s, st', lbl, evs) ->
  total_video_frames st' = total_video_frames st
  /\ match person_present snap, mobile_in_hand snap, laptop_or_keyboard_present snap with
     | false, _, _ =>
         lbl = "Off-Camera/Missing"%string
         /\ off_camera_frames st' = off_camera_frames st + 1
         /\ mobile_in_hand_frames st' = mobile_in_hand_frames st
         /\ working_frames st' = working_frames st
     | true, true, _ =>
         lbl = "Using Mobile Phone"%string
         /\ off_camera_frames st' = off_camera_frames st
         /\ mobile_in_hand_frames st' = mobile_in_hand_frames st + 1
         /\ working_frames st' = working_frames st
     | true, false, true =>
         lbl = "Working on Laptop"%string
         /\ off_camera_frames st' = off_camera_frames st
         /\ mobile_in_hand_frames st' = mobile_in_hand_frames st
         /\ working_frames st' = working_frames st + 1
     | true, false, false =>
         lbl = "Present (Idle/Other)"%string
         /\ off_camera_frames st' = off_camera_frames st
         /\ mobile_in_hand_frames st' = mobile_in_hand_frames st
         /\ working_frames st' = working_frames st
     end.
Proof.
  destruct (person_present snap) eqn:Ep.
  - unfold activity. rewrite Ep.
    destruct (mobile_in_hand snap); [|destruct (laptop_or_keyboard_present snap)];
      intros H; inversion H; subst; simpl; repeat split; reflexivity.
  - intros H. apply activity_absent in H; [|exact Ep]. tauto.
Qed.

Lemma count_cons f (o : FrameOutput) outs :
  count f (o :: outs) = (if f o then 1 else 0) + count f outs.
Proof.
  unfold count. simpl. destruct (f o); simpl List.length; lia.
Qed.

Lemma count_nonneg f (outs : list FrameOutput) : 0 <= count f outs.
Proof. unfold count. lia. Qed.

(** The four branches partition any trace. *)
Lemma count_partition (outs : list FrameOutput) :
  count off_camera outs + count is_person_present outs = Z.of_nat (List.length outs)
  /\ count on_mobile outs + count on_laptop outs + count on_idle outs
     = count is_person_present outs.
Proof.
  induction outs as [|o outs [IH1 IH2]].
  - split; reflexivity.
  - rewrite !count_cons.
    replace (Z.of_nat (List.length (o :: outs)))
      with (Z.of_nat (List.length outs) + 1) by (simpl List.length; lia).
    unfold off_camera at 1, on_mobile at 1, on_laptop at 1, on_idle at 1.
    destruct (is_person_present o), (mobile_in_hand_state o),
      (laptop_keyboard_detected o); cbn [negb andb]; lia.
Qed.

(** One iteration adds one to exactly the counter of its branch. *)
Lemma loop_body_counters fps self frame self' o :
  loop_body model fps self frame = Ok (self', o) ->
  total_video_frames (stats self') = frame_count self + 1
  /\ off_camera_frames (stats self')
     = off_camera_frames (stats self) + (if off_camera o then 1 else 0)
  /\ mobile_in_hand_frames (stats self')
     = mobile_in_hand_frames (stats self) + (if on_mobile o then 1 else 0)
  /\ working_frames (stats self')
     = working_frames (stats self) + (if on_laptop o then 1 else 0).
Proof.
  intros Hb.
  apply loop_body_inv in Hb as (mevs & aevs & _ & Ha & _ & _ & _ & _ & Hc & _).
  apply activity_branch in Ha as [Ht Hbr]. rewrite <- Hc in Hbr.
  unfold off_camera, on_mobile, on_laptop. simpl in Hbr, Ht.
  destruct (is_person_present o), (mobile_in_hand_state o),
    (laptop_keyboard_detected o); simpl; repeat split; lia.
Qed.

Lemma frame_loop_counters fps frames : forall self self' outs,
  frame_loop model fps self frames = Ok (self', outs) ->
  total_video_frames (stats self) = frame_count self ->
  total_video_frames (stats self') = frame_count self'
  /\ off_camera_frames (stats self')
     = off_camera_frames (stats self) + count off_camera outs
  /\ mobile_in_hand_frames (stats self')
     = mobile_in_hand_frames (stats self) + count on_mobile outs
  /\ working_frames (stats self')
     = working_frames (stats self) + count on_laptop outs.
Proof.
  induction frames as [|f fs IH]; intros self self' outs Hrun Hinv.
  - simpl in Hrun. inversion Hrun; subst. unfold count. simpl. repeat split; lia.
  - apply frame_loop_cons_inv in Hrun as (s1 & o & os & Hb & Hl & ->).
    pose proof (loop_body_counters _ _ _ _ _ Hb) as (Ht & Ho & Hm & Hw).
    pose proof (loop_body_inv _ _ _ _ _ _ Hb) as (_ & _ & _ & _ & _ & Hfc & _).
    destruct (IH s1 self' os Hl ltac:(lia)) as (IHt & IHo & IHm & IHw).
    rewrite !count_cons. repeat split; lia.
Qed.

End Hierarchy.

(** C3: on every frame the hierarchy is evaluated top-down on the snapshot
    the frame consumes and the first match wins: no person gives
    "Off-Camera/Missing" and one more off-camera frame; else a phone in hand
    gives "Using Mobile Phone" and one more mobile frame; else a laptop or
    keyboard gives "Working on Laptop" and one more working frame; else the
    label is "Present (Idle/Other)" and none of the three counters moves.  In
    every case [total_video_frames] grows by one. *)
Theorem C3_hierarchy_first_match_wins :
  forall (Frame : Type) (model : Frame -> Results) (fps : Q)
         (self : CCTVAnalyzer) (frame : Frame),
    ~ (fps == 0)%Q ->
    total_video_frames (stats self) = frame_count self ->
    exists self' o,
      loop_body model fps self frame = Ok (self', o)
      /\ consumed o = sampled model self frame
      /\ total_video_frames (stats self') = total_video_frames (stats self) + 1
      /\ total_video_frames (stats self') = frame_count self'
      /\ match is_person_present o, mobile_in_hand_state o, laptop_keyboard_detected o with
         | false, _, _ =>
             current_activity o = "Off-Camera/Missing"%string
             /\ off_camera_frames (stats self') = off_camera_frames (stats self) + 1
             /\ mobile_in_hand_frames (stats self') = mobile_in_hand_frames (stats self)
             /\ working_frames (stats self') = working_frames (stats self)
         | true, true, _ =>
             current_activity o = "Using Mobile Phone"%string
             /\ off_camera_frames (stats self') = off_camera_frames (stats self)
             /\ mobile_in_hand_frames (stats self') = mobile_in_hand_frames (stats self) + 1
             /\ working_frames (stats self') = working_frames (stats self)
         | true, false, true =>
             current_activity o = "Working on Laptop"%string
             /\ off_camera_frames (stats self') = off_camera_frames (stats self)
             /\ mobile_in_hand_frames (stats self') = mobile_in_hand_frames (stats self)
             /\ working_frames (stats self') = working_frames (stats self) + 1
         | true, false, false =>
             current_activity o = "Present (Idle/Other)"%string
             /\ off_camera_frames (stats self') = off_camera_frames (stats self)
             /\ mobile_in_hand_frames (stats self') = mobile_in_hand_frames (stats self)
             /\ working_frames (stats self') = working_frames (stats self)
         end.
Proof.
  intros Frame model fps self frame Hfps Hinv.
  destruct (loop_body_total model fps self frame Hfps) as (self' & o & Hb).
  exists self', o. split; [exact Hb|].
  apply loop_body_inv in Hb as (mevs & aevs & _ & Ha & _ & Hfc & _ & _ & Hc & _).
  apply activity_branch in Ha as [Ht Hbr]. rewrite <- Hc in Hbr.
  simpl in Ht, Hbr.
  split; [exact Hc|]. split; [lia|]. split; [lia|]. exact Hbr.
Qed.

(** The first frame of a video showing a person with a phone in hand and a
    laptop: the phone wins. *)
Lemma C3_hierarchy_witness :
  exists self' o,
    loop_body detector 30 (configure (init 2 30) 30) [[person; phone_in_hand; laptop]]
    = Ok (self', o)
    /\ current_activity o = "Using Mobile Phone"%string
    /\ mobile_in_hand_frames (stats self') = 1
    /\ working_frames (stats self') = 0
    /\ total_video_frames (stats self') = 1.
Proof.
  assert (Hfps : ~ (30 == 0)%Q) by (vm_compute; discriminate).
  destruct (C3_hierarchy_first_match_wins
              Results detector 30 (configure (init 2 30) 30)
              [[person; phone_in_hand; laptop]] Hfps eq_refl)
    as (self' & o & Hb & Hc & Ht & _ & Hbr).
  exists self', o. split; [exact Hb|].
  assert (E : consumed o = mkSnapshot true true true)
    by (rewrite Hc; vm_compute; reflexivity).
  injection E as Ep Em El. rewrite Ep, Em in Hbr.
  destruct Hbr as (Hl & _ & Hm & Hw).
  repeat split; [exact Hl | rewrite Hm; reflexivity | rewrite Hw; reflexivity
                | rewrite Ht; reflexivity].
Defined.

(** C4: after any run of [analyze_video] on a fresh analyzer, every frame is
    counted once in [total_video_frames]; the off-camera frames and the
    frames with a person present add up to it; each present frame lies in
    exactly one of the mobile, working and idle branches, the first two being
    what [mobile_in_hand_frames] and [working_frames] count; the three
    counters sum to at most the total; and a longer run never has smaller
    counters. *)
Theorem C4_counters_partition_the_frames :
  forall (Frame : Type) (model : Frame -> Results) (secs target : Z) (cap_fps : Q)
         (frames more : list Frame) self' outs self'' outs'',
    analyze_video model (init secs target) cap_fps frames = Ok (self', outs) ->
    analyze_video model (init secs target) cap_fps (frames ++ more) = Ok (self'', outs'') ->
    let st := stats self' in
    let st2 := stats self'' in
    total_video_frames st = Z.of_nat (List.length frames)
    /\ off_camera_frames st = count off_camera outs
    /\ mobile_in_hand_frames st = count on_mobile outs
    /\ working_frames st = count on_laptop outs
    /\ off_camera_frames st + count is_person_present outs = total_video_frames st
    /\ count on_mobile outs + count on_laptop outs + count on_idle outs
       = count is_person_present outs
    /\ off_camera_frames st + mobile_in_hand_frames st + working_frames st
       <= total_video_frames st
    /\ (total_video_frames st <= total_video_frames st2
        /\ off_camera_frames st <= off_camera_frames st2
        /\ mobile_in_hand_frames st <= mobile_in_hand_frames st2
        /\ working_frames st <= working_frames st2).
Proof.
  intros Frame model secs target cap_fps frames more self' outs self'' outs'' Hrun Hrun2
         st st2.
  unfold analyze_video in Hrun, Hrun2.
  set (fps := working_fps (init secs target) cap_fps) in *.
  set (self0 := configure (init secs target) fps) in *.
  destruct (frame_loop_counters model fps frames self0 self' outs Hrun eq_refl)
    as (Ht & Ho & Hm & Hw).
  destruct (frame_loop_shape model fps frames self0 self' outs Hrun) as (Hlen & Hfc & _).
  apply frame_loop_app_inv in Hrun2 as (s1 & o1 & o2 & Hr1 & Hr2 & ->).
  rewrite Hrun in Hr1. inversion Hr1; subst s1 o1; clear Hr1.
  destruct (frame_loop_counters model fps more self' self'' o2 Hr2 Ht)
    as (Ht2 & Ho2 & Hm2 & Hw2).
  destruct (frame_loop_shape model fps more self' self'' o2 Hr2) as (_ & Hfc2 & _).
  destruct (count_partition outs) as [Hp1 Hp2].
  pose proof (count_nonneg off_camera o2). pose proof (count_nonneg on_mobile o2).
  pose proof (count_nonneg on_laptop o2). pose proof (count_nonneg on_idle outs).
  subst st st2. simpl in Ho, Hm, Hw, Hfc.
  repeat split; lia.
Qed.

(** Six frames (absent, phone, phone, working, idle, absent), with the
    detector run on the first and the sixth only, then four more. *)
Lemma C4_counters_witness :
  let frames := [empty_frame; mobile_frame; mobile_frame; working_frame;
                 idle_frame; mobile_frame] in
  let r := analyze_video detector (init 30 60) 30 frames in
  List.length (outputs r) = 6%nat
  /\ off_camera_frames (stats (final r)) = 5
  /\ mobile_in_hand_frames (stats (final r)) = 1
  /\ off_camera_frames (stats (final r)) + mobile_in_hand_frames (stats (final r))
     + working_frames (stats (final r)) <= total_video_frames (stats (final r)).
Proof.
  intros frames r.
  pose (r2 := analyze_video detector (init 30 60) 30 (frames ++ repeat working_frame 4)).
  pose proof (C4_counters_partition_the_frames
                Results detector 30 60 30 frames (repeat working_frame 4)
                (final r) (outputs r) (final r2) (outputs r2)) as H.
  destruct H as (_ & _ & _ & _ & _ & _ & H & _).
  - vm_compute. reflexivity.
  - vm_compute. reflexivity.
  - split; [reflexivity|]. split; [reflexivity|]. split; [reflexivity|]. exact H.
Defined.

(* ===================================================================== *)
(** ** The frame sampler                                                  *)
(* ===================================================================== *)

Section Sampler.

Context {Frame : Type} (model : Frame -> Results).

Lemma sampled_on fps self frame self' o :
  loop_body model fps self frame = Ok (self', o) ->
  frame_count self mod FRAME_SKIP = 0 ->
  ran_detector o = true
  /\ consumed o = classify (model frame)
  /\ cached self' = classify (model frame).
Proof.
  intros Hb Hmod.
  apply loop_body_inv in Hb as (mevs & aevs & _ & _ & _ & _ & _ & Hca & Hco & Hran).
  unfold sampled in *. rewrite Hmod in *. simpl in *. auto.
Qed.

Lemma sampled_off fps self frame self' o :
  loop_body model fps self frame = Ok (self', o) ->
  frame_count self mod FRAME_SKIP <> 0 ->
  ran_detector o = false
  /\ consumed o = cached self
  /\ cached self' = cached self.
Proof.
  intros Hb Hmod.
  apply loop_body_inv in Hb as (mevs & aevs & _ & _ & _ & _ & _ & Hca & Hco & Hran).
  unfold sampled in *. apply Z.eqb_neq in Hmod. rewrite Hmod in *. auto.
Qed.

(** After at least one frame of a run counted from zero, the cache holds
    the classification of the last frame whose index is a multiple of
    [FRAME_SKIP]. *)
Lemma cache_is_last_sample fps frames : forall self self' outs,
  frame_count self = 0 ->
  frame_loop model fps self frames = Ok (self', outs) ->
  frames <> [] ->
  exists frame,
    nth_error frames
              (Z.to_nat (FRAME_SKIP * ((Z.of_nat (List.length frames) - 1) / FRAME_SKIP)))
    = Some frame
    /\ cached self' = classify (model frame).
Proof.
  induction frames as [|x l IH] using rev_ind; intros self self' outs H0 Hrun Hne.
  - contradiction.
  - apply frame_loop_app_inv in Hrun as (s1 & o1 & o2 & Hr1 & Hr2 & ->).
    apply frame_loop_cons_inv in Hr2 as (s2 & o & os & Hb & Hnil & ->).
    simpl in Hnil. inversion Hnil; subst s2 os; clear Hnil.
    destruct (frame_loop_shape model fps l self s1 o1 Hr1) as (_ & Hfc & _).
    rewrite H0, Z.add_0_l in Hfc.
    rewrite length_app. simpl List.length.
    replace (Z.of_nat (List.length l + 1) - 1) with (Z.of_nat (List.length l)) by lia.
    unfold FRAME_SKIP in *.
    destruct (Z.eq_dec (frame_count s1 mod 5) 0) as [Hmod | Hmod].
    + destruct (sampled_on _ _ _ _ _ Hb Hmod) as (_ & _ & Hca).
      exists x. split; [|exact Hca].
      rewrite Hfc in Hmod.
      replace (Z.to_nat (5 * (Z.of_nat (List.length l) / 5))) with (List.length l)
        by (pose proof (Z.div_mod (Z.of_nat (List.length l)) 5 ltac:(lia)); lia).
      rewrite nth_error_app2 by lia. rewrite Nat.sub_diag. reflexivity.
    + destruct (sampled_off _ _ _ _ _ Hb Hmod) as (_ & _ & Hca).
      rewrite Hfc in Hmod.
      assert (Hl : l <> []) by (intros ->; simpl in Hmod; apply Hmod; reflexivity).
      destruct (IH self s1 o1 H0 Hr1 Hl) as (frame & Hnth & Hc).
      exists frame. split; [|congruence].
      assert (Hidx : (Z.of_nat (List.length l) - 1) / 5 = Z.of_nat (List.length l) / 5).
      { pose proof (Z.div_mod (Z.of_nat (List.length l)) 5 ltac:(lia)).
        pose proof (Z.mod_pos_bound (Z.of_nat (List.length l)) 5 ltac:(lia)).
        symmetry. apply (Z.div_unique _ 5 _ (Z.of_nat (List.length l) mod 5 - 1)); lia. }
      rewrite Hidx in Hnth.
      rewrite nth_error_app1; [exact Hnth|].
      apply nth_error_Some. rewrite Hnth. discriminate.
Qed.

End Sampler.

(** C7: in a run of [analyze_video] on a fresh analyzer the model is called
    on frame [i] exactly when [i mod FRAME_SKIP = 0], and the three cached
    fields are then replaced by the classification of that frame; on every
    other frame the tracking section reads the cached fields, none of them is
    changed, and they are the classification of the most recent sampled
    frame, frame [FRAME_SKIP * (i / FRAME_SKIP)]. *)
Theorem C7_detector_runs_on_multiples_of_frame_skip :
  forall (Frame : Type) (model : Frame -> Results) (secs target : Z) (cap_fps : Q)
         (before : list Frame) (frame : Frame) self_i outs_i self_next o,
    analyze_video model (init secs target) cap_fps before = Ok (self_i, outs_i) ->
    loop_body model (working_fps (init secs target) cap_fps) self_i frame
    = Ok (self_next, o) ->
    let i := Z.of_nat (List.length before) in
    frame_count self_i = i
    /\ ran_detector o = (i mod FRAME_SKIP =? 0)
    /\ (i mod FRAME_SKIP = 0 ->
        consumed o = classify (model frame)
        /\ cached self_next = classify (model frame))
    /\ (i mod FRAME_SKIP <> 0 ->
        consumed o = cached self_i
        /\ cached self_next = cached self_i
        /\ exists last_sampled,
            nth_error before (Z.to_nat (FRAME_SKIP * (i / FRAME_SKIP))) = Some last_sampled
            /\ consumed o = classify (model last_sampled)).
Proof.
  intros Frame model secs target cap_fps before frame self_i outs_i self_next o Hrun Hb i.
  unfold analyze_video in Hrun.
  set (fps := working_fps (init secs target) cap_fps) in *.
  set (self0 := configure (init secs target) fps) in *.
  destruct (frame_loop_shape model fps before self0 self_i outs_i Hrun) as (_ & Hfc & _).
  change (frame_count self0) with 0 in Hfc. rewrite Z.add_0_l in Hfc. fold i in Hfc.
  split; [exact Hfc|]. split.
  { apply loop_body_inv in Hb as (_ & _ & _ & _ & _ & _ & _ & _ & _ & Hran).
    rewrite Hran, Hfc. reflexivity. }
  split.
  - intros Hmod. rewrite <- Hfc in Hmod.
    destruct (sampled_on model _ _ _ _ _ Hb Hmod) as (_ & Hco & Hca). auto.
  - intros Hmod. pose proof Hmod as Hmod'. rewrite <- Hfc in Hmod'.
    destruct (sampled_off model _ _ _ _ _ Hb Hmod') as (_ & Hco & Hca).
    split; [exact Hco|]. split; [exact Hca|].
    assert (Hne : before <> []).
    { intros ->. apply Hmod. reflexivity. }
    destruct (cache_is_last_sample model fps before self0 self_i outs_i eq_refl Hrun Hne)
      as (f & Hnth & Hc).
    exists f. split; [|congruence].
    assert (Hidx : (i - 1) / FRAME_SKIP = i / FRAME_SKIP).
    { unfold FRAME_SKIP in *.
      pose proof (Z.div_mod i 5 ltac:(lia)).
      pose proof (Z.mod_pos_bound i 5 ltac:(lia)).
      symmetry. apply (Z.div_unique _ 5 _ (i mod 5 - 1)); lia. }
    fold i in Hnth. rewrite Hidx in Hnth. exact Hnth.
Qed.

(** Frame 7 of a video whose frame 5 shows a phone in hand and whose other
    frames show nobody: the model is not called and the frame is tracked as
    frame 5 was. *)
Lemma C7_detector_witness :
  let before := repeat empty_frame 5 ++ [mobile_frame; empty_frame] in
  let r := analyze_video detector (init 30 60) 30 before in
  exists self_next o,
    loop_body detector (working_fps (init 30 60) 30) (final r) empty_frame
    = Ok (self_next, o)
    /\ ran_detector o = false
    /\ consumed o = classify (detector mobile_frame)
    /\ cached self_next = cached (final r).
Proof.
  intros before r.
  pose (b := loop_body detector (working_fps (init 30 60) 30) (final r) empty_frame).
  pose (self_next := match b with Ok (s, _) => s | Raise _ => final r end).
  pose (o := match b with Ok (_, o) => o
                     | Raise _ => mkOutput false false false false "" "" [] end).
  pose proof (C7_detector_runs_on_multiples_of_frame_skip
                Results detector 30 60 30 before empty_frame
                (final r) (outputs r) self_next o) as H.
  destruct H as (_ & Hran & _ & Hoff).
  - vm_compute. reflexivity.
  - vm_compute. reflexivity.
  - exists self_next, o. split; [vm_compute; reflexivity|].
    split; [rewrite Hran; reflexivity|].
    destruct Hoff as (_ & Hca & f & Hnth & Hco).
    + vm_compute. discriminate.
    + split; [|exact Hca].
      vm_compute in Hnth. injection Hnth as <-. exact Hco.
Defined.

(* ===================================================================== *)
(** ** The report and the divisions by fps                                *)
(* ===================================================================== *)

Lemma frames_to_time_str_total (frames : Z) (fps : Q) :
  exists s, frames_to_time_str frames fps = Ok s
            /\ ((fps == 0)%Q -> s = "00:00:00"%string).
Proof.
  unfold frames_to_time_str. destruct (Qeq_bool fps 0) eqn:E.
  - exists "00:00:00"%string. auto.
  - assert (Hfps : ~ (fps == 0)%Q).
    { intros H. apply Qeq_bool_iff in H. congruence. }
    rewrite py_truediv_ok by exact Hfps. simpl.
    eexists. split; [reflexivity|]. intros H. contradiction.
Qed.

Lemma percent_total (n total_frames : Z) :
  exists p, percent n total_frames = Ok p /\ (total_frames = 0 -> p = 0%Q).
Proof.
  unfold percent. destruct (total_frames >? 0) eqn:E.
  - assert (Hpos : 0 < total_frames) by lia.
    rewrite py_truediv_ok.
    + simpl. eexists. split; [reflexivity|]. intros ->. lia.
    + unfold Qeq. simpl. lia.
  - exists 0%Q. auto.
Qed.

(** C8: the percentage and duration computations of the final report guard
    their divisors.  [print_final_report] raises on no statistics at all;
    when [total_video_frames] is 0 the three percentages are 0, and when the
    fps is 0 every duration is formatted as "00:00:00", as
    [frames_to_time_str] does for any frame count.  In particular the report
    of a run over no frame shows 0 for the three categories.  The duration
    computations of the frame loop are outside this statement: they carry
    no guard. *)
Theorem C8_report_divisions_are_guarded :
  forall (st : Stats),
    exists rep,
      print_final_report st = Ok rep
      /\ (total_video_frames st = 0 ->
          off_camera_percent rep = 0%Q /\ mobile_percent rep = 0%Q
          /\ working_percent rep = 0%Q)
      /\ ((current_fps st == 0)%Q ->
          total_time_str rep = "00:00:00"%string
          /\ off_camera_time_str rep = "00:00:00"%string
          /\ mobile_time_str rep = "00:00:00"%string
          /\ working_time_str rep = "00:00:00"%string)
      /\ (forall frames fps, (fps == 0)%Q ->
                             frames_to_time_str frames fps = Ok "00:00:00"%string)
      /\ (forall (Frame : Type) (model : Frame -> Results) secs target cap_fps,
            exists self',
              analyze_video model (init secs target) cap_fps [] = Ok (self', [])
              /\ total_video_frames (stats self') = 0).
Proof.
  intros st. unfold print_final_report.
  destruct (frames_to_time_str_total (total_video_frames st) (current_fps st))
    as (tt & -> & Htt).
  destruct (frames_to_time_str_total (off_camera_frames st) (current_fps st))
    as (ot & -> & Hot).
  destruct (percent_total (off_camera_frames st) (total_video_frames st))
    as (op & -> & Hop).
  destruct (frames_to_time_str_total (mobile_in_hand_frames st) (current_fps st))
    as (mt & -> & Hmt).
  destruct (percent_total (mobile_in_hand_frames st) (total_video_frames st))
    as (mp & -> & Hmp).
  destruct (frames_to_time_str_total (working_frames st) (current_fps st))
    as (wt & -> & Hwt).
  destruct (percent_total (working_frames st) (total_video_frames st))
    as (wp & -> & Hwp).
  simpl. eexists. split; [reflexivity|]. simpl.
  split; [auto|]. split; [auto|]. split.
  - intros frames fps Hfps.
    destruct (frames_to_time_str_total frames fps) as (s & Hs & Hz).
    rewrite Hs, (Hz Hfps). reflexivity.
  - intros Frame model secs target cap_fps.
    eexists. split; reflexivity.
Qed.

(** The report of a run that read no frame from a source reporting fps 0,
    on an analyzer built with target fps 0. *)
Lemma C8_report_witness :
  let r := analyze_video detector (init 30 0) 0 [] in
  print_final_report (stats (final r))
  = Ok (mkReport "00:00:00" "00:00:00" 0 "00:00:00" 0 "00:00:00" 0).
Proof.
  intros r.
  destruct (C8_report_divisions_are_guarded (stats (final r)))
    as (rep & Hrep & Hpct & Hstr & _).
  destruct Hpct as (Hop & Hmp & Hwp); [reflexivity|].
  destruct Hstr as (Htt & Hot & Hmt & Hwt); [vm_compute; reflexivity|].
  rewrite Hrep. destruct rep. simpl in *. subst. reflexivity.
Defined.

(** Not every duration computation is guarded.  The three of the frame loop
    divide by the fps as it is: at fps 0 the end of a phone episode
    (line 133), a due alert (line 163) and the timer of a frame without a
    person (line 175) raise, and so does a whole run when source and target
    fps are both 0. *)
Lemma C8_counterexample :
  mobile_tracker 0 5 false 2 = Raise ZeroDivisionError
  /\ missing_alert 0 5 3 2 = Raise ZeroDivisionError
  /\ timer 0 5 false 2 = Raise ZeroDivisionError
  /\ analyze_video detector (init 30 0) 0 [empty_frame] = Raise ZeroDivisionError.
Proof. repeat split; reflexivity. Qed.

(* ===================================================================== *)
(** ** Further properties of the detection pass                           *)
(* ===================================================================== *)

Lemma collect_person_boxes_In (results : Results) (p : XYXY) :
  In p (collect_person_boxes results) <->
  exists box, has_box results box /\ cls box = PERSON_CLASS_ID /\ xyxy box = p.
Proof.
  unfold collect_person_boxes, has_box. rewrite in_flat_map. split.
  - intros (r & Hr & Hin). apply in_flat_map in Hin as (box & Hb & Hin).
    destruct (cls box =? PERSON_CLASS_ID) eqn:E; [|contradiction].
    destruct Hin as [<- | []]. apply Z.eqb_eq in E. exists box. eauto.
  - intros (box & (r & Hr & Hb) & Hc & <-). exists r. split; [exact Hr|].
    apply in_flat_map. exists box. split; [exact Hb|].
    apply Z.eqb_eq in Hc. rewrite Hc. left. reflexivity.
Qed.

Lemma person_present_iff (results : Results) :
  person_present (classify results) = true <->
  exists box, has_box results box /\ cls box = PERSON_CLASS_ID.
Proof.
  simpl. split.
  - intros H. destruct (collect_person_boxes results) as [|p ps] eqn:E; [discriminate|].
    assert (Hin : In p (collect_person_boxes results)) by (rewrite E; left; reflexivity).
    apply collect_person_boxes_In in Hin as (box & Hb & Hc & _). eauto.
  - intros (box & Hb & Hc).
    assert (Hin : In (xyxy box) (collect_person_boxes results))
      by (apply collect_person_boxes_In; eauto).
    destruct (collect_person_boxes results); [contradiction | reflexivity].
Qed.

Lemma laptop_or_keyboard_iff (results : Results) :
  laptop_or_keyboard_present (classify results) = true <->
  exists box, has_box results box
              /\ (cls box = LAPTOP_CLASS_ID \/ cls box = KEYBOARD_CLASS_ID).
Proof.
  simpl. unfold laptop_keyboard_detected_current, has_box.
  rewrite existsb_exists. split.
  - intros (r & Hr & H). apply existsb_exists in H as (box & Hb & H).
    apply andb_true_iff in H as [_ H]. apply orb_true_iff in H.
    exists box. split; [eauto|]. destruct H as [H | H]; apply Z.eqb_eq in H; auto.
  - intros (box & (r & Hr & Hb) & H). exists r. split; [exact Hr|].
    apply existsb_exists. exists box. split; [exact Hb|].
    apply andb_true_iff. split.
    + destruct H as [-> | ->]; reflexivity.
    + apply orb_true_iff. destruct H as [H | H]; apply Z.eqb_eq in H; auto.
Qed.

Lemma mobile_in_hand_iff (results : Results) :
  mobile_in_hand (classify results) = true <->
  exists pbox mbox,
    has_box results pbox /\ cls pbox = PERSON_CLASS_ID
    /\ has_box results mbox /\ cls mbox = MOBILE_CLASS_ID
    /\ pair_qualifies (xyxy pbox) (xyxy mbox) = true.
Proof.
  simpl. rewrite mobile_in_hand_current_iff. split.
  - intros (p & r & box & Hp & Hr & Hb & Hc & Hq).
    apply collect_person_boxes_In in Hp as (pbox & Hpb & Hpc & <-).
    exists pbox, box. unfold has_box. eauto 10.
  - intros (pbox & mbox & Hpb & Hpc & (r & Hr & Hb) & Hc & Hq).
    exists (xyxy pbox), r, mbox. repeat split; trivial.
    apply collect_person_boxes_In. eauto.
Qed.

Lemma bool_eq_iff (a b : bool) : (a = true <-> b = true) -> a = b.
Proof. destruct a, b; intuition congruence. Qed.

(** X1: the three answers of the detection pass depend only on which boxes
    the model reports: neither the order of the boxes nor their grouping
    into results matters, and the early exits of the search do not change
    the answer. *)
Theorem X1_classify_ignores_order_and_grouping :
  forall (results1 results2 : Results),
    (forall box, has_box results1 box <-> has_box results2 box) ->
    classify results1 = classify results2.
Proof.
  intros results1 results2 Hsame.
  assert (Hp : person_present (classify results1) = person_present (classify results2)).
  { apply bool_eq_iff. rewrite !person_present_iff.
    split; intros (box & Hb & Hc); exists box; split; trivial; apply Hsame; exact Hb. }
  assert (Hl : laptop_or_keyboard_present (classify results1)
               = laptop_or_keyboard_present (classify results2)).
  { apply bool_eq_iff. rewrite !laptop_or_keyboard_iff.
    split; intros (box & Hb & Hc); exists box; split; trivial; apply Hsame; exact Hb. }
  assert (Hm : mobile_in_hand (classify results1) = mobile_in_hand (classify results2)).
  { apply bool_eq_iff. rewrite !mobile_in_hand_iff.
    split; intros (pbox & mbox & Hpb & Hpc & Hmb & Hmc & Hq); exists pbox, mbox;
      repeat split; trivial; apply Hsame; assumption. }
  destruct (classify results1), (classify results2). simpl in *. congruence.
Qed.

Lemma X1_classify_witness :
  classify [[phone_in_hand; laptop]; [person]] = classify [[person; laptop; phone_in_hand]]
  /\ mobile_in_hand (classify [[person; laptop; phone_in_hand]]) = true.
Proof.
  split; [|reflexivity].
  apply X1_classify_ignores_order_and_grouping.
  intros box. unfold has_box. split.
  - intros (r & [<- | [<- | []]] & Hb); exists [person; laptop; phone_in_hand];
      (split; [left; reflexivity|]); simpl in *; tauto.
  - intros (r & [<- | []] & [<- | [<- | [<- | []]]]).
    + exists [person]. simpl. tauto.
    + exists [phone_in_hand; laptop]. simpl. tauto.
    + exists [phone_in_hand; laptop]. simpl. tauto.
Defined.

Lemma horizontal_prox_inside (p m : XYXY) : inside m p -> horizontal_prox p m = true.
Proof.
  destruct p as [[[px1 py1] px2] py2], m as [[[mx1 my1] mx2] my2].
  unfold inside, horizontal_prox. intros (H1 & H2 & H3 & _).
  apply Qltb_lt. apply Qabs_Qlt_condition.
  unfold center, Qlt, Qminus, Qplus, Qopp, Qmult, Qdiv, Qinv, inject_Z. simpl.
  split; lia.
Qed.

Lemma touches_inside (p m : XYXY) : inside m p -> touches p m = true.
Proof.
  destruct p as [[[px1 py1] px2] py2], m as [[[mx1 my1] mx2] my2].
  unfold inside. intros (H1 & H2 & H3 & H4 & H5 & H6).
  apply touches_positive. unfold intersection_area.
  rewrite (Z.min_r px2 mx2), (Z.max_r px1 mx1), (Z.min_r py2 my2), (Z.max_r py1 my1) by lia.
  rewrite !Z.max_r by lia. apply Z.mul_pos_pos; lia.
Qed.

Lemma int64_small (z : Z) : - 2 ^ 63 <= z < 2 ^ 63 -> int64 z = z.
Proof.
  unfold int64. change (2 ^ 63) with 9223372036854775808.
  change (2 ^ 64) with 18446744073709551616.
  intros H. rewrite Z.mod_small by lia. lia.
Qed.

(** In the pixel range no int64 result of lines 100-101 wraps around. *)
Lemma intersection_area_in_pixel_range (p m : XYXY) :
  in_pixel_range p -> in_pixel_range m ->
  intersection_area_int64 p m = intersection_area p m.
Proof.
  destruct p as [[[px1 py1] px2] py2], m as [[[mx1 my1] mx2] my2].
  unfold in_pixel_range, intersection_area_int64, intersection_area, pixel_limit.
  change (2 ^ 30) with 1073741824.
  intros (Hp1 & Hp2 & Hp3 & Hp4) (Hm1 & Hm2 & Hm3 & Hm4).
  set (a := Z.min px2 mx2 - Z.max px1 mx1).
  set (b := Z.min py2 my2 - Z.max py1 my1).
  assert (Ha : - 2147483648 <= a <= 2147483648) by (unfold a; lia).
  assert (Hb : - 2147483648 <= b <= 2147483648) by (unfold b; lia).
  rewrite (int64_small a), (int64_small b)
    by (change (2 ^ 63) with 9223372036854775808; lia).
  apply int64_small. change (2 ^ 63) with 9223372036854775808.
  assert (0 <= Z.max 0 a <= 2147483648) by lia.
  assert (0 <= Z.max 0 b <= 2147483648) by lia.
  nia.
Qed.

(** X2: with coordinates in the pixel range, a phone box of positive size
    that lies within a person box and whose vertical centre is strictly
    below the zone line of that person is always counted as in hand:
    horizontal proximity and an overlap of positive area, which the int64
    product of lines 100-101 holds without wrapping, follow from the
    containment. *)
Theorem X2_phone_within_person_box_is_in_hand :
  forall (results : Results) (pbox mbox : Box),
    has_box results pbox -> cls pbox = PERSON_CLASS_ID ->
    has_box results mbox -> cls mbox = MOBILE_CLASS_ID ->
    in_pixel_range (xyxy pbox) -> in_pixel_range (xyxy mbox) ->
    inside (xyxy mbox) (xyxy pbox) ->
    (inject_Z (py_mobile_zone (xyxy pbox)) < m_center_y (xyxy mbox))%Q ->
    pair_qualifies (xyxy pbox) (xyxy mbox) = true
    /\ 0 < intersection_area_int64 (xyxy pbox) (xyxy mbox)
    /\ mobile_in_hand (classify results) = true
    /\ person_present (classify results) = true.
Proof.
  intros results pbox mbox Hpb Hpc Hmb Hmc Hpr Hmr Hin Hzone.
  assert (Hq : pair_qualifies (xyxy pbox) (xyxy mbox) = true).
  { unfold pair_qualifies, vertical_prox.
    rewrite (horizontal_prox_inside _ _ Hin), (touches_inside _ _ Hin).
    apply Qltb_lt in Hzone. rewrite Hzone. reflexivity. }
  split; [exact Hq|]. split; [|split].
  - rewrite (intersection_area_in_pixel_range _ _ Hpr Hmr).
    apply (proj1 (touches_positive _ _)). apply touches_inside. exact Hin.
  - apply mobile_in_hand_iff. exists pbox, mbox. auto.
  - apply person_present_iff. exists pbox. auto.
Qed.

Lemma X2_phone_within_witness :
  mobile_in_hand (classify [[laptop]; [phone_in_hand; person]]) = true.
Proof.
  refine (proj1 (proj2 (proj2 (X2_phone_within_person_box_is_in_hand
                                 [[laptop]; [phone_in_hand; person]] person phone_in_hand
                                 _ _ _ _ _ _ _ _)))).
  - exists [phone_in_hand; person]. simpl. tauto.
  - reflexivity.
  - exists [phone_in_hand; person]. simpl. tauto.
  - reflexivity.
  - vm_compute. repeat split; discriminate.
  - vm_compute. repeat split; discriminate.
  - vm_compute. repeat split; discriminate.
  - vm_compute. reflexivity.
Defined.

(** X3: with coordinates in the pixel range, a person box without width or
    without height has an overlap of area 0 with any box, also as the int64
    product of lines 100-101, so it never puts a phone in hand; a frame with
    a person box whose person boxes are all of that kind is classified as
    person present and no phone in hand. *)
Theorem X3_degenerate_person_box_holds_no_phone :
  forall (results : Results),
    (forall box, has_box results box -> in_pixel_range (xyxy box)) ->
    (exists box, has_box results box /\ cls box = PERSON_CLASS_ID) ->
    (forall box, has_box results box -> cls box = PERSON_CLASS_ID ->
                 degenerate (xyxy box)) ->
    (forall box m, has_box results box -> cls box = PERSON_CLASS_ID ->
                   in_pixel_range m ->
                   intersection_area (xyxy box) m = 0
                   /\ intersection_area_int64 (xyxy box) m = 0
                   /\ pair_qualifies (xyxy box) m = false)
    /\ person_present (classify results) = true
    /\ mobile_in_hand (classify results) = false.
Proof.
  intros results Hrange Hperson Hdeg.
  assert (Hpair : forall box m, has_box results box -> cls box = PERSON_CLASS_ID ->
                    intersection_area (xyxy box) m = 0
                    /\ pair_qualifies (xyxy box) m = false).
  { intros box m Hb Hc. specialize (Hdeg box Hb Hc).
    destruct (xyxy box) as [[[px1 py1] px2] py2], m as [[[mx1 my1] mx2] my2].
    unfold degenerate in Hdeg.
    assert (Ha : intersection_area (px1, py1, px2, py2) (mx1, my1, mx2, my2) = 0).
    { unfold intersection_area. destruct Hdeg as [H | H].
      - rewrite (Z.max_l 0 (Z.min px2 mx2 - Z.max px1 mx1)) by lia. reflexivity.
      - rewrite (Z.max_l 0 (Z.min py2 my2 - Z.max py1 my1)) by lia. lia. }
    split; [exact Ha|].
    unfold pair_qualifies, touches. rewrite Ha, andb_false_r. reflexivity. }
  split; [|split].
  - intros box m Hb Hc Hm. destruct (Hpair box m Hb Hc) as [Ha Hq].
    split; [exact Ha|]. split; [|exact Hq].
    rewrite (intersection_area_in_pixel_range _ _ (Hrange box Hb) Hm). exact Ha.
  - apply person_present_iff. exact Hperson.
  - destruct (mobile_in_hand (classify results)) eqn:E; [|reflexivity].
    apply mobile_in_hand_iff in E as (pbox & mbox & Hpb & Hpc & _ & _ & Hq).
    destruct (Hpair pbox (xyxy mbox) Hpb Hpc) as [_ Hn]. congruence.
Qed.

Lemma X3_degenerate_witness :
  classify [[mkBox PERSON_CLASS_ID (50, 0, 50, 100); phone_in_hand]]
  = mkSnapshot true false false.
Proof.
  destruct (X3_degenerate_person_box_holds_no_phone
              [[mkBox PERSON_CLASS_ID (50, 0, 50, 100); phone_in_hand]])
    as (_ & Hp & Hm).
  - intros box (r & [<- | []] & [<- | [<- | []]]); vm_compute;
      repeat split; discriminate.
  - exists (mkBox PERSON_CLASS_ID (50, 0, 50, 100)).
    split; [exists [mkBox PERSON_CLASS_ID (50, 0, 50, 100); phone_in_hand]; simpl; tauto|].
    reflexivity.
  - intros box (r & [<- | []] & [<- | [<- | []]]) Hc.
    + left. reflexivity.
    + vm_compute in Hc. discriminate.
  - unfold classify in *. simpl mobile_in_hand in Hm. rewrite Hm. reflexivity.
Defined.

(* ===================================================================== *)
(** ** Further properties of the mobile tracker                           *)
(* ===================================================================== *)

(** The four ways through lines 125-135. *)
Lemma mobile_tracker_shape fps fc mobile start s evs :
  mobile_tracker fps fc mobile start = Ok (s, evs) ->
  (mobile = true /\ start = -1 /\ s = fc
   /\ evs = [mkEvent "mobile_in_hand_start" 0 fc])
  \/ (mobile = true /\ start <> -1 /\ s = start /\ evs = [])
  \/ (mobile = false /\ start <> -1 /\ s = -1
      /\ exists d, py_truediv (inject_Z (fc - start)) fps = Ok d
                   /\ evs = [mkEvent "mobile_in_hand_end" d fc])
  \/ (mobile = false /\ start = -1 /\ s = -1 /\ evs = []).
Proof.
  unfold mobile_tracker.
  destruct mobile, (start =? -1) eqn:E; simpl.
  - apply Z.eqb_eq in E. intros H; inversion H; subst.
    left. repeat split; reflexivity.
  - apply Z.eqb_neq in E. intros H; inversion H; subst.
    right; left. repeat split; trivial.
  - apply Z.eqb_eq in E. intros H; inversion H; subst.
    right; right; right. repeat split; reflexivity.
  - apply Z.eqb_neq in E.
    destruct (py_truediv _ _) as [d|] eqn:Ed; simpl; [|discriminate].
    intros H. inversion H; subst. right; right; left.
    split; [reflexivity|]. split; [exact E|]. split; [reflexivity|].
    exists d. split; reflexivity.
Qed.

Lemma filter_filter_sub {A : Type} (f g : A -> bool) (l : list A) :
  (forall x, f x = true -> g x = true) ->
  filter f (filter g l) = filter f l.
Proof.
  intros Hsub. induction l as [|x l IH]; simpl; [reflexivity|].
  destruct (g x) eqn:Eg; simpl.
  - rewrite IH. reflexivity.
  - destruct (f x) eqn:Ef; [|exact IH]. rewrite (Hsub x Ef) in Eg. discriminate.
Qed.

Lemma count_label_cons l o outs :
  count_label l (o :: outs)
  = Z.of_nat (List.length (filter (is_label l) (events o))) + count_label l outs.
Proof.
  unfold count_label, labelled, all_events. simpl.
  rewrite filter_app, length_app. lia.
Qed.

Section MobileTracker.

Context {Frame : Type} (model : Frame -> Results).

(** One iteration, seen from the mobile tracker. *)
Lemma mobile_step_shape fps self frame self' o :
  loop_body model fps self frame = Ok (self', o) ->
  mobile_tracker fps (frame_count self) (mobile_in_hand_state o)
                 (mobile_in_hand_start_frame self)
  = Ok (mobile_in_hand_start_frame self', filter is_mobile_event (events o))
  /\ filter (is_label "mobile_in_hand_start") (events o)
     = filter (is_label "mobile_in_hand_start") (filter is_mobile_event (events o))
  /\ filter (is_label "mobile_in_hand_end") (events o)
     = filter (is_label "mobile_in_hand_end") (filter is_mobile_event (events o))
  /\ frame_count self' = frame_count self + 1
  /\ last_mobile_in_hand self' = mobile_in_hand_state o.
Proof.
  intros Hb. pose proof (mobile_step model _ _ _ _ _ Hb) as [Hm Hfc].
  split; [exact Hm|].
  split; [|split; [|split; [exact Hfc|]]].
  - symmetry. apply filter_filter_sub. intros ev H.
    unfold is_mobile_event. rewrite H. reflexivity.
  - symmetry. apply filter_filter_sub. intros ev H.
    unfold is_mobile_event. rewrite H. apply orb_true_r.
  - apply loop_body_inv in Hb as (_ & _ & _ & _ & _ & _ & _ & Hca & Hco & _).
    rewrite <- Hca in Hco. unfold consumed, cached in Hco. congruence.
Qed.

Lemma mobile_balance_run fps frames : forall self self' outs,
  0 <= frame_count self ->
  frame_loop model fps self frames = Ok (self', outs) ->
  count_label "mobile_in_hand_start" outs - count_label "mobile_in_hand_end" outs
  = flag (mobile_active self') - flag (mobile_active self)
  /\ (frames <> [] -> mobile_active self' = last_mobile_in_hand self').
Proof.
  induction frames as [|f fs IH]; intros self self' outs Hfc Hrun.
  - simpl in Hrun. inversion Hrun; subst.
    split; [unfold count_label; simpl; lia | congruence].
  - apply frame_loop_cons_inv in Hrun as (s1 & o & os & Hb & Hl & ->).
    destruct (mobile_step_shape _ _ _ _ _ Hb) as (Hm & Hst & Hen & Hfc1 & Hlast).
    destruct (IH s1 self' os ltac:(lia) Hl) as [IHb IHa].
    rewrite !count_label_cons, Hst, Hen.
    assert (Hstep : Z.of_nat (List.length (filter (is_label "mobile_in_hand_start")
                                             (filter is_mobile_event (events o))))
                    - Z.of_nat (List.length (filter (is_label "mobile_in_hand_end")
                                               (filter is_mobile_event (events o))))
                    = flag (mobile_active s1) - flag (mobile_active self)
                    /\ mobile_active s1 = mobile_in_hand_state o).
    { unfold mobile_active.
      destruct (mobile_tracker_shape _ _ _ _ _ _ Hm)
        as [(Hmb & Hs & Hs1 & Hev) | [(Hmb & Hs & Hs1 & Hev)
            | [(Hmb & Hs & Hs1 & d & Hd & Hev) | (Hmb & Hs & Hs1 & Hev)]]];
        rewrite Hev, Hs1, Hmb; simpl.
      - rewrite Hs. simpl. destruct (frame_count self =? -1) eqn:E;
          [apply Z.eqb_eq in E; lia | split; reflexivity].
      - apply Z.eqb_neq in Hs. rewrite Hs. split; reflexivity.
      - apply Z.eqb_neq in Hs. rewrite Hs. split; reflexivity.
      - rewrite Hs. split; reflexivity. }
    destruct Hstep as [Hstep Hact]. split; [lia|].
    intros _. destruct fs as [|f' fs'].
    + simpl in Hl. inversion Hl; subst. congruence.
    + apply IHa. discriminate.
Qed.

End MobileTracker.

(** X4: over any run of the frame loop the [mobile_in_hand_start] events
    logged exceed the [mobile_in_hand_end] events by one exactly when the run
    takes the mobile tracker from idle to running, and once a frame has been
    processed the tracker is running exactly when the last frame showed the
    phone in hand.  From an idle tracker the events therefore pair up, except
    that a video ending with the phone in hand leaves its last start without
    an end. *)
Theorem X4_mobile_starts_and_ends_pair_up :
  forall (Frame : Type) (model : Frame -> Results) (fps : Q) (self : CCTVAnalyzer)
         (frames : list Frame) self' outs,
    0 <= frame_count self ->
    frame_loop model fps self frames = Ok (self', outs) ->
    count_label "mobile_in_hand_start" outs - count_label "mobile_in_hand_end" outs
    = flag (mobile_active self') - flag (mobile_active self)
    /\ (frames <> [] -> mobile_active self' = last_mobile_in_hand self')
    /\ (mobile_active self = false -> frames <> [] ->
        count_label "mobile_in_hand_start" outs
        = count_label "mobile_in_hand_end" outs + flag (last_mobile_in_hand self')).
Proof.
  intros Frame model fps self frames self' outs Hfc Hrun.
  destruct (mobile_balance_run model fps frames self self' outs Hfc Hrun) as [Hb Ha].
  split; [exact Hb|]. split; [exact Ha|].
  intros Hidle Hne. rewrite <- (Ha Hne). rewrite Hidle in Hb. simpl flag in Hb. lia.
Qed.

(** A six-frame video that ends with the phone in hand: one start, no end. *)
Lemma X4_mobile_pair_up_witness :
  count_label "mobile_in_hand_start"
    (outputs (analyze_video detector (init 30 10) 10
                (repeat idle_frame 5 ++ [mobile_frame]))) = 1
  /\ count_label "mobile_in_hand_end"
       (outputs (analyze_video detector (init 30 10) 10
                   (repeat idle_frame 5 ++ [mobile_frame]))) = 0.
Proof.
  pose (r := analyze_video detector (init 30 10) 10 (repeat idle_frame 5 ++ [mobile_frame])).
  assert (Hrun : frame_loop detector 10 (configure (init 30 10) 10)
                   (repeat idle_frame 5 ++ [mobile_frame]) = Ok (final r, outputs r))
    by (vm_compute; reflexivity).
  destruct (X4_mobile_starts_and_ends_pair_up
              Results detector 10 (configure (init 30 10) 10)
              (repeat idle_frame 5 ++ [mobile_frame]) (final r) (outputs r)
              ltac:(vm_compute; discriminate) Hrun) as (_ & _ & H).
  fold r. split; [|vm_compute; reflexivity].
  rewrite H; [vm_compute; reflexivity | reflexivity | discriminate].
Defined.

Section SamplingGrid.

Context {Frame : Type} (model : Frame -> Results).

Lemma mobile_active_true self :
  mobile_active self = true <-> mobile_in_hand_start_frame self <> -1.
Proof.
  unfold mobile_active. rewrite negb_true_iff. apply Z.eqb_neq.
Qed.

Lemma mobile_active_false self :
  mobile_active self = false <-> mobile_in_hand_start_frame self = -1.
Proof.
  unfold mobile_active. rewrite negb_false_iff. apply Z.eqb_eq.
Qed.

Lemma sampling_grid_step fps self frame self' o :
  mobile_in_step self ->
  loop_body model fps self frame = Ok (self', o) ->
  mobile_in_step self'
  /\ Forall (on_sampling_grid fps) (filter is_mobile_event (events o)).
Proof.
  intros (Hfc & Hagree & Hgrid) Hb.
  destruct (mobile_step_shape model _ _ _ _ _ Hb) as (Hm & _ & _ & Hfc1 & Hlast).
  assert (Hskip : frame_count self mod FRAME_SKIP <> 0 ->
                  mobile_in_hand_state o = mobile_active self).
  { intros Hmod. destruct (sampled_off model _ _ _ _ _ Hb Hmod) as (_ & Hco & _).
    rewrite Hagree. unfold consumed, cached in Hco. congruence. }
  unfold mobile_in_step. rewrite Hfc1, Hlast.
  destruct (mobile_tracker_shape _ _ _ _ _ _ Hm)
    as [(Hmb & Hs & Hs1 & Hev) | [(Hmb & Hs & Hs1 & Hev)
        | [(Hmb & Hs & Hs1 & d & Hd & Hev) | (Hmb & Hs & Hs1 & Hev)]]];
    rewrite Hev, Hmb.
  - assert (Hmod : frame_count self mod FRAME_SKIP = 0).
    { destruct (Z.eq_dec (frame_count self mod FRAME_SKIP) 0) as [E | E]; [exact E|].
      specialize (Hskip E). apply mobile_active_false in Hs. congruence. }
    split.
    + split; [lia|]. split; [apply mobile_active_true; lia|].
      intros _. rewrite Hs1. split; [exact Hmod | lia].
    + constructor; [|constructor]. split; [exact Hmod | discriminate].
  - pose proof (proj2 (mobile_active_true self) Hs) as Hact.
    destruct (Hgrid Hact) as [Hg Hb'].
    split; [|constructor].
    split; [lia|]. split; [apply mobile_active_true; congruence|].
    intros _. rewrite Hs1. split; [exact Hg | lia].
  - pose proof (proj2 (mobile_active_true self) Hs) as Hact.
    destruct (Hgrid Hact) as [Hg Hb'].
    assert (Hmod : frame_count self mod FRAME_SKIP = 0).
    { destruct (Z.eq_dec (frame_count self mod FRAME_SKIP) 0) as [E | E]; [exact E|].
      specialize (Hskip E). congruence. }
    split.
    + split; [lia|]. split; [apply mobile_active_false; exact Hs1|].
      intros Habs. apply mobile_active_true in Habs. contradiction.
    + constructor; [|constructor]. split; [exact Hmod|]. intros _.
      cbn [duration_seconds].
      exists ((frame_count self - mobile_in_hand_start_frame self) / FRAME_SKIP).
      unfold FRAME_SKIP in *.
      pose proof (Z.div_mod (frame_count self) 5 ltac:(lia)).
      pose proof (Z.div_mod (mobile_in_hand_start_frame self) 5 ltac:(lia)).
      assert (E : frame_count self - mobile_in_hand_start_frame self
                  = 5 * (frame_count self / 5 - mobile_in_hand_start_frame self / 5))
        by lia.
      assert (Ek : (frame_count self - mobile_in_hand_start_frame self) / 5
                   = frame_count self / 5 - mobile_in_hand_start_frame self / 5).
      { rewrite E at 1. rewrite Z.mul_comm. apply Z.div_mul. lia. }
      rewrite Ek. split; [lia|]. rewrite <- E. exact Hd.
  - split; [|constructor].
    split; [lia|]. split; [apply mobile_active_false; exact Hs1|].
    intros Habs. apply mobile_active_true in Habs. contradiction.
Qed.

Lemma sampling_grid_run fps frames : forall self self' outs,
  mobile_in_step self ->
  frame_loop model fps self frames = Ok (self', outs) ->
  mobile_in_step self' /\ Forall (on_sampling_grid fps) (mobile_events outs).
Proof.
  induction frames as [|f fs IH]; intros self self' outs Hinv Hrun.
  - simpl in Hrun. inversion Hrun; subst. split; [exact Hinv | constructor].
  - apply frame_loop_cons_inv in Hrun as (s1 & o & os & Hb & Hl & ->).
    destruct (sampling_grid_step _ _ _ _ _ Hinv Hb) as [Hinv1 Hev].
    destruct (IH s1 self' os Hinv1 Hl) as [Hinv2 Hevs].
    split; [exact Hinv2|]. rewrite mobile_events_cons. apply Forall_app. auto.
Qed.

End SamplingGrid.

(** X5: in a run of [analyze_video] on a fresh analyzer the mobile tracker
    only reacts on sampled frames: every [mobile_in_hand_start] and
    [mobile_in_hand_end] event is logged on a frame whose index is a multiple
    of [FRAME_SKIP], and the duration of every end is that of a positive
    whole number of sampling periods, [FRAME_SKIP * k / fps]. *)
Theorem X5_mobile_events_fall_on_sampled_frames :
  forall (Frame : Type) (model : Frame -> Results) (secs target : Z) (cap_fps : Q)
         (frames : list Frame) self' outs,
    analyze_video model (init secs target) cap_fps frames = Ok (self', outs) ->
    Forall (on_sampling_grid (working_fps (init secs target) cap_fps)) (mobile_events outs)
    /\ mobile_active self' = last_mobile_in_hand self'.
Proof.
  intros Frame model secs target cap_fps frames self' outs Hrun.
  unfold analyze_video in Hrun.
  assert (Hinv : mobile_in_step
                   (configure (init secs target) (working_fps (init secs target) cap_fps))).
  { split; [simpl; lia|]. split; [reflexivity|]. intros H. discriminate. }
  destruct (sampling_grid_run model _ _ _ _ _ Hinv Hrun) as [(_ & Hag & _) Hev].
  auto.
Qed.

(** Detections that change on every frame: the phone is in hand on frames
    3-11 only, and the tracker sees it on the sampled frames 5 and 10. *)
Lemma X5_mobile_events_witness :
  Forall (on_sampling_grid 10)
    (mobile_events
       (outputs (analyze_video detector (init 30 10) 10
                   (repeat idle_frame 3 ++ repeat mobile_frame 9 ++ repeat idle_frame 4))))
  /\ mobile_events
       (outputs (analyze_video detector (init 30 10) 10
                   (repeat idle_frame 3 ++ repeat mobile_frame 9 ++ repeat idle_frame 4)))
     = [mkEvent "mobile_in_hand_start" 0 5; mkEvent "mobile_in_hand_end" 1 15].
Proof.
  pose (frames := repeat idle_frame 3 ++ repeat mobile_frame 9 ++ repeat idle_frame 4).
  pose (r := analyze_video detector (init 30 10) 10 frames).
  assert (Hrun : analyze_video detector (init 30 10) 10 frames = Ok (final r, outputs r))
    by (vm_compute; reflexivity).
  pose proof (X5_mobile_events_fall_on_sampled_frames
                Results detector 30 10 10 frames (final r) (outputs r) Hrun) as [H _].
  split; [exact H | vm_compute; reflexivity].
Defined.

(* ===================================================================== *)
(** ** Further properties of the off-camera tracker                       *)
(* ===================================================================== *)

Section OffCameraTracker.

Context {Frame : Type} (model : Frame -> Results).

Lemma elapsed_bounds self :
  off_camera_in_step self ->
  0 <= elapsed self <= alert_duration_frames self
  /\ ((off_camera_start_frame self = -1 /\ elapsed self = 0)
      \/ (0 <= off_camera_start_frame self
          /\ elapsed self = frame_count self - off_camera_start_frame self)).
Proof.
  intros (Hfc & HT & [Hs | [Hs Hle]]); unfold elapsed.
  - rewrite Hs. simpl. split; [lia | left; auto].
  - destruct (off_camera_start_frame self =? -1) eqn:E.
    + apply Z.eqb_eq in E. lia.
    + split; [lia | right; split; [lia | reflexivity]].
Qed.

Lemma off_camera_step fps self frame self' o :
  off_camera_in_step self ->
  loop_body model fps self frame = Ok (self', o) ->
  off_camera_in_step self'
  /\ Forall (fun ev => py_truediv (inject_Z (alert_duration_frames self)) fps
                       = Ok (duration_seconds ev)
                       /\ at_frame ev = frame_count self)
            (filter is_alert (events o))
  /\ (alert_duration_frames self + 1) * Z.of_nat (List.length (filter is_alert (events o)))
     + elapsed self'
     <= elapsed self + flag (off_camera o).
Proof.
  intros Hinv Hb.
  destruct (elapsed_bounds self Hinv) as [He Hst].
  destruct Hinv as (Hfc & HT & _).
  pose proof (loop_body_inv model _ _ _ _ _ Hb)
    as (_ & _ & _ & _ & _ & Hfc1 & Hth1 & _).
  unfold off_camera. destruct (is_person_present o) eqn:Ep.
  - destruct (present_step model _ _ _ _ _ Hb Ep) as [Hs Hal].
    assert (Hel : elapsed self' = 0) by (unfold elapsed; rewrite Hs; reflexivity).
    rewrite Hal, Hel. unfold off_camera_in_step. rewrite Hs, Hfc1, Hth1.
    split; [split; [lia | split; [lia | left; reflexivity]]|].
    split; [apply Forall_nil | simpl; lia].
  - destruct (absent_step model _ _ _ _ _ Hb Ep) as (evs & Hma & Hev & _).
    rewrite Hev.
    destruct (missing_alert_elapsed _ _ _ _ (elapsed self) _ _ Hst Hma) as [Hfire Hwait].
    destruct (Z_lt_ge_dec (elapsed self) (alert_duration_frames self)) as [Hlt | Hge].
    + destruct (Hwait Hlt) as [Hs ->].
      assert (Hs0 : 0 <= off_camera_start_frame self').
      { destruct Hst as [[_ E] | [H0 E]]; lia. }
      assert (Hel : elapsed self' = elapsed self + 1).
      { unfold elapsed at 1.
        destruct (off_camera_start_frame self' =? -1) eqn:E;
          [apply Z.eqb_eq in E; lia | lia]. }
      unfold off_camera_in_step. rewrite Hfc1, Hth1, Hel.
      split; [split; [lia | split; [lia | right; lia]]|].
      split; [apply Forall_nil | simpl; lia].
    + destruct (Hfire ltac:(lia)) as (Hs & d & Hd & ->).
      assert (E : elapsed self = alert_duration_frames self) by lia.
      assert (Hel : elapsed self' = 0) by (unfold elapsed; rewrite Hs; reflexivity).
      unfold off_camera_in_step. rewrite Hs, Hfc1, Hth1, Hel.
      split; [split; [lia | split; [lia | left; reflexivity]]|].
      split; [|simpl; lia].
      apply Forall_cons; [|apply Forall_nil]. cbn [duration_seconds at_frame].
      rewrite <- E. auto.
Qed.

Lemma off_camera_run fps frames : forall self self' outs,
  off_camera_in_step self ->
  frame_loop model fps self frames = Ok (self', outs) ->
  off_camera_in_step self'
  /\ Forall (fun ev => py_truediv (inject_Z (alert_duration_frames self)) fps
                       = Ok (duration_seconds ev)
                       /\ frame_count self <= at_frame ev < frame_count self') (alerts outs)
  /\ (alert_duration_frames self + 1) * Z.of_nat (List.length (alerts outs))
     + elapsed self'
     <= elapsed self + count off_camera outs.
Proof.
  induction frames as [|f fs IH]; intros self self' outs Hinv Hrun.
  - simpl in Hrun. inversion Hrun; subst. unfold count. simpl.
    split; [exact Hinv|]. split; [constructor | lia].
  - apply frame_loop_cons_inv in Hrun as (s1 & o & os & Hb & Hl & ->).
    destruct (off_camera_step _ _ _ _ _ Hinv Hb) as (Hinv1 & Hev & Hcount).
    pose proof (loop_body_inv model _ _ _ _ _ Hb)
      as (_ & _ & _ & _ & _ & Hfc1 & Hth1 & _).
    destruct (frame_loop_shape model _ _ _ _ _ Hl) as (_ & Hfc2 & _).
    destruct (IH s1 self' os Hinv1 Hl) as (Hinv2 & Hevs & Hcounts).
    rewrite Hth1 in *.
    split; [exact Hinv2|]. split.
    + rewrite alerts_cons. apply Forall_app. split.
      * eapply Forall_impl; [|exact Hev]. intros ev [Hd Hat]. split; [exact Hd | lia].
      * eapply Forall_impl; [|exact Hevs]. intros ev [Hd Hat]. split; [exact Hd | lia].
    + rewrite alerts_cons, length_app, count_cons.
      unfold flag in Hcount. lia.
Qed.

End OffCameraTracker.

(** X6: over any run of the frame loop that starts with the off-camera
    tracker idle, every [person_missing_alert] stands for [T + 1] off-camera
    frames of its own, [T] being [alert_duration_frames]: the number of alerts
    times [T + 1] never exceeds the number of frames without a person,
    whatever the order of the frames with and without a person. *)
Theorem X6_each_alert_takes_threshold_plus_one_absent_frames :
  forall (Frame : Type) (model : Frame -> Results) (fps : Q) (self : CCTVAnalyzer)
         (frames : list Frame) self' outs,
    0 <= frame_count self ->
    0 <= alert_duration_frames self ->
    off_camera_start_frame self = -1 ->
    frame_loop model fps self frames = Ok (self', outs) ->
    (alert_duration_frames self + 1) * Z.of_nat (List.length (alerts outs))
    <= count off_camera outs
    /\ count off_camera outs
       = off_camera_frames (stats self') - off_camera_frames (stats self).
Proof.
  intros Frame model fps self frames self' outs Hfc HT Hidle Hrun.
  assert (Hinv : off_camera_in_step self) by (repeat split; auto).
  destruct (off_camera_run model fps frames self self' outs Hinv Hrun)
    as (Hinv' & _ & Hcount).
  destruct (elapsed_bounds self' Hinv') as [He' _].
  assert (E0 : elapsed self = 0) by (unfold elapsed; rewrite Hidle; reflexivity).
  split; [lia|].
  clear - Hrun. revert self self' outs Hrun.
  induction frames as [|f fs IH]; intros self self' outs Hrun.
  - simpl in Hrun. inversion Hrun; subst. unfold count. simpl. lia.
  - apply frame_loop_cons_inv in Hrun as (s1 & o & os & Hb & Hl & ->).
    destruct (loop_body_counters model _ _ _ _ _ Hb) as (_ & Ho & _).
    rewrite count_cons, (IH _ _ _ Hl). lia.
Qed.

(** Threshold 2 frames: the person is away for five frames, back for five
    and away for five again; each absence is long enough for one alert and
    too short for two. *)
Lemma X6_each_alert_witness :
  let r := analyze_video detector (init 2 1) 1
             (repeat empty_frame 5 ++ repeat idle_frame 5 ++ repeat empty_frame 5) in
  List.length (alerts (outputs r)) = 2%nat
  /\ 3 * 2 <= count off_camera (outputs r).
Proof.
  intros r.
  assert (Hrun : frame_loop detector 1 (configure (init 2 1) 1)
                   (repeat empty_frame 5 ++ repeat idle_frame 5 ++ repeat empty_frame 5)
                 = Ok (final r, outputs r)) by (vm_compute; reflexivity).
  destruct (X6_each_alert_takes_threshold_plus_one_absent_frames
              Results detector 1 (configure (init 2 1) 1) _ (final r) (outputs r)
              ltac:(vm_compute; discriminate) ltac:(vm_compute; discriminate)
              eq_refl Hrun) as [H _].
  assert (E : List.length (alerts (outputs r)) = 2%nat) by (vm_compute; reflexivity).
  split; [exact E|]. rewrite E in H. exact H.
Defined.

Lemma py_int_floor (q : Q) : (0 <= q)%Q -> py_int q = Qfloor q.
Proof.
  destruct q as [n d]. unfold Qle, py_int, Qfloor. simpl. intros H.
  apply Z.quot_div_nonneg; lia.
Qed.

Lemma py_int_bounds (q : Q) :
  (0 <= q)%Q ->
  0 <= py_int q /\ (inject_Z (py_int q) <= q)%Q /\ (q < inject_Z (py_int q + 1))%Q.
Proof.
  intros H. rewrite (py_int_floor q H). split; [|split].
  - change 0 with (Qfloor 0). apply Qfloor_resp_le. exact H.
  - apply Qfloor_le.
  - apply Qlt_floor.
Qed.

Lemma whole_fps_positive (fps : Q) (k : Z) :
  whole_fps fps k -> (0 < fps)%Q /\ ~ (fps == 0)%Q.
Proof.
  intros [Hk Hfps].
  assert (H : (0 < fps)%Q).
  { rewrite Hfps. change 0%Q with (inject_Z 0). rewrite <- Zlt_Qlt. exact Hk. }
  split; [exact H|]. intros E. rewrite E in H. discriminate.
Qed.

(** X7: at a frame rate of a whole number [k] of frames per second, where
    the double product [fps * ALERT_DURATION_SECONDS] of line 52 is the
    exact one, a run of [analyze_video] on a fresh analyzer with a
    non-negative alert setting has a threshold of exactly
    [k * ALERT_DURATION_SECONDS] frames, and every [person_missing_alert] it
    logs carries exactly [ALERT_DURATION_SECONDS] as its duration. *)
Theorem X7_whole_fps_alert_lasts_the_setting :
  forall (Frame : Type) (model : Frame -> Results) (secs target : Z) (cap_fps : Q)
         (frames : list Frame) (k : Z) self' outs,
    0 <= secs ->
    whole_fps (working_fps (init secs target) cap_fps) k ->
    k * secs < double_limit ->
    analyze_video model (init secs target) cap_fps frames = Ok (self', outs) ->
    alert_duration_frames self' = k * secs
    /\ Forall (fun ev => (duration_seconds ev == inject_Z secs)%Q) (alerts outs).
Proof.
  intros Frame model secs target cap_fps frames k self' outs Hsecs Hwhole _ Hrun.
  unfold analyze_video in Hrun.
  remember (working_fps (init secs target) cap_fps) as fps eqn:Efps.
  clear Efps.
  destruct (whole_fps_positive _ _ Hwhole) as [Hfps Hnz].
  destruct Hwhole as [Hk Hfk].
  assert (HT : py_int (fps * inject_Z secs) = k * secs).
  { rewrite py_int_floor.
    - rewrite (Qfloor_comp _ (inject_Z (k * secs))); [apply Qfloor_Z|].
      rewrite Hfk, inject_Z_mult. reflexivity.
    - apply Qmult_le_0_compat; [apply Qlt_le_weak; exact Hfps|].
      change 0%Q with (inject_Z 0). rewrite <- Zle_Qle. exact Hsecs. }
  destruct (frame_loop_shape model _ _ _ _ _ Hrun) as (_ & _ & Hth).
  change (alert_duration_frames (configure (init secs target) fps))
    with (py_int (fps * inject_Z secs)) in Hth.
  assert (Hinv : off_camera_in_step (configure (init secs target) fps)).
  { split; [simpl; lia|]. split; [|left; reflexivity].
    change (alert_duration_frames (configure (init secs target) fps))
      with (py_int (fps * inject_Z secs)). rewrite HT. lia. }
  destruct (off_camera_run model _ _ _ _ _ Hinv Hrun) as (_ & Hev & _).
  split; [rewrite Hth; exact HT|].
  eapply Forall_impl; [|exact Hev]. intros ev [Hd _].
  change (alert_duration_frames (configure (init secs target) fps))
    with (py_int (fps * inject_Z secs)) in Hd.
  rewrite HT, py_truediv_ok in Hd by exact Hnz.
  assert (E : duration_seconds ev = Qred (inject_Z (k * secs) / fps)) by congruence.
  rewrite E, Qred_correct, Hfk, inject_Z_mult. field.
  intros Hz. rewrite <- Hfk in Hz. contradiction.
Qed.

(** A source at 3 fps with a two-second setting: the threshold is 6 frames
    and the alert of frame 6 reports 2 s. *)
Lemma X7_whole_fps_alert_witness :
  let r := analyze_video detector (init 2 30) 3 (repeat empty_frame 7) in
  alert_duration_frames (final r) = 6
  /\ alerts (outputs r) = [mkEvent "person_missing_alert" 2 6]
  /\ Forall (fun ev => (duration_seconds ev == 2)%Q) (alerts (outputs r)).
Proof.
  intros r.
  assert (Hrun : analyze_video detector (init 2 30) 3 (repeat empty_frame 7)
                 = Ok (final r, outputs r)) by (vm_compute; reflexivity).
  destruct (X7_whole_fps_alert_lasts_the_setting
              Results detector 2 30 3 (repeat empty_frame 7) 3 (final r) (outputs r)
              ltac:(lia) ltac:(split; [lia | reflexivity]) ltac:(vm_compute; reflexivity)
              Hrun) as [HT H].
  split; [exact HT|]. split; [vm_compute; reflexivity | exact H].
Defined.

(* ===================================================================== *)
(** ** Further properties of the frame loop                               *)
(* ===================================================================== *)

Section PhoneFrames.

Context {Frame : Type} (model : Frame -> Results).

Lemma phone_frame_step fps self frame self' o :
  cache_coherent self ->
  loop_body model fps self frame = Ok (self', o) ->
  cache_coherent self'
  /\ phone_frame_is_a_person_frame o
  /\ on_mobile o = mobile_in_hand_state o.
Proof.
  intros Hco Hb.
  pose proof (loop_body_inv model _ _ _ _ _ Hb)
    as (mevs & aevs & _ & Ha & _ & _ & _ & Hca & Hcons & _).
  assert (Himp : mobile_in_hand_state o = true -> is_person_present o = true).
  { assert (Hs : mobile_in_hand (sampled model self frame) = true ->
                 person_present (sampled model self frame) = true).
    { unfold sampled. destruct (_ =? 0); [apply mobile_needs_person | exact Hco]. }
    rewrite <- Hcons in Hs. exact Hs. }
  split; [|split].
  - unfold cache_coherent. rewrite <- Hcons in Hca.
    unfold cached, consumed in Hca. intros H.
    assert (E1 : last_mobile_in_hand self' = mobile_in_hand_state o) by congruence.
    assert (E2 : last_person_present self' = is_person_present o) by congruence.
    rewrite E2. apply Himp. congruence.
  - intros Hm. pose proof (Himp Hm) as Hp. split; [exact Hp|].
    destruct (present_step model _ _ _ _ _ Hb Hp) as [_ Hal].
    split; [|exact Hal].
    apply activity_branch in Ha as [_ Hbr]. rewrite <- Hcons in Hbr. simpl in Hbr.
    rewrite Hp, Hm in Hbr. tauto.
  - unfold on_mobile. destruct (mobile_in_hand_state o) eqn:Em.
    + rewrite (Himp eq_refl). reflexivity.
    + apply andb_false_r.
Qed.

Lemma phone_frame_run fps frames : forall self self' outs,
  cache_coherent self ->
  frame_loop model fps self frames = Ok (self', outs) ->
  cache_coherent self'
  /\ Forall phone_frame_is_a_person_frame outs
  /\ count on_mobile outs = count mobile_in_hand_state outs.
Proof.
  induction frames as [|f fs IH]; intros self self' outs Hco Hrun.
  - simpl in Hrun. inversion Hrun; subst. split; [exact Hco|]. split; [constructor|].
    reflexivity.
  - apply frame_loop_cons_inv in Hrun as (s1 & o & os & Hb & Hl & ->).
    destruct (phone_frame_step _ _ _ _ _ Hco Hb) as (Hco1 & Hp & Hon).
    destruct (IH s1 self' os Hco1 Hl) as (Hco2 & Hps & Hcount).
    split; [exact Hco2|]. split; [constructor; assumption|].
    rewrite !count_cons, Hon, Hcount. reflexivity.
Qed.

End PhoneFrames.

(** X8: in a run of [analyze_video] on a fresh analyzer a frame is never
    tracked as showing a phone in hand without a person: every such frame is
    labelled "Using Mobile Phone" and logs no alert, so
    [mobile_in_hand_frames] is exactly the number of frames tracked with the
    phone in hand. *)
Theorem X8_phone_in_hand_frames_are_person_frames :
  forall (Frame : Type) (model : Frame -> Results) (secs target : Z) (cap_fps : Q)
         (frames : list Frame) self' outs,
    analyze_video model (init secs target) cap_fps frames = Ok (self', outs) ->
    Forall phone_frame_is_a_person_frame outs
    /\ mobile_in_hand_frames (stats self') = count mobile_in_hand_state outs.
Proof.
  intros Frame model secs target cap_fps frames self' outs Hrun.
  unfold analyze_video in Hrun.
  assert (Hco : cache_coherent
                  (configure (init secs target) (working_fps (init secs target) cap_fps)))
    by (intros H; discriminate).
  destruct (phone_frame_run model _ _ _ _ _ Hco Hrun) as (_ & Hps & Hcount).
  split; [exact Hps|].
  destruct (frame_loop_counters model _ _ _ _ _ Hrun eq_refl) as (_ & _ & Hm & _).
  rewrite Hm, Hcount. simpl. lia.
Qed.

(** The phone is seen on frame 0 and tracked on frames 0-4 although the
    person has left the picture after frame 0. *)
Lemma X8_phone_in_hand_witness :
  mobile_in_hand_frames
    (stats (final (analyze_video detector (init 30 10) 10
                     (mobile_frame :: repeat empty_frame 5)))) = 5
  /\ count is_person_present
       (outputs (analyze_video detector (init 30 10) 10
                   (mobile_frame :: repeat empty_frame 5))) = 5.
Proof.
  pose (r := analyze_video detector (init 30 10) 10 (mobile_frame :: repeat empty_frame 5)).
  assert (Hrun : analyze_video detector (init 30 10) 10
                   (mobile_frame :: repeat empty_frame 5) = Ok (final r, outputs r))
    by (vm_compute; reflexivity).
  destruct (X8_phone_in_hand_frames_are_person_frames
              Results detector 30 10 10 _ (final r) (outputs r) Hrun) as [_ H].
  fold r. rewrite H. split; vm_compute; reflexivity.
Defined.

Section Settings.

Context {Frame : Type} (model : Frame -> Results).

Lemma activity_keeps_fps fps fc threshold snap start st s st' lbl evs :
  activity fps fc threshold snap start st = Ok (s, st', lbl, evs) ->
  current_fps st' = current_fps st.
Proof.
  unfold activity. destruct (person_present snap).
  - destruct (mobile_in_hand snap); [|destruct (laptop_or_keyboard_present snap)];
      intros H; inversion H; subst; reflexivity.
  - destruct (missing_alert _ _ _ _) as [[s1 e1]|]; simpl; [|discriminate].
    intros H; inversion H; subst. reflexivity.
Qed.

Lemma loop_body_settings fps self frame self' o :
  loop_body model fps self frame = Ok (self', o) ->
  ALERT_DURATION_SECONDS self' = ALERT_DURATION_SECONDS self
  /\ TARGET_FPS self' = TARGET_FPS self
  /\ current_fps (stats self') = current_fps (stats self).
Proof.
  unfold loop_body.
  destruct (mobile_tracker _ _ _ _) as [[mstart mevs]|]; simpl; [|discriminate].
  destruct (activity _ _ _ _ _ _) as [[[[ostart st1] lbl] aevs]|] eqn:Ea; simpl;
    [|discriminate].
  destruct (timer _ _ _ _) as [t|]; simpl; [|discriminate].
  apply activity_keeps_fps in Ea.
  intros H. inversion H; subst. simpl in *. auto.
Qed.

(** The loop never touches the settings of the analyzer. *)
Lemma frame_loop_settings fps frames : forall self self' outs,
  frame_loop model fps self frames = Ok (self', outs) ->
  ALERT_DURATION_SECONDS self' = ALERT_DURATION_SECONDS self
  /\ TARGET_FPS self' = TARGET_FPS self
  /\ current_fps (stats self') = current_fps (stats self)
  /\ alert_duration_frames self' = alert_duration_frames self.
Proof.
  induction frames as [|f fs IH]; intros self self' outs Hrun.
  - simpl in Hrun. inversion Hrun; subst. auto.
  - apply frame_loop_cons_inv in Hrun as (s1 & o & os & Hb & Hl & ->).
    destruct (loop_body_settings _ _ _ _ _ Hb) as (H1 & H2 & H3).
    pose proof (loop_body_inv model _ _ _ _ _ Hb) as (_ & _ & _ & _ & _ & _ & H4 & _).
    destruct (IH _ _ _ Hl) as (I1 & I2 & I3 & I4).
    repeat split; congruence.
Qed.

Lemma configure_again fps self self' outs frames :
  frame_loop model fps (configure self fps) frames = Ok (self', outs) ->
  configure self' fps = self'.
Proof.
  intros Hrun. destruct (frame_loop_settings _ _ _ _ _ Hrun) as (H1 & H2 & H3 & H4).
  simpl in H1, H3, H4.
  destruct self' as [a t os ms fc th lp lm ll [tv oc mi wf cf]].
  unfold configure. simpl in *. subst. reflexivity.
Qed.

End Settings.

(** X9: the analyzer is not reset between videos.  Analyzing a second
    source of the same fps with the same object continues the first run:
    the result is that of one video made of the frames of both, with the frame
    count, the counters, the cached detections and both trackers carried
    over. *)
Theorem X9_analyze_video_continues_the_previous_run :
  forall (Frame : Type) (model : Frame -> Results) (self : CCTVAnalyzer) (cap_fps : Q)
         (frames1 frames2 : list Frame) self1 outs1 self2 outs2,
    analyze_video model self cap_fps frames1 = Ok (self1, outs1) ->
    analyze_video model self1 cap_fps frames2 = Ok (self2, outs2) ->
    analyze_video model self cap_fps (frames1 ++ frames2) = Ok (self2, outs1 ++ outs2)
    /\ frame_count self2
       = frame_count self + Z.of_nat (List.length frames1 + List.length frames2).
Proof.
  intros Frame model self cap_fps frames1 frames2 self1 outs1 self2 outs2 H1 H2.
  unfold analyze_video in *.
  destruct (frame_loop_settings model _ _ _ _ _ H1) as (_ & Ht & _).
  assert (Hfps : working_fps self1 cap_fps = working_fps self cap_fps).
  { unfold working_fps. simpl in Ht. rewrite Ht. reflexivity. }
  rewrite Hfps in H2.
  rewrite (configure_again model _ _ _ _ _ H1) in H2.
  split; [exact (frame_loop_app model _ _ _ _ _ _ _ _ H1 H2)|].
  destruct (frame_loop_shape model _ _ _ _ _ H1) as (_ & Hf1 & _).
  destruct (frame_loop_shape model _ _ _ _ _ H2) as (_ & Hf2 & _).
  simpl in Hf1. lia.
Qed.

(** Two videos of three frames each without a person, threshold 4 frames:
    neither is long enough for an alert by itself, and the second one logs
    the alert of an absence that began in the first. *)
Lemma X9_analyze_video_continues_witness :
  let r1 := analyze_video detector (init 4 1) 1 (repeat empty_frame 3) in
  let r2 := analyze_video detector (final r1) 1 (repeat empty_frame 3) in
  alerts (outputs r1) = []
  /\ alerts (outputs r2) = [mkEvent "person_missing_alert" 4 4]
  /\ analyze_video detector (init 4 1) 1 (repeat empty_frame 3 ++ repeat empty_frame 3)
     = Ok (final r2, outputs r1 ++ outputs r2).
Proof.
  intros r1 r2.
  split; [vm_compute; reflexivity|]. split; [vm_compute; reflexivity|].
  refine (proj1 (X9_analyze_video_continues_the_previous_run
                   Results detector (init 4 1) 1 (repeat empty_frame 3)
                   (repeat empty_frame 3) (final r1) (outputs r1) (final r2) (outputs r2)
                   _ _)).
  - vm_compute. reflexivity.
  - vm_compute. reflexivity.
Defined.

(* ===================================================================== *)
(** ** Further properties of the report                                   *)
(* ===================================================================== *)





Lemma Qfloor_unique (x : Q) (z : Z) :
  (inject_Z z <= x)%Q -> (x < inject_Z (z + 1))%Q -> Qfloor x = z.
Proof.
  intros Hlo Hhi. apply Z.le_antisymm.
  - assert (H : (inject_Z (Qfloor x) < inject_Z (z + 1))%Q)
      by (eapply Qle_lt_trans; [apply Qfloor_le | exact Hhi]).
    rewrite <- Zlt_Qlt in H. lia.
  - rewrite <- (Qfloor_Z z). apply Qfloor_resp_le. exact Hlo.
Qed.

Lemma Qfloor_div_Z (x : Q) (k : Z) :
  0 < k -> Qfloor (x / inject_Z k) = Qfloor x / k.
Proof.
  intros Hk.
  assert (Hkq : (0 < inject_Z k)%Q) by (change 0%Q with (inject_Z 0); rewrite <- Zlt_Qlt; lia).
  pose proof (Z.div_mod (Qfloor x) k ltac:(lia)) as Hdm.
  pose proof (Z.mod_pos_bound (Qfloor x) k Hk) as Hmod.
  apply Qfloor_unique.
  - apply Qle_shift_div_l; [exact Hkq|].
    apply Qle_trans with (inject_Z (Qfloor x)); [|apply Qfloor_le].
    rewrite <- inject_Z_mult, <- Zle_Qle. lia.
  - apply Qlt_shift_div_r; [exact Hkq|].
    apply Qlt_le_trans with (inject_Z (Qfloor x + 1)); [apply Qlt_floor|].
    rewrite <- inject_Z_mult, <- Zle_Qle. lia.
Qed.

Lemma Qfloor_sub_Z (x : Q) (n : Z) : Qfloor (x - inject_Z n) = Qfloor x - n.
Proof.
  apply Qfloor_unique.
  - unfold Zminus. rewrite inject_Z_plus, inject_Z_opp.
    apply Qplus_le_l with (z := inject_Z n). ring_simplify. apply Qfloor_le.
  - replace (Qfloor x - n + 1) with (Qfloor x + 1 + - n) by lia.
    rewrite inject_Z_plus, inject_Z_opp.
    apply Qplus_lt_l with (z := inject_Z n). ring_simplify.
    pose proof (Qlt_floor x) as H. rewrite inject_Z_plus in H.
    setoid_replace (inject_Z (Qfloor x + 1)) with (inject_Z (Qfloor x) + 1)%Q
      by (rewrite inject_Z_plus; reflexivity).
    exact H.
Qed.

Lemma py_int_inject (z : Z) : py_int (inject_Z z) = z.
Proof. unfold py_int. simpl. apply Z.quot_1_r. Qed.

Lemma py_floordiv_int (x : Q) (k : Z) :
  0 < k -> py_int (py_floordiv x k) = Qfloor x / k.
Proof.
  intros Hk. unfold py_floordiv. rewrite py_int_inject. apply Qfloor_div_Z. exact Hk.
Qed.

Lemma py_mod_floor (x : Q) (k : Z) :
  0 < k ->
  Qfloor (py_mod x k) = Qfloor x mod k /\ py_int (py_mod x k) = Qfloor x mod k.
Proof.
  intros Hk.
  assert (E : Qfloor (py_mod x k) = Qfloor x mod k).
  { unfold py_mod. rewrite (Qfloor_comp _ _ (Qred_correct _)).
    rewrite <- inject_Z_mult, Qfloor_sub_Z, Qfloor_div_Z by exact Hk.
    pose proof (Z.div_mod (Qfloor x) k ltac:(lia)). lia. }
  split; [exact E|].
  rewrite py_int_floor; [exact E|].
  apply Qle_trans with (inject_Z (Qfloor (py_mod x k))); [|apply Qfloor_le].
  rewrite E. change 0%Q with (inject_Z 0). rewrite <- Zle_Qle.
  apply Z.mod_pos_bound. exact Hk.
Qed.

(** A double within rounding of the quotient of a frame count below
    [2 ^ 53] by a whole number has the whole part of the exact quotient:
    the rounding error is too small to reach the next integer, and an
    integer quotient is a double. *)
Lemma double_quotient_floor (x : Q) (n k : Z) :
  0 <= n < double_limit -> 0 < k ->
  double_of x (inject_Z n / inject_Z k) ->
  Qfloor x = n / k.
Proof.
  intros Hn Hk [Hnear Hexact].
  unfold double_limit in *. change (2 ^ 53) with 9007199254740992 in *.
  pose proof (Z.div_mod n k ltac:(lia)) as Hdm.
  pose proof (Z.mod_pos_bound n k Hk) as Hmod.
  assert (Hm : 0 <= n / k <= n).
  { split; [apply Z.div_pos; lia|]. apply Z.div_le_upper_bound; nia. }
  set (m := n / k) in *. set (r := n mod k) in *.
  assert (Hkq : (0 < inject_Z k)%Q)
    by (change 0%Q with (inject_Z 0); rewrite <- Zlt_Qlt; lia).
  assert (Hnq : (inject_Z n == inject_Z k * inject_Z m + inject_Z r)%Q).
  { rewrite <- inject_Z_mult, <- inject_Z_plus, Hdm. reflexivity. }
  set (q := (inject_Z n / inject_Z k)%Q) in *.
  assert (Hq : (q * inject_Z k == inject_Z n)%Q).
  { unfold q. field. intros E. rewrite E in Hkq. discriminate. }
  destruct (Z.eq_dec r 0) as [Hr | Hr].
  - assert (E : (q == inject_Z m)%Q).
    { unfold q. rewrite Hnq, Hr. field. intros E. rewrite E in Hkq. discriminate. }
    rewrite (Qfloor_comp x (inject_Z m)); [apply Qfloor_Z|].
    rewrite <- E. apply Hexact. exists m. split; [lia | exact E].
  - assert (Hq0 : (0 <= q)%Q).
    { unfold q. apply Qle_shift_div_l; [exact Hkq|]. rewrite Qmult_0_l.
      change 0%Q with (inject_Z 0). rewrite <- Zle_Qle. lia. }
    rewrite (Qabs_pos q Hq0) in Hnear.
    assert (Hr1 : (1 <= inject_Z r)%Q)
      by (change 1%Q with (inject_Z 1); rewrite <- Zle_Qle; lia).
    assert (Hr2 : (inject_Z r <= inject_Z k - 1)%Q).
    { change 1%Q with (inject_Z 1). unfold Qminus.
      rewrite <- inject_Z_opp, <- inject_Z_plus, <- Zle_Qle. lia. }
    assert (Hn2 : (inject_Z n <= 9007199254740991)%Q).
    { change 9007199254740991%Q with (inject_Z 9007199254740991).
      rewrite <- Zle_Qle. lia. }
    set (a := Qabs (x - q)) in *.
    assert (Hax : (- a <= x - q <= a)%Q) by (apply Qabs_Qle_condition; apply Qle_refl).
    change (inject_Z 9007199254740992) with 9007199254740992%Q in Hnear.
    assert (Hak : (a * inject_Z k < 1)%Q).
    { assert (H1 : (a * 9007199254740992 * inject_Z k <= q * inject_Z k)%Q)
        by (apply Qmult_le_compat_r; [exact Hnear | apply Qlt_le_weak; exact Hkq]).
      rewrite Hq in H1. lra. }
    assert (Hlo : (- a * inject_Z k <= (x - q) * inject_Z k)%Q).
    { apply Qmult_le_compat_r; [apply Hax | apply Qlt_le_weak; exact Hkq]. }
    assert (Hhi : ((x - q) * inject_Z k <= a * inject_Z k)%Q).
    { apply Qmult_le_compat_r; [apply Hax | apply Qlt_le_weak; exact Hkq]. }
    apply Qfloor_unique.
    + apply Qmult_le_r with (z := inject_Z k); [exact Hkq|]. lra.
    + apply Qmult_lt_r with (z := inject_Z k); [exact Hkq|].
      rewrite inject_Z_plus. change (inject_Z 1) with 1%Q. lra.
Qed.

Lemma whole_fps_floor (fps : Q) (k n : Z) :
  whole_fps fps k -> Qfloor (inject_Z n / fps) = n / k.
Proof.
  intros [Hk Hfps].
  rewrite (Qfloor_comp _ (inject_Z n / inject_Z k)) by (rewrite Hfps; reflexivity).
  rewrite Qfloor_div_Z by exact Hk. rewrite Qfloor_Z. reflexivity.
Qed.

Lemma whole_fps_double (fps : Q) (k n : Z) (x : Q) :
  whole_fps fps k -> 0 <= n < double_limit ->
  double_of x (inject_Z n / fps) -> Qfloor x = n / k.
Proof.
  intros [Hk Hfps] Hn [Hnear Hexact].
  apply double_quotient_floor; [exact Hn | exact Hk|].
  assert (E : (inject_Z n / fps == inject_Z n / inject_Z k)%Q)
    by (rewrite Hfps; reflexivity).
  split.
  - rewrite <- E. exact Hnear.
  - intros (z & Hz & Hq). rewrite <- E. apply Hexact. exists z.
    split; [exact Hz|]. rewrite E. exact Hq.
Qed.

(** X11: at a frame rate of a whole number [k] of frames per second and for
    a non-negative frame count below [2 ^ 53], [frames_to_time_str] writes
    the whole seconds of [frames / k] as hours, minutes below 60 and
    seconds below 60, each padded to two digits; the hours are not wrapped.
    The double quotient of line 61 has these whole seconds too. *)
Theorem X11_time_string_splits_the_whole_seconds :
  forall (frames : Z) (fps : Q) (k : Z),
    0 <= frames < double_limit ->
    whole_fps fps k ->
    let total := frames / k in
    frames_to_time_str frames fps
    = Ok (fmt02 (total / 3600) ++ ":" ++ fmt02 (total mod 3600 / 60)
          ++ ":" ++ fmt02 (total mod 60))%string
    /\ (forall x, double_of x (inject_Z frames / fps) -> Qfloor x = total)
    /\ 0 <= total
    /\ 0 <= total mod 3600 / 60 < 60
    /\ 0 <= total mod 60 < 60
    /\ total / 3600 * 3600 + total mod 3600 / 60 * 60 + total mod 60 = total.
Proof.
  intros frames fps k Hframes Hwhole total.
  destruct (whole_fps_positive _ _ Hwhole) as [Hfps Hnz].
  assert (Htotal : 0 <= total) by (apply Z.div_pos; [lia | apply Hwhole]).
  split; [|split].
  - unfold frames_to_time_str.
    destruct (Qeq_bool fps 0) eqn:E; [apply Qeq_bool_iff in E; contradiction|].
    rewrite py_truediv_ok by exact Hnz. cbn [bind].
    assert (Ets : Qfloor (Qred (inject_Z frames / fps)) = total).
    { rewrite (Qfloor_comp _ _ (Qred_correct _)). apply whole_fps_floor. exact Hwhole. }
    rewrite py_floordiv_int by lia.
    rewrite py_floordiv_int by lia.
    destruct (py_mod_floor (Qred (inject_Z frames / fps)) 3600 ltac:(lia)) as [-> _].
    destruct (py_mod_floor (Qred (inject_Z frames / fps)) 60 ltac:(lia)) as [_ ->].
    rewrite Ets. reflexivity.
  - intros x Hx. apply (whole_fps_double fps k frames x Hwhole Hframes Hx).
  - split; [exact Htotal|].
    pose proof (Z.div_mod total 3600 ltac:(lia)).
    pose proof (Z.mod_pos_bound total 3600 ltac:(lia)).
    pose proof (Z.div_mod (total mod 3600) 60 ltac:(lia)).
    pose proof (Z.mod_pos_bound (total mod 3600) 60 ltac:(lia)).
    pose proof (Z.div_mod total 60 ltac:(lia)).
    pose proof (Z.mod_pos_bound total 60 ltac:(lia)).
    assert (Hmm : (total mod 3600) mod 60 = total mod 60).
    { apply (Z.mod_unique total 60 (60 * (total / 3600) + total mod 3600 / 60));
        [left; apply Z.mod_pos_bound; lia | lia]. }
    assert (0 <= total mod 3600 / 60 < 60).
    { split; [apply Z.div_pos; lia | apply Z.div_lt_upper_bound; lia]. }
    repeat split; lia.
Qed.

(** 100000 frames at 30 fps last 3333.33 s: 55 minutes and 33 seconds. *)
Lemma X11_time_string_witness :
  frames_to_time_str 100000 30 = Ok "00:55:33"%string.
Proof.
  destruct (X11_time_string_splits_the_whole_seconds 100000 30 30
              ltac:(vm_compute; split; [discriminate | reflexivity])
              ltac:(split; [lia | reflexivity])) as [H _].
  rewrite H. vm_compute. reflexivity.
Defined.

Section Overlay.

Context {Frame : Type} (model : Frame -> Results).

Lemma loop_body_timer fps self frame self' o :
  loop_body model fps self frame = Ok (self', o) ->
  timer fps (frame_count self) (is_person_present o) (off_camera_start_frame self')
  = Ok (alert_time_str o).
Proof.
  unfold loop_body.
  destruct (mobile_tracker _ _ _ _) as [[mstart mevs]|]; simpl; [|discriminate].
  destruct (activity _ _ _ _ _ _) as [[[[ostart st1] lbl] aevs]|]; simpl; [|discriminate].
  destruct (timer _ _ _ _) as [t|] eqn:Et; simpl; [|discriminate].
  intros H. inversion H; subst. simpl. exact Et.
Qed.

Lemma timer_absent fps fc start :
  ~ (fps == 0)%Q ->
  timer fps fc false start = Ok (clock (Qred (inject_Z (fc - start) / fps))).
Proof.
  intros Hfps. unfold timer. rewrite py_truediv_ok by exact Hfps. reflexivity.
Qed.

Lemma clock_floor (d : Q) :
  clock d = (fmt02 (Qfloor d / 60) ++ ":" ++ fmt02 (Qfloor d mod 60))%string.
Proof.
  unfold clock. rewrite py_floordiv_int by lia.
  destruct (py_mod_floor d 60 ltac:(lia)) as [_ ->]. reflexivity.
Qed.

End Overlay.

(** X12: the on-screen timer, at a frame rate of a whole number [k] of
    frames per second and below [2 ^ 53] frames.  With a person in view it
    reads "00:00".  Without one it reads minutes and seconds, the minutes
    not wrapped at 60, of the whole seconds of a frame count over [k], which
    the double quotient of line 175 has too: the absence accumulated before
    the frame while the threshold is not reached, but on the very frame that
    logs the alert it reads the position in the video, [frame_count + 1]
    frames, because the start frame it subtracts has just been reset
    to -1. *)
Theorem X12_timer_shows_video_position_on_alert_frames :
  forall (Frame : Type) (model : Frame -> Results) (fps : Q) (k : Z)
         (self : CCTVAnalyzer) (frame : Frame) self' o,
    whole_fps fps k ->
    frame_count self + 1 < double_limit ->
    off_camera_in_step self ->
    loop_body model fps self frame = Ok (self', o) ->
    let shown := if elapsed self <? alert_duration_frames self
                 then elapsed self else frame_count self + 1 in
    let seconds := shown / k in
    (is_person_present o = true -> alert_time_str o = "00:00"%string)
    /\ (is_person_present o = false ->
        alert_time_str o = (fmt02 (seconds / 60) ++ ":" ++ fmt02 (seconds mod 60))%string
        /\ (filter is_alert (events o) <> []
            <-> alert_duration_frames self <= elapsed self))
    /\ (forall x, double_of x (inject_Z shown / fps) -> Qfloor x = seconds).
Proof.
  intros Frame model fps k self frame self' o Hwhole Hsmall Hinv Hb shown seconds.
  destruct (whole_fps_positive _ _ Hwhole) as [_ Hfps].
  pose proof (loop_body_timer model _ _ _ _ _ Hb) as Ht.
  destruct (elapsed_bounds self Hinv) as [He Hst].
  split; [|split].
  - intros Hp. rewrite Hp in Ht. simpl in Ht. congruence.
  - intros Hp. rewrite Hp, timer_absent in Ht by exact Hfps.
    destruct (absent_step model _ _ _ _ _ Hb Hp) as (evs & Hma & Hev & _).
    destruct (missing_alert_elapsed _ _ _ _ (elapsed self) _ _ Hst Hma) as [Hfire Hwait].
    assert (Hshown : frame_count self - off_camera_start_frame self' = shown
                     /\ (evs <> [] <-> alert_duration_frames self <= elapsed self)).
    { unfold shown.
      destruct (elapsed self <? alert_duration_frames self) eqn:E.
      - apply Z.ltb_lt in E. destruct (Hwait E) as [-> ->].
        split; [lia|]. split; [congruence | lia].
      - apply Z.ltb_ge in E. destruct (Hfire E) as (-> & d & _ & ->).
        split; [lia|]. split; [intros _; exact E | discriminate]. }
    destruct Hshown as [Hshown Halert]. rewrite Hshown in Ht.
    rewrite Hev. split; [|exact Halert].
    assert (E : alert_time_str o = clock (Qred (inject_Z shown / fps))) by congruence.
    rewrite E, clock_floor.
    rewrite (Qfloor_comp _ _ (Qred_correct (inject_Z shown / fps))).
    rewrite (whole_fps_floor fps k shown Hwhole). reflexivity.
  - intros x Hx. apply (whole_fps_double fps k shown x Hwhole); [|exact Hx].
    destruct Hinv as (Hfc & _). unfold shown.
    destruct (elapsed self <? alert_duration_frames self); lia.
Qed.

(** fps 1, threshold 2 frames, nobody in view: frame 5 logs the second
    alert of the absence and the timer reads 6 seconds. *)
Lemma X12_timer_witness :
  let self := final (frame_loop detector 1 (configure (init 2 1) 1)
                                (repeat empty_frame 5)) in
  let r := loop_body detector 1 self empty_frame in
  elapsed self = 2
  /\ frame_count self = 5
  /\ match r with
     | Ok (_, o) => alert_time_str o = "00:06"%string
     | Raise _ => False
     end.
Proof.
  intros self r. split; [reflexivity|]. split; [reflexivity|].
  destruct r as [[self' o]|e] eqn:Er; [|vm_compute in Er; discriminate].
  assert (Hfps : whole_fps 1 1) by (split; [lia | reflexivity]).
  assert (Hsmall : frame_count self + 1 < double_limit) by (vm_compute; reflexivity).
  assert (Hinv : off_camera_in_step self).
  { split; [vm_compute; discriminate|]. split; [vm_compute; discriminate|].
    right. vm_compute. repeat split; discriminate. }
  destruct (X12_timer_shows_video_position_on_alert_frames
              Results detector 1 1 self empty_frame self' o Hfps Hsmall Hinv Er)
    as (_ & H & _).
  destruct H as [H _].
  - assert (E : r = Ok (self', o)) by exact Er.
    vm_compute in E. inversion E. reflexivity.
  - rewrite H. vm_compute. reflexivity.
Defined.

(* ===================================================================== *)
(** ** The fps the frame loop divides by                                  *)
(* ===================================================================== *)

Section Divisor.

Context {Frame : Type} (model : Frame -> Results).

Lemma working_fps_nonzero self cap_fps :
  TARGET_FPS self <> 0 -> ~ (working_fps self cap_fps == 0)%Q.
Proof.
  intros Htarget. unfold working_fps. destruct (Qeq_bool cap_fps 0) eqn:E.
  - unfold Qeq. simpl. lia.
  - intros H. apply Qeq_bool_iff in H. congruence.
Qed.

Lemma py_truediv_zero x zero : (zero == 0)%Q -> py_truediv x zero = Raise ZeroDivisionError.
Proof.
  intros H. unfold py_truediv. apply Qeq_bool_iff in H. rewrite H. reflexivity.
Qed.

Lemma mobile_tracker_duration fps fc mobile start s evs :
  mobile_tracker fps fc mobile start = Ok (s, evs) -> Forall (duration_over fps) evs.
Proof.
  unfold mobile_tracker. destruct (mobile && (start =? -1)).
  - intros H; inversion H; subst. constructor; [|constructor].
    left. split; reflexivity.
  - destruct (negb mobile && negb (start =? -1)).
    + destruct (py_truediv (inject_Z (fc - start)) fps) as [d|] eqn:Ed; simpl;
        [|discriminate].
      intros H; inversion H; subst. constructor; [|constructor].
      right. exists (fc - start). exact Ed.
    + intros H; inversion H; subst. constructor.
Qed.

Lemma missing_alert_duration fps fc threshold start s evs :
  missing_alert fps fc threshold start = Ok (s, evs) -> Forall (duration_over fps) evs.
Proof.
  unfold missing_alert.
  destruct (fc - (if start =? -1 then fc else start) >=? threshold).
  - destruct (py_truediv _ fps) as [d|] eqn:Ed; simpl; [|discriminate].
    intros H; inversion H; subst. constructor; [|constructor].
    right. eexists. exact Ed.
  - intros H; inversion H; subst. constructor.
Qed.

Lemma loop_body_durations fps self frame self' o :
  loop_body model fps self frame = Ok (self', o) -> Forall (duration_over fps) (events o).
Proof.
  intros Hb.
  apply loop_body_inv in Hb as (mevs & aevs & Hm & Ha & -> & _).
  apply Forall_app. split; [eapply mobile_tracker_duration; exact Hm|].
  destruct (person_present (sampled model self frame)) eqn:Hp.
  - destruct (activity_present _ _ _ _ _ _ _ _ _ _ Hp Ha) as (_ & -> & _). constructor.
  - destruct (activity_absent _ _ _ _ _ _ _ _ _ _ Hp Ha) as (Hma & _).
    eapply missing_alert_duration. exact Hma.
Qed.

Lemma frame_loop_durations fps frames : forall self self' outs,
  frame_loop model fps self frames = Ok (self', outs) ->
  Forall (duration_over fps) (all_events outs).
Proof.
  induction frames as [|f fs IH]; intros self self' outs Hrun.
  - simpl in Hrun. inversion Hrun; subst. constructor.
  - apply frame_loop_cons_inv in Hrun as (s1 & o & os & Hb & Hl & ->).
    unfold all_events. simpl. apply Forall_app. split.
    + eapply loop_body_durations. exact Hb.
    + eapply IH. exact Hl.
Qed.

Lemma loop_body_divides fps self frame self' o :
  loop_body model fps self frame = Ok (self', o) -> divides_by fps self self' o.
Proof.
  intros Hb. split; [apply (mobile_step model _ _ _ _ _ Hb)|]. split.
  - intros Hp. destruct (absent_step model _ _ _ _ _ Hb Hp) as (evs & Hma & <- & _).
    exact Hma.
  - eexists. apply (loop_body_timer model _ _ _ _ _ Hb).
Qed.

(** Every frame of a run goes through [loop_body] with the fps of the run. *)
Lemma frame_loop_iterations fps before frame after self self' outs :
  frame_loop model fps self (before ++ frame :: after) = Ok (self', outs) ->
  exists s s1 o,
    frame_loop model fps self before = Ok (s, firstn (List.length before) outs)
    /\ loop_body model fps s frame = Ok (s1, o)
    /\ nth_error outs (List.length before) = Some o
    /\ divides_by fps s s1 o.
Proof.
  intros Hrun.
  apply frame_loop_app_inv in Hrun as (s & outs1 & outs2 & H1 & H2 & ->).
  apply frame_loop_cons_inv in H2 as (s1 & o & os & Hb & _ & ->).
  destruct (frame_loop_shape model _ _ _ _ _ H1) as (Hlen & _).
  exists s, s1, o. rewrite <- Hlen.
  rewrite firstn_app, firstn_all, Nat.sub_diag, app_nil_r.
  rewrite nth_error_app2, Nat.sub_diag by lia.
  repeat split; trivial; apply (loop_body_divides _ _ _ _ _ Hb).
Qed.

(** The divisions themselves are unguarded: with an fps of 0 the iteration
    on a frame without a person raises, at the timer if not before. *)
Lemma loop_body_unguarded zero self frame :
  (zero == 0)%Q ->
  person_present (sampled model self frame) = false ->
  loop_body model zero self frame = Raise ZeroDivisionError.
Proof.
  intros Hz Hp. unfold loop_body.
  destruct (mobile_tracker _ _ _ _) as [[mstart mevs]|[]]; simpl; [|reflexivity].
  unfold activity. rewrite Hp.
  destruct (missing_alert _ _ _ _) as [[ostart aevs]|[]]; simpl; [|reflexivity].
  unfold timer. rewrite (py_truediv_zero _ _ Hz). reflexivity.
Qed.

End Divisor.

(** C10: when the source reports an fps of 0, [analyze_video] works with
    the configured target fps instead: the run is the run at the target fps;
    any other reported fps is used as it is.  With a nonzero target fps the
    working fps is nonzero, and it is what the frame loop divides by: the
    run returns, it records the working fps, every frame goes through one
    iteration whose mobile debounce, missing alert and timer are handed the
    working fps and return, and every duration logged is 0 on a start or a
    frame count over the working fps.  The iteration itself has no guard: at
    an fps of 0 it raises on any frame without a person. *)
Theorem C10_fps_fallback_keeps_divisors_nonzero :
  forall (Frame : Type) (model : Frame -> Results) (self : CCTVAnalyzer)
         (cap_fps : Q) (frames : list Frame),
    TARGET_FPS self <> 0 ->
    let fps := working_fps self cap_fps in
    ((cap_fps == 0)%Q ->
     fps = inject_Z (TARGET_FPS self)
     /\ analyze_video model self cap_fps frames
        = analyze_video model self (inject_Z (TARGET_FPS self)) frames)
    /\ (~ (cap_fps == 0)%Q -> fps = cap_fps)
    /\ ~ (fps == 0)%Q
    /\ (forall x, py_truediv x fps = Ok (Qred (x / fps)))
    /\ (exists self' outs,
          analyze_video model self cap_fps frames = Ok (self', outs)
          /\ List.length outs = List.length frames
          /\ current_fps (stats self') = fps
          /\ Forall (duration_over fps) (all_events outs)
          /\ forall before frame after,
              frames = before ++ frame :: after ->
              exists s s1 o,
                analyze_video model self cap_fps before
                = Ok (s, firstn (List.length before) outs)
                /\ loop_body model fps s frame = Ok (s1, o)
                /\ nth_error outs (List.length before) = Some o
                /\ divides_by fps s s1 o)
    /\ (forall (zero : Q) (s : CCTVAnalyzer) (frame : Frame),
          (zero == 0)%Q ->
          person_present (sampled model s frame) = false ->
          loop_body model zero s frame = Raise ZeroDivisionError).
Proof.
  intros Frame model self cap_fps frames Htarget fps.
  assert (Hnz : ~ (fps == 0)%Q) by (apply working_fps_nonzero; exact Htarget).
  assert (Hzero : (cap_fps == 0)%Q -> fps = inject_Z (TARGET_FPS self)).
  { intros H. unfold fps, working_fps. apply Qeq_bool_iff in H. rewrite H. reflexivity. }
  split.
  { intros H. split; [exact (Hzero H)|].
    unfold analyze_video. fold fps. rewrite (Hzero H).
    unfold working_fps at 1 2. simpl Qeq_bool.
    destruct (Qeq_bool (inject_Z (TARGET_FPS self)) 0) eqn:E; [|reflexivity].
    apply Qeq_bool_iff in E. unfold Qeq in E. simpl in E. lia. }
  split.
  { intros H. unfold fps, working_fps.
    destruct (Qeq_bool cap_fps 0) eqn:E; [|reflexivity].
    apply Qeq_bool_iff in E. contradiction. }
  split; [exact Hnz|]. split.
  { intros x. apply py_truediv_ok. exact Hnz. }
  split; [|intros zero s frame; apply loop_body_unguarded].
  unfold analyze_video. fold fps.
  destruct (frame_loop_total model fps frames (configure self fps) Hnz)
    as (self' & outs & Hrun).
  exists self', outs. split; [exact Hrun|].
  destruct (frame_loop_shape model _ _ _ _ _ Hrun) as (Hlen & _).
  destruct (frame_loop_settings model _ _ _ _ _ Hrun) as (_ & _ & Hfps & _).
  split; [exact Hlen|]. split; [exact Hfps|].
  split; [apply (frame_loop_durations model _ _ _ _ _ Hrun)|].
  intros before frame after ->.
  apply (frame_loop_iterations model _ _ _ _ _ _ _ Hrun).
Qed.

(** A source reporting fps 0 read by the analyzer of main.py, 30 seconds at
    a target of 60 fps, with nobody in view: the run is the run at 60 fps,
    it records 60 fps, and frame 1800 logs the alert of 1800 frames over 60,
    30 seconds. *)
Lemma C10_fps_fallback_witness :
  let r := analyze_video detector (init 30 60) 0 (absent 1801) in
  working_fps (init 30 60) 0 = 60%Q
  /\ r = analyze_video detector (init 30 60) 60 (absent 1801)
  /\ current_fps (stats (final r)) = 60%Q
  /\ alert_duration_frames (final r) = 1800
  /\ alerts (outputs r) = [mkEvent "person_missing_alert" 30 1800]
  /\ Forall (duration_over 60) (all_events (outputs r)).
Proof.
  intros r.
  assert (Ht : TARGET_FPS (init 30 60) <> 0) by (vm_compute; discriminate).
  destruct (C10_fps_fallback_keeps_divisors_nonzero
              Results detector (init 30 60) 0 (absent 1801) Ht)
    as (Hzero & _ & _ & _ & (self' & outs & Hrun & _ & Hfps & Hdur & _) & _).
  destruct Hzero as [Hw Hsame]; [reflexivity|].
  fold r in Hrun, Hsame.
  assert (Hf : final r = self') by (rewrite Hrun; reflexivity).
  assert (Ho : outputs r = outs) by (rewrite Hrun; reflexivity).
  split; [exact Hw|]. split; [exact Hsame|].
  split; [rewrite Hf, Hfps; exact Hw|].
  split; [vm_compute; reflexivity|].
  split; [vm_compute; reflexivity|].
  rewrite Ho. rewrite Hw in Hdur. exact Hdur.
Defined.

(** X13: what the detection pass computes, without its loops, for boxes
    in the pixel range: a person is present when some box has the person
    class; a laptop or keyboard is present when some box has one of these
    classes, wherever it is in the frame; a phone is in hand when some
    person box and some mobile box are horizontally close, with the phone's
    centre below the zone line, and overlap on a strictly positive area,
    which in this range is also the int64 product of lines 100-101. *)
Theorem X13_classify_answers_three_existence_questions :
  forall (results : Results),
    (forall box, has_box results box -> in_pixel_range (xyxy box)) ->
    (person_present (classify results) = true <->
     exists box, has_box results box /\ cls box = PERSON_CLASS_ID)
    /\ (laptop_or_keyboard_present (classify results) = true <->
        exists box, has_box results box
                    /\ (cls box = LAPTOP_CLASS_ID \/ cls box = KEYBOARD_CLASS_ID))
    /\ (mobile_in_hand (classify results) = true <->
        exists pbox mbox,
          has_box results pbox /\ cls pbox = PERSON_CLASS_ID
          /\ has_box results mbox /\ cls mbox = MOBILE_CLASS_ID
          /\ horizontal_prox (xyxy pbox) (xyxy mbox) = true
          /\ (inject_Z (py_mobile_zone (xyxy pbox)) < m_center_y (xyxy mbox))%Q
          /\ 0 < intersection_area (xyxy pbox) (xyxy mbox))
    /\ (forall pbox mbox, has_box results pbox -> has_box results mbox ->
          intersection_area_int64 (xyxy pbox) (xyxy mbox)
          = intersection_area (xyxy pbox) (xyxy mbox)).
Proof.
  intros results Hrange. split; [apply person_present_iff|].
  split; [apply laptop_or_keyboard_iff|]. split.
  - rewrite mobile_in_hand_iff.
    split; intros (pbox & mbox & Hpb & Hpc & Hmb & Hmc & H); exists pbox, mbox;
      repeat split; trivial.
    + apply pair_qualifies_iff in H. tauto.
    + apply pair_qualifies_iff in H as (_ & Hv & _). apply Qltb_lt. exact Hv.
    + apply pair_qualifies_iff in H. tauto.
    + destruct H as (Hh & Hv & Ht). apply pair_qualifies_iff.
      repeat split; trivial. apply Qltb_lt. exact Hv.
  - intros pbox mbox Hp Hm.
    apply intersection_area_in_pixel_range; apply Hrange; assumption.
Qed.

Lemma X13_classify_witness :
  mobile_in_hand (classify [[laptop; person]; [phone_in_hand]]) = true
  /\ laptop_or_keyboard_present (classify [[laptop; person]; [phone_in_hand]]) = true.
Proof.
  destruct (X13_classify_answers_three_existence_questions
              [[laptop; person]; [phone_in_hand]]) as (_ & Hl & Hm & _).
  { intros box (r & [<- | [<- | []]] & Hb); simpl in Hb;
      repeat (destruct Hb as [<- | Hb]; [vm_compute; repeat split; discriminate|]);
      contradiction. }
  split.
  - apply Hm. exists person, phone_in_hand.
    split; [exists [laptop; person]; simpl; tauto|]. split; [reflexivity|].
    split; [exists [phone_in_hand]; simpl; tauto|]. split; [reflexivity|].
    split; [vm_compute; reflexivity|]. split; [vm_compute; reflexivity|].
    vm_compute. reflexivity.
  - apply Hl. exists laptop. split; [exists [laptop; person]; simpl; tauto|].
    left. reflexivity.
Defined.

(* ===================================================================== *)
(** ** Face blurring                                                      *)
(* ===================================================================== *)

Section Windows.

Context {A : Type}.

(** Writing over the positions [a..b) of a list something of the length of
    that window. *)
Lemma nth_error_window (l mid : list A) (a b i : nat) :
  (a <= List.length l)%nat -> (b <= List.length l)%nat ->
  List.length mid = List.length (firstn (b - a) (skipn a l)) ->
  nth_error (firstn a l ++ mid ++ skipn (Nat.max a b) l) i
  = if ((a <=? i) && (i <? b))%nat then nth_error mid (i - a) else nth_error l i.
Proof.
  intros Ha Hb Hmid.
  rewrite length_firstn, length_skipn in Hmid.
  assert (Hla : List.length (firstn a l) = a) by (apply firstn_length_le; exact Ha).
  destruct (a <=? i)%nat eqn:E1; simpl.
  - apply Nat.leb_le in E1.
    rewrite nth_error_app2 by lia. rewrite Hla.
    destruct (i <? b)%nat eqn:E2.
    + apply Nat.ltb_lt in E2. apply nth_error_app1. lia.
    + apply Nat.ltb_ge in E2. rewrite nth_error_app2 by lia.
      rewrite nth_error_skipn. f_equal. lia.
  - apply Nat.leb_gt in E1. rewrite nth_error_app1 by lia.
    rewrite nth_error_firstn.
    assert (E : (i <? a)%nat = true) by (apply Nat.ltb_lt; exact E1).
    rewrite E. reflexivity.
Qed.

Lemma length_window (l mid : list A) (a b : nat) :
  (a <= List.length l)%nat -> (b <= List.length l)%nat ->
  List.length mid = List.length (firstn (b - a) (skipn a l)) ->
  List.length (firstn a l ++ mid ++ skipn (Nat.max a b) l) = List.length l.
Proof.
  intros Ha Hb Hmid. rewrite length_firstn, length_skipn in Hmid.
  rewrite !length_app, length_firstn, length_skipn. lia.
Qed.

Lemma In_window (l : list A) (a k : nat) (x : A) :
  In x (firstn k (skipn a l)) -> In x l.
Proof.
  intros H. rewrite <- (firstn_skipn a l). apply in_or_app. right.
  rewrite <- (firstn_skipn k (skipn a l)). apply in_or_app. left. exact H.
Qed.

Lemma nth_error_combine_Some {B : Type} (l1 : list A) (l2 : list B) :
  forall i a b,
    nth_error l1 i = Some a -> nth_error l2 i = Some b ->
    nth_error (combine l1 l2) i = Some (a, b).
Proof.
  revert l2. induction l1 as [|x l1 IH]; intros [|y l2] [|i] a b H1 H2;
    simpl in *; try discriminate.
  - congruence.
  - apply IH; assumption.
Qed.

End Windows.

Section BlurFacts.

Context {Pixel : Type}.
Variable GaussianBlur : list (list Pixel) -> option (list (list Pixel)).
Variable detect : Image Pixel -> list Face.
Variable cascade : bool.

(** The contract of [cv2.GaussianBlur]: the output has the size of the
    input. *)
Hypothesis blur_keeps_shape :
  forall src dst, GaussianBlur src = Some dst -> same_shape src dst.

Lemma slice_index_le (n : nat) (i : Z) : (slice_index n i <= n)%nat.
Proof. unfold slice_index. destruct (i <? 0) eqn:E; lia. Qed.

Lemma face_region_within (W H : nat) (face : Face) :
  (top (face_region W H face) <= H)%nat /\ (bottom (face_region W H face) <= H)%nat
  /\ (left (face_region W H face) <= W)%nat /\ (right (face_region W H face) <= W)%nat.
Proof.
  destruct face as [[[x y] w] h]. simpl. repeat split; apply slice_index_le.
Qed.

(** The rows of a patch paired with the rows they are written over. *)
Lemma patch_pairs (g : Region) (rs : list (list Pixel)) :
  forall (window patch : list (list Pixel)),
    (forall row, In row window -> In row rs) ->
    same_shape (map (fun row => firstn (right g - left g) (skipn (left g) row)) window)
               patch ->
    List.length patch = List.length window
    /\ Forall (fun p => In (fst p) rs
                        /\ List.length (snd p)
                           = List.length (firstn (right g - left g)
                                                 (skipn (left g) (fst p))))
              (combine window patch).
Proof.
  induction window as [|row window IH]; intros patch Hin Hshape.
  - inversion Hshape; subst. split; [reflexivity | constructor].
  - simpl in Hshape. inversion Hshape as [|? v ? patch' Hlen Hrest]; subst.
    destruct (IH patch' (fun r Hr => Hin r (or_intror Hr)) Hrest) as [IHl IHf].
    split; [simpl; congruence|]. simpl. constructor; [|exact IHf].
    simpl. split; [apply Hin; left; reflexivity | symmetry; exact Hlen].
Qed.

(** One face: the shape of the image is kept and no pixel outside the
    region of the face is changed. *)
Lemma blur_face_frame (img img' : Image Pixel) (face : Face) :
  rectangular img ->
  blur_face GaussianBlur img face = Some img' ->
  width img' = width img
  /\ List.length (rows img') = List.length (rows img)
  /\ rectangular img'
  /\ (forall r c,
        ~ covers (face_region (width img) (List.length (rows img)) face) r c ->
        pixel img' r c = pixel img r c)
  /\ exists blurred_face,
      GaussianBlur (crop (face_region (width img) (List.length (rows img)) face)
                         (rows img)) = Some blurred_face
      /\ forall r c,
          covers (face_region (width img) (List.length (rows img)) face) r c ->
          pixel img' r c
          = pixel (mkImage 0 blurred_face)
                  (r - top (face_region (width img) (List.length (rows img)) face))
                  (c - left (face_region (width img) (List.length (rows img)) face)).
Proof.
  intros Hrect. unfold blur_face.
  set (g := face_region (width img) (List.length (rows img)) face).
  destruct (GaussianBlur (crop g (rows img))) as [patch|] eqn:Eb; [|discriminate].
  intros H. inversion H; subst img'; clear H. simpl.
  destruct (face_region_within (width img) (List.length (rows img)) face)
    as (Ht & Hbt & Hl & Hr). fold g in Ht, Hbt, Hl, Hr.
  pose proof (blur_keeps_shape _ _ Eb) as Hshape. unfold crop in Hshape.
  set (window := firstn (bottom g - top g) (skipn (top g) (rows img))) in *.
  destruct (patch_pairs g (rows img) window patch
              (fun row Hin => In_window _ _ _ _ Hin) Hshape) as [Hplen Hpairs].
  set (mid := map (fun '(row, patch_row) => paste_row g row patch_row)
                  (combine window patch)).
  assert (Hmid : List.length mid = List.length window).
  { unfold mid. rewrite length_map, length_combine. lia. }
  assert (Hrows : forall row, In row (rows img) -> List.length row = width img)
    by (apply Forall_forall; exact Hrect).
  assert (Hmidrows : forall i row', nth_error mid i = Some row' ->
            exists row v, nth_error window i = Some row /\ nth_error patch i = Some v
                          /\ In row (rows img)
                          /\ List.length v
                             = List.length (firstn (right g - left g) (skipn (left g) row))
                          /\ row' = paste_row g row v).
  { intros i row' Hi. unfold mid in Hi. rewrite nth_error_map in Hi.
    destruct (nth_error (combine window patch) i) as [[row v]|] eqn:Ec; [|discriminate].
    simpl in Hi. inversion Hi; subst row'.
    rewrite Forall_forall in Hpairs.
    destruct (Hpairs (row, v) (nth_error_In _ _ Ec)) as [Hin Hv]. simpl in Hin, Hv.
    exists row, v. repeat split; trivial.
    - clear - Ec. revert patch i Ec.
      induction window as [|x l IH]; intros [|y p] [|i] Ec; simpl in *;
        try discriminate; [congruence | eauto].
    - clear - Ec. revert patch i Ec.
      induction window as [|x l IH]; intros [|y p] [|i] Ec; simpl in *;
        try discriminate; [congruence | eauto]. }
  unfold paste. fold window. fold mid.
  split; [reflexivity|]. split; [apply length_window; trivial|].
  split.
  - unfold rectangular. simpl. apply Forall_forall. intros row' Hin.
    apply In_nth_error in Hin as [i Hi].
    rewrite nth_error_window in Hi by trivial.
    destruct ((top g <=? i) && (i <? bottom g))%nat.
    + destruct (Hmidrows _ _ Hi) as (row & v & _ & _ & Hrin & Hv & ->).
      unfold paste_row. rewrite length_window; [apply Hrows; exact Hrin | | | exact Hv];
        rewrite (Hrows row Hrin); assumption.
    + apply Hrows. eapply nth_error_In. exact Hi.
  - assert (Hpix : forall r c,
              pixel (mkImage (width img)
                       (firstn (top g) (rows img) ++ mid
                        ++ skipn (Nat.max (top g) (bottom g)) (rows img))) r c
              = if ((top g <=? r) && (r <? bottom g)
                    && ((left g <=? c) && (c <? right g)))%nat
                then pixel (mkImage 0 patch) (r - top g) (c - left g)
                else pixel img r c).
    { intros r c. unfold pixel. simpl.
      rewrite nth_error_window by trivial.
      destruct ((top g <=? r) && (r <? bottom g))%nat eqn:Er; [|reflexivity].
      apply andb_true_iff in Er as [Er1 Er2].
      apply Nat.leb_le in Er1. apply Nat.ltb_lt in Er2.
      destruct (nth_error mid (r - top g)) as [row'|] eqn:Em.
      - destruct (Hmidrows _ _ Em) as (row & v & Hw & Hpv & Hrin & Hv & ->).
        assert (Hrow : nth_error (rows img) r = Some row).
        { unfold window in Hw. rewrite nth_error_firstn, nth_error_skipn in Hw.
          destruct (r - top g <? bottom g - top g)%nat; [|discriminate].
          rewrite <- Hw. f_equal. lia. }
        rewrite Hrow, Hpv. unfold paste_row.
        rewrite nth_error_window; [| | | exact Hv];
          try (rewrite (Hrows row Hrin); assumption).
        simpl. reflexivity.
      - exfalso. apply nth_error_None in Em. rewrite Hmid in Em.
        unfold window in Em. rewrite length_firstn, length_skipn in Em. lia. }
    split.
    + intros r c Hout. rewrite Hpix.
      destruct ((top g <=? r) && (r <? bottom g)
                && ((left g <=? c) && (c <? right g)))%nat eqn:E; [|reflexivity].
      exfalso. apply Hout.
      apply andb_true_iff in E as [E1 E2].
      apply andb_true_iff in E1 as [E1 E1']. apply andb_true_iff in E2 as [E2 E2'].
      apply Nat.leb_le in E1, E2. apply Nat.ltb_lt in E1', E2'. split; lia.
    + exists patch. split; [reflexivity|].
      intros r c [[H1 H1'] [H2 H2']]. rewrite Hpix.
      apply Nat.leb_le in H1, H2. apply Nat.ltb_lt in H1', H2'.
      rewrite H1, H1', H2, H2'. reflexivity.
Qed.

Lemma blur_each_frame (faces : list Face) : forall (img img' : Image Pixel),
  rectangular img ->
  blur_each GaussianBlur img faces = Some img' ->
  width img' = width img
  /\ List.length (rows img') = List.length (rows img)
  /\ rectangular img'
  /\ forall r c,
       (forall face, In face faces ->
          ~ covers (face_region (width img) (List.length (rows img)) face) r c) ->
       pixel img' r c = pixel img r c.
Proof.
  induction faces as [|face rest IH]; intros img img' Hrect Hrun.
  - simpl in Hrun. inversion Hrun; subst. auto.
  - simpl in Hrun.
    destruct (blur_face GaussianBlur img face) as [img1|] eqn:E1; [|discriminate].
    destruct (blur_face_frame _ _ _ Hrect E1) as (Hw1 & Hh1 & Hr1 & Hp1 & _).
    destruct (IH _ _ Hr1 Hrun) as (Hw2 & Hh2 & Hr2 & Hp2).
    split; [congruence|]. split; [congruence|]. split; [exact Hr2|].
    intros r c Hout. rewrite Hp2.
    + apply Hp1. apply Hout. left. reflexivity.
    + intros f Hf. rewrite Hw1, Hh1. apply Hout. right. exact Hf.
Qed.

End BlurFacts.

(** X14: the region blurred for a face that lies within the image is the
    face rectangle grown by the padding of 30 pixels on each side and clipped
    to the image: it covers every pixel of the face and nothing further than
    30 pixels from it. *)
Theorem X14_face_region_is_the_padded_face_clipped_to_the_image :
  forall (W H : nat) (x y w h : Z),
    0 <= x -> 0 <= y -> 0 <= w -> 0 <= h ->
    x + w <= Z.of_nat W -> y + h <= Z.of_nat H ->
    let g := face_region W H (x, y, w, h) in
    Z.of_nat (left g) = Z.max 0 (x - 30)
    /\ Z.of_nat (right g) = Z.min (Z.of_nat W) (x + w + 30)
    /\ Z.of_nat (top g) = Z.max 0 (y - 30)
    /\ Z.of_nat (bottom g) = Z.min (Z.of_nat H) (y + h + 30)
    /\ (forall r c, y <= Z.of_nat r < y + h -> x <= Z.of_nat c < x + w -> covers g r c)
    /\ (forall r c, covers g r c ->
                    y - 30 <= Z.of_nat r < y + h + 30
                    /\ x - 30 <= Z.of_nat c < x + w + 30
                    /\ (r < H)%nat /\ (c < W)%nat).
Proof.
  intros W H x y w h Hx Hy Hw Hh HxW HyH g.
  assert (El : Z.of_nat (left g) = Z.max 0 (x - 30)).
  { unfold g. simpl. unfold slice_index, padding.
    destruct (Z.max 0 (x - 30) <? 0) eqn:E; lia. }
  assert (Er : Z.of_nat (right g) = Z.min (Z.of_nat W) (x + w + 30)).
  { unfold g. simpl. unfold slice_index, padding.
    destruct (Z.min (Z.of_nat W) (x + w + 30) <? 0) eqn:E; lia. }
  assert (Et : Z.of_nat (top g) = Z.max 0 (y - 30)).
  { unfold g. simpl. unfold slice_index, padding.
    destruct (Z.max 0 (y - 30) <? 0) eqn:E; lia. }
  assert (Eb : Z.of_nat (bottom g) = Z.min (Z.of_nat H) (y + h + 30)).
  { unfold g. simpl. unfold slice_index, padding.
    destruct (Z.min (Z.of_nat H) (y + h + 30) <? 0) eqn:E; lia. }
  repeat split; trivial; unfold covers in *; lia.
Qed.

(** A 60-pixel face in the corner of a 640 x 480 image: the region is
    clipped at the top and at the left. *)
Lemma X14_face_region_witness :
  face_region 640 480 (10, 0, 60, 60) = mkRegion 0 90 0 100.
Proof.
  pose proof (X14_face_region_is_the_padded_face_clipped_to_the_image
                640 480 10 0 60 60 ltac:(lia) ltac:(lia) ltac:(lia) ltac:(lia)
                ltac:(lia) ltac:(lia)) as (El & Er & Et & Eb & _).
  destruct (face_region 640 480 (10, 0, 60, 60)) as [t b l r] eqn:E.
  simpl in *. f_equal; lia.
Defined.

(** X15: [blur_faces] keeps the shape of a rectangular image and changes no
    pixel outside the padded regions of the faces that the detector reports
    on the incoming image, whatever the blur writes and however the regions
    overlap; without a loaded cascade it returns the image as it is. *)
Theorem X15_blur_faces_changes_face_regions_only :
  forall (Pixel : Type)
         (GaussianBlur : list (list Pixel) -> option (list (list Pixel)))
         (detect : Image Pixel -> list Face) (cascade : bool) (img img' : Image Pixel),
    (forall src dst, GaussianBlur src = Some dst -> same_shape src dst) ->
    rectangular img ->
    blur_faces GaussianBlur detect cascade img = Some img' ->
    width img' = width img
    /\ List.length (rows img') = List.length (rows img)
    /\ rectangular img'
    /\ (cascade = false -> img' = img)
    /\ forall r c,
         (forall face, In face (detect img) ->
            ~ covers (face_region (width img) (List.length (rows img)) face) r c) ->
         pixel img' r c = pixel img r c.
Proof.
  intros Pixel GaussianBlur detect cascade img img' Hshape Hrect. unfold blur_faces.
  destruct cascade; simpl.
  - intros Hrun.
    destruct (blur_each_frame GaussianBlur Hshape (detect img) img img' Hrect Hrun)
      as (Hw & Hh & Hr & Hp).
    repeat split; trivial. discriminate.
  - intros H. inversion H; subst. repeat split; trivial.
Qed.

Lemma zero_blur_keeps_shape (src dst : list (list Z)) :
  Some (map (map (fun _ : Z => 0)) src) = Some dst -> same_shape src dst.
Proof.
  intros H. inversion H; subst. clear H. unfold same_shape.
  induction src as [|row src IH]; simpl; constructor; [|exact IH].
  rewrite length_map. reflexivity.
Qed.

(** One row of 100 pixels of value 7 with a face of 10 pixels at column 40:
    the columns 10-79 are handed to the blur (here a blur that writes 0) and
    column 5 keeps its value. *)
Lemma X15_blur_faces_witness :
  let blur := fun src : list (list Z) => Some (map (map (fun _ : Z => 0)) src) in
  let detect := fun _ : Image Z => [(40, 0, 10, 1)] in
  let img := mkImage 100 [repeat 7 100] in
  exists img',
    blur_faces blur detect true img = Some img'
    /\ pixel img' 0 5 = Some 7
    /\ pixel img' 0 45 = Some 0.
Proof.
  intros blur detect img.
  destruct (blur_faces blur detect true img) as [img'|] eqn:E;
    [|vm_compute in E; discriminate].
  exists img'. split; [reflexivity|].
  assert (Hrect : rectangular img)
    by (constructor; [apply repeat_length | constructor]).
  destruct (X15_blur_faces_changes_face_regions_only
              Z blur detect true img img' zero_blur_keeps_shape Hrect E)
    as (_ & _ & _ & _ & Hout).
  split.
  - rewrite Hout; [vm_compute; reflexivity|].
    intros face [<- | []]. vm_compute. intros [_ [H _]]. lia.
  - vm_compute in E. inversion E. reflexivity.
Defined.

(** X16: inside the region of a face every pixel of the result of
    [blur_face] is the pixel that [GaussianBlur] returned for that position
    of the cropped region; nothing of the original survives there unless the
    blur returns it. *)
Theorem X16_face_region_holds_the_blur_output :
  forall (Pixel : Type)
         (GaussianBlur : list (list Pixel) -> option (list (list Pixel)))
         (img img' : Image Pixel) (face : Face),
    (forall src dst, GaussianBlur src = Some dst -> same_shape src dst) ->
    rectangular img ->
    blur_face GaussianBlur img face = Some img' ->
    let g := face_region (width img) (List.length (rows img)) face in
    exists blurred_face,
      GaussianBlur (crop g (rows img)) = Some blurred_face
      /\ same_shape (crop g (rows img)) blurred_face
      /\ forall r c, covers g r c ->
                     pixel img' r c = pixel (mkImage 0 blurred_face) (r - top g) (c - left g).
Proof.
  intros Pixel GaussianBlur img img' face Hshape Hrect Hrun g.
  destruct (blur_face_frame GaussianBlur Hshape img img' face Hrect Hrun)
    as (_ & _ & _ & _ & patch & Hb & Hin).
  exists patch. split; [exact Hb|]. split; [apply Hshape; exact Hb | exact Hin].
Qed.

Lemma X16_face_region_witness :
  let blur := fun src : list (list Z) => Some (map (map (fun _ : Z => 0)) src) in
  let img := mkImage 100 [repeat 7 100] in
  exists img',
    blur_face blur img (40, 0, 10, 1) = Some img'
    /\ pixel img' 0 10 = Some 0
    /\ pixel img' 0 79 = Some 0.
Proof.
  intros blur img.
  destruct (blur_face blur img (40, 0, 10, 1)) as [img'|] eqn:E;
    [|vm_compute in E; discriminate].
  exists img'. split; [reflexivity|].
  assert (Hrect : rectangular img)
    by (constructor; [apply repeat_length | constructor]).
  destruct (X16_face_region_holds_the_blur_output
              Z blur img img' (40, 0, 10, 1) zero_blur_keeps_shape Hrect E)
    as (patch & Hb & _ & Hin).
  assert (Ep : patch = [repeat 0 70]).
  { vm_compute in Hb. inversion Hb. reflexivity. }
  split.
  - rewrite (Hin 0%nat 10%nat); [rewrite Ep; vm_compute; reflexivity|].
    vm_compute. repeat split; lia.
  - rewrite (Hin 0%nat 79%nat); [rewrite Ep; vm_compute; reflexivity|].
    vm_compute. repeat split; lia.
Defined.

(* ===================================================================== *)
(** ** The two-digit fields of the time strings                           *)
(* ===================================================================== *)

Lemma read_digits (n : Z) : 0 <= n -> read_decimal (digits n) = Some n.
Proof.
  intros Hn. unfold read_decimal, digits.
  rewrite NilZero.usu.
  - simpl. rewrite DecimalN.Unsigned.of_to. f_equal. lia.
  - destruct (Z.to_N n) as [|q]; simpl; [discriminate|].
    apply DecimalPos.Unsigned.to_uint_nonnil.
Qed.

Lemma below_hundred (P : Z -> bool) :
  forallb (fun k => P (Z.of_nat k)) (seq 0 100) = true ->
  forall n, 0 <= n < 100 -> P n = true.
Proof.
  intros H n Hn. rewrite forallb_forall in H.
  specialize (H (Z.to_nat n)). rewrite Z2Nat.id in H by lia.
  apply H. apply in_seq. lia.
Qed.

(** X17: the [:02] fields of the time strings lose nothing.  For every
    non-negative number the digits written read back as that number, the
    padding adding a leading zero below 10 only; a number below 100 takes
    exactly two characters, and a larger one is written in full rather than
    cut to two digits. *)
Theorem X17_two_digit_field_reads_back :
  forall (n : Z),
    0 <= n ->
    read_decimal (fmt02 n) = Some n
    /\ (n < 100 -> String.length (fmt02 n) = 2%nat)
    /\ (10 <= n -> fmt02 n = digits n).
Proof.
  intros n Hn. split; [|split].
  - destruct (Z_lt_ge_dec n 10) as [Hlt | Hge].
    + assert (Hall : forallb (fun k => match read_decimal (fmt02 (Z.of_nat k)) with
                                       | Some v => (v =? Z.of_nat k) || (10 <=? Z.of_nat k)
                                       | None => 10 <=? Z.of_nat k
                                       end) (seq 0 100) = true)
        by (vm_compute; reflexivity).
      pose proof (below_hundred
                    (fun k => match read_decimal (fmt02 k) with
                              | Some v => (v =? k) || (10 <=? k)
                              | None => 10 <=? k
                              end) Hall n ltac:(lia)) as H.
      cbv beta in H.
      destruct (read_decimal (fmt02 n)) as [v|].
      * apply orb_true_iff in H as [H | H]; [apply Z.eqb_eq in H; congruence | lia].
      * lia.
    + unfold fmt02.
      assert (E1 : (n <? 0) = false) by lia. assert (E2 : (n <? 10) = false) by lia.
      rewrite E1, E2. apply read_digits. exact Hn.
  - intros H100.
    assert (Hall : forallb (fun k => (String.length (fmt02 (Z.of_nat k)) =? 2)%nat)
                           (seq 0 100) = true) by (vm_compute; reflexivity).
    pose proof (below_hundred (fun k => (String.length (fmt02 k) =? 2)%nat)
                  Hall n ltac:(lia)) as H.
    apply Nat.eqb_eq. exact H.
  - intros H10. unfold fmt02.
    assert (E1 : (n <? 0) = false) by lia. assert (E2 : (n <? 10) = false) by lia.
    rewrite E1, E2. reflexivity.
Qed.

Lemma X17_two_digit_field_witness :
  fmt02 7 = "07"%string /\ read_decimal (fmt02 7) = Some 7
  /\ fmt02 123 = "123"%string /\ read_decimal (fmt02 123) = Some 123.
Proof.
  destruct (X17_two_digit_field_reads_back 7 ltac:(lia)) as (H7 & _).
  destruct (X17_two_digit_field_reads_back 123 ltac:(lia)) as (H123 & _).
  repeat split; trivial.
Defined.
